(** * WhatsApp group chat analyser: transcript parser and timeline aggregation

    A shallow embedding of [data_processor.py], [analysis_engine.py] and of
    the copy of both that [app.py] carries, together with the parts of
    Python's [str], [re] and of pandas that they call.

    Python strings are sequences of Unicode code points: a character is the
    number of its code point and a string is a list of characters. *)

From Stdlib Require Import List NArith ZArith Bool String Ascii Lia Arith.
From Stdlib Require Import Sorting.Sorted Sorting.Permutation.
Import ListNotations.

Set Implicit Arguments.

(** ** Characters and strings *)

Definition char : Type := N.
Definition str : Type := list char.

(** An ASCII literal of the source, as a Python string. *)
Definition u (s : string) : str := map N_of_ascii (list_ascii_of_string s).

Definition str_eqb (a b : str) : bool :=
  if list_eq_dec N.eq_dec a b then true else false.

Definition nonempty (s : str) : bool :=
  match s with [] => false | _ :: _ => true end.

(** U+202F NARROW NO-BREAK SPACE, U+200E LEFT-TO-RIGHT MARK,
    U+200F RIGHT-TO-LEFT MARK. *)
Definition NNBSP : char := 8239%N.
Definition LRM : char := 8206%N.
Definition RLM : char := 8207%N.

Section CharacterClasses.
Local Open Scope N_scope.

(** [str.isspace] on one character, which is also what [\s] matches in a
    [str] pattern and what [str.strip] removes: U+0009..U+000D,
    U+001C..U+0020, U+0085, U+00A0, U+1680, U+2000..U+200A, U+2028, U+2029,
    U+202F, U+205F, U+3000. *)
Definition isspace (c : char) : bool :=
  ((9 <=? c) && (c <=? 13)) || ((28 <=? c) && (c <=? 32))
  || (c =? 133) || (c =? 160) || (c =? 5760)
  || ((8192 <=? c) && (c <=? 8202))
  || (c =? 8232) || (c =? 8233) || (c =? 8239) || (c =? 8287) || (c =? 12288).

(** The decimal digits of the Unicode database (category Nd) come in runs of
    ten consecutive code points, zero first; the table lists the first code
    point of every run. *)
Definition decimal_runs : list N :=
  [ 48; 1632; 1776; 1984; 2406; 2534; 2662; 2790; 2918; 3046; 3174; 3302;
    3430; 3558; 3664; 3792; 3872; 4160; 4240; 6112; 6160; 6470; 6608; 6784;
    6800; 6992; 7088; 7232; 7248; 42528; 43216; 43264; 43472; 43504; 43600;
    44016; 65296; 66720; 68912; 69734; 69872; 69942; 70096; 70384; 70736;
    70864; 71248; 71360; 71472; 71904; 72016; 72784; 73040; 73120; 73552;
    92768; 92864; 93008; 120782; 120792; 120802; 120812; 120822; 123200;
    123632; 124144; 125264; 130032 ].

(** [Py_UNICODE_TODECIMAL]: the value of a decimal digit. *)
Definition todecimal (c : char) : option N :=
  match find (fun r => (r <=? c) && (c <? r + 10)) decimal_runs with
  | Some r => Some (c - r)
  | None => None
  end.

(** What [\d] matches in a [str] pattern. *)
Definition isdecimal (c : char) : bool :=
  match todecimal c with Some _ => true | None => false end.

(** The line boundaries of [str.splitlines]. *)
Definition is_linebreak (c : char) : bool :=
  ((10 <=? c) && (c <=? 13)) || ((28 <=? c) && (c <=? 30))
  || (c =? 133) || (c =? 8232) || (c =? 8233).

Definition ascii_lower (c : char) : char :=
  if (65 <=? c) && (c <=? 90) then c + 32 else c.

(** The characters that the pattern character [p], an ASCII character, matches
    under [re.IGNORECASE] in a [str] pattern: those whose lower case is the
    lower case of [p] (for [k] this takes in U+212A KELVIN SIGN, for [i]
    U+0130), and the two equivalents [re] adds, U+0131 for [i] and U+017F for
    [s]. *)
Definition ieq (p c : char) : bool :=
  let lo := ascii_lower p in
  (ascii_lower c =? lo)
  || ((lo =? 107) && (c =? 8490))
  || ((lo =? 105) && ((c =? 304) || (c =? 305)))
  || ((lo =? 115) && (c =? 383)).

End CharacterClasses.

(** [str.lstrip], [str.rstrip], [str.strip] without argument. *)
Fixpoint lstrip (s : str) : str :=
  match s with
  | c :: s' => if isspace c then lstrip s' else s
  | [] => []
  end.

Definition rstrip (s : str) : str := rev (lstrip (rev s)).

Definition strip (s : str) : str := rstrip (lstrip s).

(** [str.splitlines]: [cur] is the line being read, last character first. A
    carriage return followed by a line feed is one boundary, and a boundary at
    the very end opens no further line. *)
Fixpoint splitlines_from (cur : str) (s : str) : list str :=
  match s with
  | [] => match cur with [] => [] | _ :: _ => [rev cur] end
  | c :: s' =>
      if is_linebreak c then
        rev cur ::
          (if N.eqb c 13 then
             match s' with
             | d :: s'' => if N.eqb d 10 then splitlines_from [] s''
                           else splitlines_from [] s'
             | [] => splitlines_from [] s'
             end
           else splitlines_from [] s')
      else splitlines_from (c :: cur) s'
  end.

Definition splitlines (s : str) : list str := splitlines_from [] s.

(** ** The fragment of [re] the program uses

    A backtracking matcher, as [re] is: alternatives are tried left to right,
    repetitions are greedy, and the first way that lets the rest of the
    pattern match is the result. Every repetition of the program's patterns
    repeats a single character class. *)

Inductive regex : Type :=
| Eps : regex
| Chr : (char -> bool) -> regex
| Rep : (char -> bool) -> nat -> option nat -> regex
| Cat : regex -> regex -> regex
| Alt : regex -> regex -> regex
| Grp : nat -> regex -> regex.

(** Captured groups, the latest capture first. *)
Definition caps : Type := list (nat * str).

Fixpoint group (n : nat) (c : caps) : str :=
  match c with
  | [] => []
  | (i, s) :: c' => if Nat.eqb i n then s else group n c'
  end.

(** A continuation receives the text just matched, the text that remains and
    the captures. *)
Definition cont (A : Type) : Type := str -> str -> caps -> option A.

Definition more (hi : option nat) : bool :=
  match hi with Some 0 => false | _ => true end.

Definition less (hi : option nat) : option nat := option_map pred hi.

(** [p{lo,hi}], greedy: one more character first, stopping here second. *)
Fixpoint rep (A : Type) (p : char -> bool) (lo : nat) (hi : option nat)
  (s : str) (c : caps) (k : cont A) : option A :=
  let stop := match lo with 0 => k [] s c | S _ => None end in
  match s with
  | x :: s' =>
      if p x && more hi then
        match rep p (pred lo) (less hi) s' c (fun m r c' => k (x :: m) r c') with
        | Some a => Some a
        | None => stop
        end
      else stop
  | [] => stop
  end.

Fixpoint exec (A : Type) (r : regex) (s : str) (c : caps) (k : cont A) : option A :=
  match r with
  | Eps => k [] s c
  | Chr p =>
      match s with
      | x :: s' => if p x then k [x] s' c else None
      | [] => None
      end
  | Rep p lo hi => rep p lo hi s c k
  | Cat r1 r2 =>
      exec r1 s c (fun m1 s1 c1 => exec r2 s1 c1 (fun m2 s2 c2 => k (m1 ++ m2) s2 c2))
  | Alt r1 r2 =>
      match exec r1 s c k with
      | Some a => Some a
      | None => exec r2 s c k
      end
  | Grp n r1 => exec r1 s c (fun m s' c' => k m s' ((n, m) :: c'))
  end.

(** [pattern.match(s)]: the captures and the unmatched rest of the first
    match at the start of [s]. *)
Definition re_match (r : regex) (s : str) : option (caps * str) :=
  exec r s [] (fun _ rest c => Some (c, rest)).

(** [pattern.search(s) is not None]. *)
Fixpoint re_search (r : regex) (s : str) : bool :=
  match re_match r s with
  | Some _ => true
  | None => match s with [] => false | _ :: s' => re_search r s' end
  end.

(** Pattern syntax. *)
Definition seq (l : list regex) : regex := fold_right Cat Eps l.
Fixpoint alt (l : list regex) : regex :=
  match l with
  | [] => Eps
  | [r] => r
  | r :: l' => Alt r (alt l')
  end.
Definition lit (c : char) : regex := Chr (N.eqb c).
Definition ilit (c : char) : regex := Chr (ieq c).
Definition istring (s : string) : regex := seq (map ilit (u s)).
Definition star (p : char -> bool) : regex := Rep p 0 None.
Definition plus (p : char -> bool) : regex := Rep p 1 None.
Definition times (p : char -> bool) (lo hi : nat) : regex := Rep p lo (Some hi).
Definition not_char (c x : char) : bool := negb (N.eqb c x).
Definition dot : char -> bool := not_char 10%N.
Definition chr (s : string) : char :=
  match u s with c :: _ => c | [] => 0%N end.

(** ** [parse_chat] ([data_processor.py] and, identically, [app.py]) *)

(** [WA_MESSAGE_START_PATTERN], compiled with [re.MULTILINE | re.IGNORECASE].
    Piece by piece, the pattern of the source is: [^], [\[], group 1
    [\d{2}/\d{2}/\d{2}], a comma, [\s*], group 2 [\d{1,2}:\d{2}:\d{2}], [\s*],
    group 3 [\u202f|], group 4 [AM|PM|am|pm|], [\s*], [\]], [\s*], group 5
    [[^:]+], a colon, [\s*], and group 6, any number of [.]. The method
    [match] starts at the first character, where [^] holds. *)
Definition WA_MESSAGE_START_PATTERN : regex :=
  seq [ lit (chr "[");
        Grp 1 (seq [ times isdecimal 2 2; lit (chr "/"); times isdecimal 2 2;
                     lit (chr "/"); times isdecimal 2 2 ]);
        lit (chr ",");
        star isspace;
        Grp 2 (seq [ times isdecimal 1 2; lit (chr ":"); times isdecimal 2 2;
                     lit (chr ":"); times isdecimal 2 2 ]);
        star isspace;
        Grp 3 (alt [ lit NNBSP; Eps ]);
        Grp 4 (alt [ istring "AM"; istring "PM"; istring "am"; istring "pm"; Eps ]);
        star isspace;
        lit (chr "]");
        star isspace;
        Grp 5 (plus (not_char (chr ":")));
        lit (chr ":");
        star isspace;
        Grp 6 (star dot) ].

(** The dictionary [current_message] of the source. *)
Record RawMessage : Type := mkRaw {
  DateTimeStr : str;
  Sender : str;
  Message : str
}.

(** The dictionary built from a match (lines 38 to 46). *)
Definition new_message (c : caps) : RawMessage :=
  let date_part := group 1 c in
  let time_ampm_part :=
    if nonempty (group 4 c) then group 3 c ++ strip (group 4 c) else [] in
  let time_part := group 2 c ++ time_ampm_part in
  {| DateTimeStr := date_part ++ u " " ++ time_part;
     Sender := strip (group 5 c);
     Message := strip (group 6 c) |}.

(** [current_message['Message'] += '\n' + line.strip()] *)
Definition append_line (m : RawMessage) (line : str) : RawMessage :=
  {| DateTimeStr := DateTimeStr m;
     Sender := Sender m;
     Message := Message m ++ u (String (ascii_of_nat 10) EmptyString) ++ strip line |}.

(** The line classifier: the match object of a line, as the dictionary it
    gives rise to. *)
Definition classify (line : str) : option RawMessage :=
  match re_match WA_MESSAGE_START_PATTERN line with
  | Some (c, _) => Some (new_message c)
  | None => None
  end.

(** The state of the loop: [data] and [current_message], the empty
    dictionary being [None]. *)
Definition parse_state : Type := (list RawMessage * option RawMessage)%type.

Definition flush (st : parse_state) : list RawMessage :=
  match snd st with
  | Some m => fst st ++ [m]
  | None => fst st
  end.

(** One turn of the loop over the lines. *)
Definition parse_chat_step (st : parse_state) (line : str) : parse_state :=
  match classify line with
  | Some m => (flush st, Some m)
  | None =>
      (fst st,
       match snd st with
       | Some cur => Some (append_line cur line)
       | None => None
       end)
  end.

Definition parse_chat (file_content : str) : list RawMessage :=
  flush (fold_left parse_chat_step (splitlines file_content) ([], None)).

(** ** The fragment of pandas the program uses *)

Inductive exn : Type :=
| ValueError : exn
| KeyError : string -> exn.

Inductive result (A : Type) : Type :=
| Ok : A -> result A
| Raised : exn -> result A.

Arguments Ok {A} _.
Arguments Raised {A} _.

Definition bind (A B : Type) (x : result A) (f : A -> result B) : result B :=
  match x with
  | Ok a => f a
  | Raised e => Raised e
  end.

Notation "x <- e ;; k" := (bind e (fun x => k))
  (at level 61, e at next level, right associativity).

(** *** [to_datetime] with a [format]

    pandas turns the format into a regular expression (its [TimeRE]), matches
    the value against it with [re.IGNORECASE], refuses a match that leaves
    text over, and converts the named groups. *)

Definition in_range (a b : string) (c : char) : bool :=
  (N.leb (chr a) c) && (N.leb c (chr b)).

(** The group of a directive is named after its letter. *)
Definition gname (d : string) : nat := N.to_nat (chr d).

(** The table of [TimeRE], for the directives the program's formats use. *)
Definition directive (d : char) : option regex :=
  let D := isdecimal in
  if N.eqb d (chr "d") then
    Some (Grp (gname "d")
      (alt [ seq [lit (chr "3"); Chr (in_range "0" "1")];
             seq [Chr (in_range "1" "2"); Chr D];
             seq [lit (chr "0"); Chr (in_range "1" "9")];
             Chr (in_range "1" "9");
             seq [lit (chr " "); Chr (in_range "1" "9")] ]))
  else if N.eqb d (chr "m") then
    Some (Grp (gname "m")
      (alt [ seq [lit (chr "1"); Chr (in_range "0" "2")];
             seq [lit (chr "0"); Chr (in_range "1" "9")];
             Chr (in_range "1" "9") ]))
  else if N.eqb d (chr "y") then
    Some (Grp (gname "y") (seq [Chr D; Chr D]))
  else if N.eqb d (chr "H") then
    Some (Grp (gname "H")
      (alt [ seq [lit (chr "2"); Chr (in_range "0" "3")];
             seq [Chr (in_range "0" "1"); Chr D];
             Chr D ]))
  else if N.eqb d (chr "I") then
    Some (Grp (gname "I")
      (alt [ seq [lit (chr "1"); Chr (in_range "0" "2")];
             seq [lit (chr "0"); Chr (in_range "1" "9")];
             Chr (in_range "1" "9") ]))
  else if N.eqb d (chr "M") then
    Some (Grp (gname "M")
      (alt [ seq [Chr (in_range "0" "5"); Chr D]; Chr D ]))
  else if N.eqb d (chr "S") then
    Some (Grp (gname "S")
      (alt [ seq [lit (chr "6"); Chr (in_range "0" "1")];
             seq [Chr (in_range "0" "5"); Chr D];
             Chr D ]))
  else if N.eqb d (chr "p") then
    Some (Grp (gname "p") (alt [ istring "am"; istring "pm" ]))
  else None.

(** [TimeRE.pattern]: a run of white space of the format becomes [\s+], a
    percent sign and the letter after it the expression of the directive, any
    other character itself. [pct] says that the previous character was a
    percent sign, [ws] that it was white space. *)
Fixpoint format_regex (pct ws : bool) (fmt : str) : option regex :=
  match fmt with
  | [] => if pct then None else Some Eps
  | c :: fmt' =>
      if pct then
        match directive c, format_regex false false fmt' with
        | Some r, Some r' => Some (Cat r r')
        | _, _ => None
        end
      else if N.eqb c (chr "%") then format_regex true false fmt'
      else if isspace c then
        if ws then format_regex false true fmt'
        else option_map (Cat (plus isspace)) (format_regex false true fmt')
      else option_map (Cat (ilit c)) (format_regex false false fmt')
  end.

(** [int] on a token of a timestamp: white space around it is skipped and
    every other character has to be a decimal digit. *)
Definition py_int (s : str) : option Z :=
  match strip s with
  | [] => None
  | t =>
      fold_left
        (fun acc c =>
           match acc, todecimal c with
           | Some n, Some d => Some (10 * n + Z.of_N d)%Z
           | _, _ => None
           end)
        t (Some 0%Z)
  end.

Section Calendar.
Local Open Scope Z_scope.

Definition is_leap (y : Z) : bool :=
  ((y mod 4 =? 0) && negb (y mod 100 =? 0)) || (y mod 400 =? 0).

Definition days_in_month (y m : Z) : Z :=
  if m =? 2 then (if is_leap y then 29 else 28)
  else if (m =? 4) || (m =? 6) || (m =? 9) || (m =? 11) then 30
  else 31.

(** What [datetime.date(y, m, d)] accepts. *)
Definition valid_date (y m d : Z) : bool :=
  (1 <=? y) && (y <=? 9999) && (1 <=? m) && (m <=? 12)
  && (1 <=? d) && (d <=? days_in_month y m).

(** Days from 1970-01-01 to the day [d] of month [m] of year [y] in the
    proleptic Gregorian calendar, and back. *)
Definition days_from_civil (y m d : Z) : Z :=
  let y' := if m <=? 2 then y - 1 else y in
  let era := y' / 400 in
  let yoe := y' - era * 400 in
  let doy := (153 * (if 2 <? m then m - 3 else m + 9) + 2) / 5 + d - 1 in
  let doe := yoe * 365 + yoe / 4 - yoe / 100 + doy in
  era * 146097 + doe - 719468.

Definition civil_from_days (z : Z) : Z * Z * Z :=
  let z' := z + 719468 in
  let era := z' / 146097 in
  let doe := z' - era * 146097 in
  let yoe := (doe - doe / 1460 + doe / 36524 - doe / 146096) / 365 in
  let doy := doe - (365 * yoe + yoe / 4 - yoe / 100) in
  let mp := (5 * doy + 2) / 153 in
  let d := doy - (153 * mp + 2) / 5 + 1 in
  let m := if mp <? 10 then mp + 3 else mp - 9 in
  ((yoe + era * 400 + (if m <=? 2 then 1 else 0)), m, d).

(** A [Timestamp] without time zone, as pandas stores it: the time elapsed
    since 1970-01-01 00:00:00. The formats of the program have no fraction of
    a second, so the unit here is the second. *)
Definition Timestamp : Type := Z.

(** [npy_datetimestruct_to_datetime]: plain arithmetic on the fields, so a
    second of 60 or 61, which the expression of [%S] lets through, carries
    into the next minute. *)
Definition to_epoch (y m d hh mi ss : Z) : Timestamp :=
  days_from_civil y m d * 86400 + hh * 3600 + mi * 60 + ss.

Definition dt_date (t : Timestamp) : Z * Z * Z := civil_from_days (t / 86400).
Definition dt_year (t : Timestamp) : Z := fst (fst (dt_date t)).
Definition dt_month (t : Timestamp) : Z := snd (fst (dt_date t)).
Definition dt_day (t : Timestamp) : Z := snd (dt_date t).
Definition dt_hour (t : Timestamp) : Z := (t mod 86400) / 3600.
Definition dt_minute (t : Timestamp) : Z := (t mod 3600) / 60.
(** Monday is 0; 1970-01-01 was a Thursday. *)
Definition dt_weekday (t : Timestamp) : Z := (t / 86400 + 3) mod 7.

End Calendar.

Definition month_order : list string :=
  [ "January"; "February"; "March"; "April"; "May"; "June";
    "July"; "August"; "September"; "October"; "November"; "December" ]%string.

Definition day_order : list string :=
  [ "Monday"; "Tuesday"; "Wednesday"; "Thursday"; "Friday"; "Saturday";
    "Sunday" ]%string.

Definition month_name (t : Timestamp) : string :=
  nth (Z.to_nat (dt_month t - 1)) month_order EmptyString.

Definition day_name (t : Timestamp) : string :=
  nth (Z.to_nat (dt_weekday t)) day_order EmptyString.

(** The conversion of the groups found ([_parse_with_format]). A directive
    that the format lacks keeps its default: year 1900, month and day 1, the
    clock at 0. *)
Definition field (d : string) (default : Z) (c : caps) : option Z :=
  if existsb (fun e => Nat.eqb (fst e) (gname d)) c
  then py_int (group (gname d) c)
  else Some default.

Definition has_group (d : string) (c : caps) : bool :=
  existsb (fun e => Nat.eqb (fst e) (gname d)) c.

(** The hour of the day from the hour [ii] of a 12-hour clock and the
    meridiem found, in lower case; no meridiem counts as AM. *)
Definition hour_12 (ampm : str) (ii : Z) : Z :=
  if str_eqb ampm [] || str_eqb ampm (u "am")
  then (if ii =? 12 then 0 else ii)%Z
  else if str_eqb ampm (u "pm")
  then (if ii =? 12 then ii else ii + 12)%Z
  else ii.

Definition convert (c : caps) : option Timestamp :=
  match field "y" (-1) c, field "m" 1 c, field "d" 1 c,
        field "H" 0 c, field "I" 0 c, field "M" 0 c, field "S" 0 c with
  | Some y, Some m, Some d, Some hh, Some ii, Some mi, Some ss =>
      let year :=
        if has_group "y" c
        then (if y <=? 68 then y + 2000 else y + 1900)%Z
        else 1900%Z in
      let hour :=
        if has_group "I" c
        then hour_12 (map ascii_lower (group (gname "p") c)) ii
        else hh in
      if valid_date year m d
      then Some (to_epoch year m d hour mi ss)
      else None
  | _, _, _, _, _, _, _ => None
  end.

(** One value under one format; [None] is the [ValueError] of the value. *)
Definition strptime (fmt : string) (val : str) : option Timestamp :=
  match format_regex false false (u fmt) with
  | None => None
  | Some r =>
      match re_match r val with
      | Some (c, []) => convert c
      | _ => None
      end
  end.

Inductive errors_policy : Type := errors_raise | errors_coerce.

(** [pd.to_datetime(column, format=fmt, errors=...)]: with ['coerce'] a value
    that does not parse becomes [NaT] ([None]) and nothing is raised; with
    ['raise'] the first such value raises [ValueError]. *)
Definition to_datetime (column : list str) (fmt : string) (errors : errors_policy)
  : result (list (option Timestamp)) :=
  let parsed := map (strptime fmt) column in
  match errors with
  | errors_coerce => Ok parsed
  | errors_raise =>
      if forallb (fun v => match v with Some _ => true | None => false end) parsed
      then Ok parsed
      else Raised ValueError
  end.

(** *** Data frames

    A frame of processed messages: its rows, and the labels of the columns it
    exposes. Selecting a column that the frame does not expose raises
    [KeyError]. *)

Record Row : Type := mkRow {
  day : Z;
  month : string;
  year : Z;
  hour : Z;
  minute : Z;
  day_of_week : string;
  sender : str;
  message : str;
  DateTime : Timestamp
}.

Record DataFrame : Type := mkDataFrame {
  columns : list string;
  rows : list Row
}.

Definition has_column (name : string) (d : DataFrame) : bool :=
  existsb (String.eqb name) (columns d).

(** [d[name]] *)
Definition getcol (V : Type) (name : string) (proj : Row -> V) (d : DataFrame)
  : result (list V) :=
  if has_column name d then Ok (map proj (rows d)) else Raised (KeyError name).

(** [d[names]] *)
Definition select (names : list string) (d : DataFrame) : result DataFrame :=
  match find (fun n => negb (has_column n d)) names with
  | Some n => Raised (KeyError n)
  | None => Ok {| columns := names; rows := rows d |}
  end.

(** [Series.unique]: the values in the order of their first occurrence. *)
Fixpoint unique_from (seen l : list Z) : list Z :=
  match l with
  | [] => []
  | x :: l' =>
      if existsb (Z.eqb x) seen then unique_from seen l'
      else x :: unique_from (x :: seen) l'
  end.

Section Sorting.
Variable A : Type.
Variable leb : A -> A -> bool.

Fixpoint insert_sorted (x : A) (l : list A) : list A :=
  match l with
  | [] => [x]
  | y :: l' => if leb x y then x :: l else y :: insert_sorted x l'
  end.

(** A stable sort. *)
Definition sort_by (l : list A) : list A := fold_right insert_sorted [] l.
End Sorting.

(** [Series.value_counts] on a column of integers: every value that occurs
    with the number of its occurrences, the most frequent first. The index is
    the value. *)
Definition value_counts (l : list Z) : list (Z * nat) :=
  sort_by (fun a b => Nat.leb (snd b) (snd a))
    (map (fun x => (x, count_occ Z.eq_dec l x)) (unique_from [] l)).

(** [Series.sort_index] *)
Definition sort_index (s : list (Z * nat)) : list (Z * nat) :=
  sort_by (fun a b => Z.leb (fst a) (fst b)) s.

(** [astype('category').cat.set_categories(order, ordered=True)
     .value_counts().sort_index().fillna(0)]: a categorical column counts
    every category, absent ones with 0, and its index sorts in the order of
    the categories. *)
Definition category_counts (order : list string) (l : list string)
  : list (string * nat) :=
  map (fun c => (c, count_occ string_dec l c)) order.

(** ** [process_dataframe]

    The two copies differ in the list [system_messages] and in the columns
    they return; everything else is the same text. *)

(** [str.replace(r'^\u200e|\u200f', '', regex=True)]: a left-to-right mark at
    the very start goes, and so does every right-to-left mark. *)
Definition remove_marks (s : str) : str :=
  filter (fun c => negb (N.eqb c RLM))
    (match s with
     | c :: s' => if N.eqb c LRM then s' else s
     | [] => []
     end).

Definition clean_message (m : RawMessage) : RawMessage :=
  {| DateTimeStr := DateTimeStr m;
     Sender := Sender m;
     Message := strip (remove_marks (Message m)) |}.

(** A phrase of [system_messages] inside the joined pattern: the full stop
    matches any character but a line feed, every other character of the
    phrases is a literal. *)
Definition phrase_regex (phrase : string) : regex :=
  seq (map (fun c => if N.eqb c (chr ".") then Chr dot else ilit c) (u phrase)).

(** [Series.str.contains('|'.join(phrases), case=False, na=False)] on one
    value. *)
Definition str_contains (phrases : list string) (s : str) : bool :=
  re_search (alt (map phrase_regex phrases)) s.

(** [dropna(subset=['DateTime'])] *)
Fixpoint dropna (rs : list (RawMessage * option Timestamp))
  : list (RawMessage * Timestamp) :=
  match rs with
  | [] => []
  | (m, Some t) :: rs' => (m, t) :: dropna rs'
  | (_, None) :: rs' => dropna rs'
  end.

(** The temporal columns and the renaming of [Sender] and [Message]. *)
Definition features (mt : RawMessage * Timestamp) : Row :=
  let (m, t) := mt in
  {| day := dt_day t;
     month := month_name t;
     year := dt_year t;
     hour := dt_hour t;
     minute := dt_minute t;
     day_of_week := day_name t;
     sender := Sender m;
     message := Message m;
     DateTime := t |}.

Definition working_columns : list string :=
  [ "DateTimeStr"; "sender"; "message"; "DateTime"; "day"; "month"; "year";
    "hour"; "minute"; "day_of_week" ]%string.

(** The first [to_datetime] and the handler of its [ValueError]. *)
Definition convert_column (column : list str) : result (list (option Timestamp)) :=
  match to_datetime column "%d/%m/%y %I:%M:%S%p" errors_coerce with
  | Raised ValueError => to_datetime column "%d/%m/%y %H:%M:%S" errors_coerce
  | r => r
  end.

Definition process_dataframe_with (system_messages returned : list string)
  (data : list RawMessage) : result DataFrame :=
  match data with
  | [] => Ok {| columns := []; rows := [] |}
  | _ :: _ =>
      let df1 := filter (fun m => nonempty (Message m)) (map clean_message data) in
      col <- convert_column (map DateTimeStr df1) ;;
      let df2 := map features (dropna (combine df1 col)) in
      let df3 :=
        filter (fun r => negb (str_contains system_messages (message r))) df2 in
      select returned {| columns := working_columns; rows := df3 |}
  end.

Module data_processor.

Definition system_messages : list string :=
  [ "Messages and calls are end-to-end encrypted."; "image omitted";
    "document omitted"; "sticker omitted"; "This message was deleted.";
    "GIF omitted"; "audio omitted"; "video omitted";
    "You joined using this group's invite link" ]%string.

Definition returned_columns : list string :=
  [ "day"; "month"; "year"; "hour"; "minute"; "sender"; "message";
    "DateTime" ]%string.

Definition process_dataframe : list RawMessage -> result DataFrame :=
  process_dataframe_with system_messages returned_columns.

(** [parse_chat] followed by [process_dataframe]. *)
Definition parseTranscript (text : str) : result DataFrame :=
  process_dataframe (parse_chat text).

End data_processor.

Module app.

Definition system_messages : list string :=
  [ "Messages and calls are end-to-end encrypted."; "image omitted";
    "document omitted"; "sticker omitted"; "This message was deleted.";
    "GIF omitted"; "audio omitted"; "video omitted";
    "You joined using this group's invite link";
    "changed the group name"; "changed this group's icon";
    "changed the group settings"; "created this group";
    "left"; "added"; "removed"; "joined" ]%string.

Definition returned_columns : list string :=
  [ "day"; "month"; "year"; "hour"; "minute"; "day_of_week"; "sender";
    "message"; "DateTime" ]%string.

Definition process_dataframe : list RawMessage -> result DataFrame :=
  process_dataframe_with system_messages returned_columns.

Definition parseTranscript (text : str) : result DataFrame :=
  process_dataframe (parse_chat text).

End app.

(** ** [WhatsAppAnalyzer] ([analysis_engine.py] and, identically, [app.py]) *)

Record WhatsAppAnalyzer : Type := mkAnalyzer {
  df_base : DataFrame;
  user : str;
  df : DataFrame;
  text : str
}.

(** [" ".join(values)] *)
Fixpoint join_space (l : list str) : str :=
  match l with
  | [] => []
  | [s] => s
  | s :: l' => s ++ u " " ++ join_space l'
  end.

(** [__init__] *)
Definition analyzer_init (d : DataFrame) (who : str) : result WhatsAppAnalyzer :=
  scoped <-
    (if str_eqb who (u "Overall") then Ok d
     else
       senders <- getcol "sender" sender d ;;
       Ok {| columns := columns d;
             rows := filter (fun r => str_eqb (sender r) who) (rows d) |}) ;;
  messages <- getcol "message" message scoped ;;
  Ok {| df_base := d; user := who; df := scoped; text := join_space messages |}.

(** The three tables of [get_timeline_data], each row a count and its
    label. *)
Record Timeline : Type := mkTimeline {
  Hourly : list (nat * Z);
  DayOfWeek : list (nat * string);
  Monthly : list (nat * string)
}.

Definition swap (X Y : Type) (p : X * Y) : Y * X := (snd p, fst p).

Definition get_timeline_data (a : WhatsAppAnalyzer) : result Timeline :=
  hours <- getcol "hour" hour (df a) ;;
  let df_hourly := sort_index (value_counts hours) in
  days <- getcol "day_of_week" day_of_week (df a) ;;
  let df_day_of_week := category_counts day_order days in
  months <- getcol "month" month (df a) ;;
  let df_monthly := category_counts month_order months in
  Ok {| Hourly := map (@swap _ _) df_hourly;
        DayOfWeek := map (@swap _ _) df_day_of_week;
        Monthly := map (@swap _ _) df_monthly |}.

(** The timeline of a transcript under a scope, with either processor. *)
Definition timeline_of (processed : result DataFrame) (who : str) : result Timeline :=
  d <- processed ;;
  a <- analyzer_init d who ;;
  get_timeline_data a.

(** ** Notions the statements below are written in *)

(** The line classifier says "header". *)
Definition is_header (line : str) : bool :=
  match classify line with Some _ => true | None => false end.

(** The loop of [parse_chat] over lines already split. *)
Definition assemble (lines : list str) : list RawMessage :=
  flush (fold_left parse_chat_step lines ([], None)).

(** [r] can match exactly [m], turning the captures [c] into [c']: the
    language of the pattern, without the order in which the matcher tries. *)
Fixpoint matches (r : regex) (m : str) (c c' : caps) : Prop :=
  match r with
  | Eps => m = [] /\ c' = c
  | Chr p => (exists x, m = [x] /\ p x = true) /\ c' = c
  | Rep p lo hi =>
      (Forall (fun x => p x = true) m /\ lo <= List.length m
       /\ match hi with Some h => List.length m <= h | None => True end)
      /\ c' = c
  | Cat r1 r2 =>
      exists m1 m2 c1, m = m1 ++ m2 /\ matches r1 m1 c c1 /\ matches r2 m2 c1 c'
  | Alt r1 r2 => matches r1 m c c' \/ matches r2 m c c'
  | Grp n r1 => exists c1, matches r1 m c c1 /\ c' = (n, m) :: c1
  end.

(** [r] matches [m] in front of [rest] and the matcher tries this way before
    any other: whatever comes next in the pattern, if it accepts [rest], the
    match is this one. *)
Definition first_match (r : regex) (m rest : str) (c c' : caps) : Prop :=
  forall (A : Type) (k : cont A) (a : A),
    k m rest c' = Some a -> exec r (m ++ rest) c k = Some a.

(** [phrase] occurs in [body], letters compared without regard to case. *)
Definition contains_ci (phrase : string) (body : str) : Prop :=
  exists pre mid post,
    body = pre ++ mid ++ post /\ map ascii_lower mid = map ascii_lower (u phrase).

(** A number below 100 as two ASCII digits, and a number below 10 as one. *)
Definition digit (n : nat) : char := (48 + N.of_nat n)%N.
Definition one (n : nat) : str := [digit n].
Definition two (n : nat) : str := [digit (n / 10); digit (n mod 10)].

(** The century pandas gives a two-digit year. *)
Definition century (yy : Z) : Z :=
  if (yy <=? 68)%Z then (yy + 2000)%Z else (yy + 1900)%Z.

(** A candidate record that [process_dataframe] does not let through: empty
    once cleaned, or without a timestamp, or a system notice. *)
Definition dropped (system_messages : list string) (m : RawMessage) : bool :=
  let m' := clean_message m in
  negb (nonempty (Message m'))
  || match strptime "%d/%m/%y %I:%M:%S%p" (DateTimeStr m') with
     | Some _ => false
     | None => true
     end
  || str_contains system_messages (Message m').

Definition LF : str := [10%N].

(** ** Inputs the statements below are evaluated at *)

Definition open_message : RawMessage :=
  mkRaw (u "01/01/23 9:05:00PM") (u "Alice") (u "Hello there").

Definition indented_line : str := u "   How are you?".

(** The scenario of the specification: a header line and a continuation. *)
Definition scenario : str :=
  u "[01/01/23, 9:05:00 PM] Alice: Hello there" ++ LF ++ u "How are you?".

Definition scenario_24h : str := u "[01/01/23, 10:00:00] Alice: Hello there".

Definition scenario_left : str :=
  u "[01/01/23, 9:05:00 PM] Alice: I have leftovers for dinner".

Definition scenario_1999 : str := u "[01/01/99, 9:05:00 PM] Alice: Hello there".

Definition scenario_blank_sender : str := u "[01/01/23, 9:05:00 PM]   : Hello there".

Definition scenario_february_31 : str :=
  u "[31/02/23, 11:32:05" ++ [NNBSP] ++ u "PM] Alice: Hello there".

Definition scenario_nnbsp : str :=
  u "[01/01/23, 11:32:05" ++ [NNBSP] ++ u "PM] Alice: Hello there".


(** What [process_dataframe] makes of one candidate record, if it lets it
    through. *)
Definition row_of (system_messages : list string) (m : RawMessage) : list Row :=
  let m' := clean_message m in
  if nonempty (Message m') then
    match strptime "%d/%m/%y %I:%M:%S%p" (DateTimeStr m') with
    | Some t =>
        if str_contains system_messages (Message m') then []
        else [features (m', t)]
    | None => []
    end
  else [].

Definition known_columns (names : list string) : bool :=
  forallb (fun n => existsb (String.eqb n) working_columns) names.

Definition no_header (lines : list str) : bool :=
  forallb (fun line => negb (is_header line)) lines.


(** The analyzer of the scenario under the scope [Overall], on the frame of
    [app.py], and its timeline. *)
Definition scenario_analyzer : WhatsAppAnalyzer :=
  match d <- app.parseTranscript scenario ;; analyzer_init d (u "Overall") with
  | Ok a => a
  | Raised _ => mkAnalyzer (mkDataFrame [] []) [] (mkDataFrame [] []) []
  end.

Definition scenario_timeline : Timeline :=
  {| Hourly := [(1, 21%Z)];
     DayOfWeek := [ (0, "Monday"); (0, "Tuesday"); (0, "Wednesday");
                    (0, "Thursday"); (0, "Friday"); (0, "Saturday");
                    (1, "Sunday") ]%string;
     Monthly := [ (1, "January"); (0, "February"); (0, "March");
                  (0, "April"); (0, "May"); (0, "June"); (0, "July");
                  (0, "August"); (0, "September"); (0, "October");
                  (0, "November"); (0, "December") ]%string |}.


(** The frame [app.py] makes of the scenario. *)
Definition scenario_frame : DataFrame :=
  Eval vm_compute in
    match app.parseTranscript scenario with
    | Ok d => d
    | Raised _ => mkDataFrame [] []
    end.

Definition scenario_row : Row :=
  Eval vm_compute in
    hd (mkRow 0 EmptyString 0 0 0 EmptyString [] [] 0%Z) (rows scenario_frame).


(** The expression of a directive, and the expression pandas compiles the
    12-hour format of the program to. *)
Definition directive_of (d : string) : regex :=
  match directive (chr d) with Some r => r | None => Eps end.

Definition format_12h : regex :=
  seq [ directive_of "d"; ilit (chr "/"); directive_of "m"; ilit (chr "/");
        directive_of "y"; plus isspace; directive_of "I"; ilit (chr ":");
        directive_of "M"; ilit (chr ":"); directive_of "S"; directive_of "p" ].


(** A pattern without groups. *)
Fixpoint plain (r : regex) : bool :=
  match r with
  | Eps | Chr _ | Rep _ _ _ => true
  | Cat r1 r2 | Alt r1 r2 => plain r1 && plain r2
  | Grp _ _ => false
  end.


(** The longest prefix of characters of a class, and what follows it. *)
Fixpoint take_while (p : char -> bool) (s : str) : str :=
  match s with
  | x :: s' => if p x then x :: take_while p s' else []
  | [] => []
  end.

Fixpoint drop_while (p : char -> bool) (s : str) : str :=
  match s with
  | x :: s' => if p x then drop_while p s' else s
  | [] => []
  end.

(** The shape of a header line: the tokens of the date and of the time, the
    ways the meridiem is written, and the line itself, with the white space
    [w1], [w2], [w3] that the pattern allows around the time and the
    meridiem, the text [field] between the bracket and the first colon, and the
    [body] after that colon. *)
Definition date_token (a b c d e f : char) : str :=
  [a; b; chr "/"; c; d; chr "/"; e; f].

Definition time_token (hh : str) (m1 m2 s1 s2 : char) : str :=
  hh ++ [chr ":"; m1; m2; chr ":"; s1; s2].

Definition meridiems : list str :=
  [ u "AM"; u "Am"; u "aM"; u "am"; u "PM"; u "Pm"; u "pM"; u "pm" ].

Definition header_line (date w1 time w2 mer w3 field body : str) : str :=
  u "[" ++ date ++ u "," ++ w1 ++ time ++ w2 ++ mer ++ w3 ++ u "]"
  ++ field ++ u ":" ++ body.

Definition spaces (w : str) : Prop := Forall (fun x => isspace x = true) w.

Definition no_colon (s : str) : Prop :=
  Forall (fun x => not_char (chr ":") x = true) s.


(** The end of the header pattern, from the white space after the closing
    bracket on. *)
Definition sender_and_body : regex :=
  seq [ star isspace; Grp 5 (plus (not_char (chr ":"))); lit (chr ":");
        star isspace; Grp 6 (star dot) ].

(** The first line of a text that has no white space in front. *)
Definition first_line (body : str) : str := take_while dot (lstrip body).


Definition decimals (s : str) : Prop := Forall (fun x => isdecimal x = true) s.

(** The header pattern up to the closing bracket, piece by piece. *)
Definition stamp_items : list regex :=
  [ lit (chr "[");
    Grp 1 (seq [ times isdecimal 2 2; lit (chr "/"); times isdecimal 2 2;
                 lit (chr "/"); times isdecimal 2 2 ]);
    lit (chr ",");
    star isspace;
    Grp 2 (seq [ times isdecimal 1 2; lit (chr ":"); times isdecimal 2 2;
                 lit (chr ":"); times isdecimal 2 2 ]);
    star isspace;
    Grp 3 (alt [ lit NNBSP; Eps ]);
    Grp 4 (alt [ istring "AM"; istring "PM"; istring "am"; istring "pm"; Eps ]);
    star isspace;
    lit (chr "]") ].

Definition nonspace (s : str) : Prop := Forall (fun x => isspace x = false) s.

(** The message [m] was opened by the header line [line] of [lines] and has
    the fields of that header, the body possibly continued. *)
Definition opened_by (lines : list str) (m : RawMessage) : Prop :=
  exists line h more,
    In line lines /\ classify line = Some h
    /\ m = {| DateTimeStr := DateTimeStr h;
              Sender := Sender h;
              Message := Message h ++ more |}.

(** ** [load_and_process_data] and [display_analysis_results] ([app.py]) *)

(** [DataFrame.empty]: an axis of length 0. *)
Definition empty (d : DataFrame) : bool :=
  match rows d, columns d with
  | _ :: _, _ :: _ => false
  | _, _ => true
  end.

(** [load_and_process_data]; the text is the upload, decoded. *)
Definition load_and_process_data (uploaded_file : option str)
  : result (option DataFrame) :=
  match uploaded_file with
  | None => Ok None
  | Some file_content =>
      df_processed <- app.process_dataframe (parse_chat file_content) ;;
      Ok (if empty df_processed then None else Some df_processed)
  end.

(** [df_monthly[df_monthly['Message Count'] > 0]], the months that
    [display_analysis_results] charts. *)
Definition displayed_months (t : Timeline) : list (nat * string) :=
  filter (fun p => Nat.ltb 0 (fst p)) (Monthly t).

(** ** [get_base_metrics] ([analysis_engine.py] and, identically, [app.py]) *)

(** [str.split()]: the maximal runs of characters that are not white space;
    [cur] is the run being read, last character first. *)
Fixpoint split_from (cur : str) (s : str) : list str :=
  match s with
  | [] => match cur with [] => [] | _ :: _ => [rev cur] end
  | c :: s' =>
      if isspace c then
        match cur with
        | [] => split_from [] s'
        | _ :: _ => rev cur :: split_from [] s'
        end
      else split_from (c :: cur) s'
  end.

Definition str_split (s : str) : list str := split_from [] s.

(** [\S] *)
Definition not_space (x : char) : bool := negb (isspace x).

(** [URL_PATTERN], [https?://\S+|www\.\S+], compiled without flag. *)
Definition URL_PATTERN : regex :=
  Alt (seq [ lit (chr "h"); lit (chr "t"); lit (chr "t"); lit (chr "p");
             times (N.eqb (chr "s")) 0 1; lit (chr ":"); lit (chr "/");
             lit (chr "/"); plus not_space ])
      (seq [ lit (chr "w"); lit (chr "w"); lit (chr "w"); lit (chr ".");
             plus not_space ]).

(** [len(pattern.findall(s))] for a pattern that matches no empty text: the
    matches are looked for from left to right and none overlaps another;
    [skip] is what remains to pass of the match found last. *)
Fixpoint count_findall (r : regex) (skip : nat) (s : str) : nat :=
  match s with
  | [] => 0
  | _ :: s' =>
      match skip with
      | S n => count_findall r n s'
      | 0 =>
          match re_match r s with
          | Some (_, rest) =>
              S (count_findall r (List.length s' - List.length rest) s')
          | None => count_findall r 0 s'
          end
      end
  end.

(** The dictionary that [get_base_metrics] returns. *)
Record Metrics : Type := mkMetrics {
  Total_Messages : nat;
  Total_Words : nat;
  Links_Shared : nat
}.

Definition get_base_metrics (a : WhatsAppAnalyzer) : result Metrics :=
  let total_messages := List.length (rows (df a)) in
  messages <- getcol "message" message (df a) ;;
  let total_words := list_sum (map (fun x => List.length (str_split x)) messages) in
  let links := map (count_findall URL_PATTERN 0) messages in
  Ok {| Total_Messages := total_messages;
        Total_Words := total_words;
        Links_Shared := list_sum links |}.

(** ** The scopes of [main] ([app.py]) *)

(** [a <= b] on [str] values: by code point, a proper prefix first. *)
Fixpoint str_leb (a b : str) : bool :=
  match a, b with
  | [], _ => true
  | _ :: _, [] => false
  | x :: a', y :: b' =>
      if N.ltb x y then true
      else if N.eqb x y then str_leb a' b' else false
  end.

Section Unique.
Variable K : Type.
Variable eqb : K -> K -> bool.

(** The values in the order of their first occurrence: [Series.unique], and
    the keys of a [Counter]. *)
Fixpoint unique_by (seen l : list K) : list K :=
  match l with
  | [] => []
  | x :: l' =>
      if existsb (eqb x) seen then unique_by seen l'
      else x :: unique_by (x :: seen) l'
  end.
End Unique.

(** [['Overall'] + sorted(df['sender'].unique().tolist())] *)
Definition sender_list (d : DataFrame) : result (list str) :=
  senders <- getcol "sender" sender d ;;
  Ok (u "Overall" :: sort_by str_leb (unique_by str_eqb [] senders)).

(** The metrics that [display_analysis_results] shows for a scope. *)
Definition scope_metrics (d : DataFrame) (selected_user : str) : result Metrics :=
  analyzer <- analyzer_init d selected_user ;;
  get_base_metrics analyzer.

(** ** [get_top_emojis] ([analysis_engine.py] and, identically, [app.py]) *)

(** [Counter(l).most_common(n)]: the [n] most frequent values with their
    counts, the most frequent first, values of equal count in the order of
    their first occurrence. *)
Definition most_common (n : nat) (l : list char) : list (char * nat) :=
  firstn n
    (sort_by (fun a b => Nat.leb (snd b) (snd a))
       (map (fun x => (x, count_occ N.eq_dec l x)) (unique_by N.eqb [] l))).

Section Emojis.
(** [c in emoji.EMOJI_DATA], the table of the package [emoji]. *)
Variable EMOJI_DATA : char -> bool.

Definition get_top_emojis (a : WhatsAppAnalyzer) (top_n : nat)
  : list (char * nat) :=
  let emojis_list := filter EMOJI_DATA (text a) in
  most_common top_n emojis_list.
End Emojis.

(** The metrics of a list of records. *)
Definition metrics_of (rs : list Row) : Metrics :=
  {| Total_Messages := List.length rs;
     Total_Words :=
       list_sum (map (fun r => List.length (str_split (message r))) rs);
     Links_Shared :=
       list_sum (map (fun r => count_findall URL_PATTERN 0 (message r)) rs) |}.

(** The records of a sender. *)
Definition records_of (who : str) (rs : list Row) : list Row :=
  filter (fun r => str_eqb (sender r) who) rs.

(** A transcript of two senders, with two links. *)
Definition scenario_two_senders : str :=
  u "[01/01/23, 9:05:00 PM] Bob: see https://example.org/a now" ++ LF
  ++ u "[02/02/23, 10:15:00 AM] Alice: Hello there" ++ LF
  ++ u "[02/02/23, 10:16:00 AM] Bob: www.example.org".

Definition frame_two_senders : DataFrame :=
  Eval vm_compute in
    match load_and_process_data (Some scenario_two_senders) with
    | Ok (Some d) => d
    | _ => mkDataFrame [] []
    end.

Definition analyzer_two_senders : WhatsAppAnalyzer :=
  Eval vm_compute in
    match analyzer_init frame_two_senders (u "Overall") with
    | Ok a => a
    | Raised _ => mkAnalyzer (mkDataFrame [] []) [] (mkDataFrame [] []) []
    end.

Definition timeline_two_senders : Timeline :=
  Eval vm_compute in
    match get_timeline_data analyzer_two_senders with
    | Ok t => t
    | Raised _ => mkTimeline [] [] []
    end.

(* ================================================================== *)
(** * Properties *)

(** ** The message assembler *)

Lemma flush_length (st : parse_state) :
  List.length (flush st) = List.length (fst st) + match snd st with Some _ => 1 | None => 0 end.
Proof.
  destruct st as [data [m|]]; unfold flush; simpl.
  - rewrite length_app. reflexivity.
  - lia.
Qed.

Lemma parse_chat_step_flush (st : parse_state) (line : str) :
  List.length (flush (parse_chat_step st line))
  = List.length (flush st) + (if is_header line then 1 else 0).
Proof.
  unfold parse_chat_step, is_header.
  destruct (classify line) as [m|].
  - rewrite (flush_length (flush st, Some m)). reflexivity.
  - rewrite !flush_length. destruct st as [data [cur|]]; simpl; lia.
Qed.

Lemma loop_length (lines : list str) :
  forall st,
    List.length (flush (fold_left parse_chat_step lines st))
    = List.length (flush st) + List.length (filter is_header lines).
Proof.
  induction lines as [|line lines IH]; intros st; simpl.
  - lia.
  - rewrite IH, parse_chat_step_flush.
    destruct (is_header line); simpl; lia.
Qed.

(** C4. The assembler emits exactly as many raw messages as there are lines
    that the classifier takes for headers, whatever the lines are; the message
    still open when the lines run out is emitted with the others. *)
Theorem assembler_emits_one_message_per_header :
  forall text : str,
    List.length (parse_chat text) = List.length (filter is_header (splitlines text))
    /\ parse_chat text
       = fst (fold_left parse_chat_step (splitlines text) ([], None))
         ++ match snd (fold_left parse_chat_step (splitlines text) ([], None)) with
            | Some open => [open]
            | None => []
            end.
Proof.
  intros text. split.
  - unfold parse_chat. rewrite loop_length. reflexivity.
  - unfold parse_chat, flush.
    destruct (snd (fold_left parse_chat_step (splitlines text) ([], None))).
    + reflexivity.
    + rewrite app_nil_r. reflexivity.
Qed.

(** C7, as stated, fails: a continuation line loses its leading white space
    too, since the source strips the line on both sides. *)
Lemma continuation_right_trim_refuted :
  classify indented_line = None
  /\ parse_chat_step ([], Some open_message) indented_line
     <> ([], Some (mkRaw (DateTimeStr open_message) (Sender open_message)
                     (Message open_message ++ LF ++ rstrip indented_line))).
Proof.
  split.
  - vm_compute. reflexivity.
  - vm_compute. intros H. discriminate H.
Qed.

(** C7, amended. A line that is no header, arriving while a message is open,
    adds a line feed and the line stripped of white space on both sides to the
    body of the open message, and nothing else changes; arriving before the
    first header, it is discarded. *)
Theorem continuation_line_is_stripped :
  forall (data : list RawMessage) (cur : RawMessage) (line : str),
    classify line = None ->
    parse_chat_step (data, Some cur) line
    = (data, Some (mkRaw (DateTimeStr cur) (Sender cur)
                     (Message cur ++ LF ++ rstrip (lstrip line))))
    /\ parse_chat_step (data, None) line = (data, None).
Proof.
  intros data cur line H. unfold parse_chat_step. rewrite H. simpl.
  split; reflexivity.
Qed.

Lemma continuation_line_is_stripped_witness :
  parse_chat_step ([], Some open_message) indented_line
  = ([], Some (mkRaw (u "01/01/23 9:05:00PM") (u "Alice")
                 (u "Hello there" ++ LF ++ u "How are you?")))
  /\ parse_chat_step ([], None) indented_line = ([], None).
Proof.
  apply (@continuation_line_is_stripped [] open_message indented_line).
  vm_compute. reflexivity.
Defined.

(** ** The pipeline as a whole *)

(** The handler of [ValueError] never runs: with [errors='coerce'] the first
    conversion returns a column whatever the values are. *)
Lemma convert_column_is_first_attempt (column : list str) :
  convert_column column = Ok (map (strptime "%d/%m/%y %I:%M:%S%p") column).
Proof. reflexivity. Qed.

Lemma dropna_combine (A : Type) (f : RawMessage -> option Timestamp)
  (l : list RawMessage) :
  dropna (combine l (map f l))
  = flat_map (fun m => match f m with Some t => [(m, t)] | None => [] end) l.
Proof.
  induction l as [|m l IH]; simpl.
  - reflexivity.
  - destruct (f m); simpl; rewrite IH; reflexivity.
Qed.

Lemma find_all_false (A : Type) (f : A -> bool) (l : list A) :
  (forall x, In x l -> f x = false) -> find f l = None.
Proof.
  induction l as [|x l IH]; simpl; intros H.
  - reflexivity.
  - rewrite (H x) by (left; reflexivity). apply IH.
    intros y Hy. apply H. right. exact Hy.
Qed.

Lemma select_known (names : list string) (rs : list Row) :
  known_columns names = true ->
  select names {| columns := working_columns; rows := rs |}
  = Ok {| columns := names; rows := rs |}.
Proof.
  intros H. unfold select.
  replace (find _ names) with (@None string); [reflexivity|].
  symmetry. apply find_all_false. intros n Hn.
  unfold known_columns in H. rewrite forallb_forall in H.
  unfold has_column. cbn [columns]. rewrite (H n Hn). reflexivity.
Qed.

(** The rows of the result, record by record. *)
Lemma process_dataframe_rows (sys names : list string) (data : list RawMessage) :
  known_columns names = true ->
  data <> [] ->
  process_dataframe_with sys names data
  = Ok {| columns := names; rows := flat_map (row_of sys) data |}.
Proof.
  intros Hn Hd. unfold process_dataframe_with.
  destruct data as [|m0 data0]; [congruence|].
  set (data := m0 :: data0). clearbody data.
  rewrite convert_column_is_first_attempt. unfold bind.
  rewrite select_known by assumption. do 2 f_equal.
  rewrite map_map.
  rewrite (dropna_combine unit
             (fun m => strptime "%d/%m/%y %I:%M:%S%p" (DateTimeStr m))).
  induction data as [|m data IH]; [reflexivity|].
  cbn [map flat_map]. unfold row_of at 1.
  remember (clean_message m) as m' eqn:Em. cbn [filter].
  destruct (nonempty (Message m')); [|exact IH].
  cbn [flat_map].
  destruct (strptime "%d/%m/%y %I:%M:%S%p" (DateTimeStr m')) as [t|];
    [|exact IH].
  cbn [app map filter].
  replace (message (features (m', t))) with (Message m') by reflexivity.
  destruct (str_contains sys (Message m')); cbn [negb app];
    rewrite IH; reflexivity.
Qed.

(** [process_dataframe] raises on no input. *)
Lemma process_dataframe_total (sys names : list string) (data : list RawMessage) :
  known_columns names = true ->
  exists d, process_dataframe_with sys names data = Ok d
            /\ rows d = flat_map (row_of sys) data.
Proof.
  intros Hn. destruct data as [|m data].
  - eexists. split; reflexivity.
  - eexists. split.
    + apply process_dataframe_rows; [assumption|discriminate].
    + reflexivity.
Qed.

Lemma row_of_dropped (sys : list string) (m : RawMessage) :
  dropped sys m = true -> row_of sys m = [].
Proof.
  unfold dropped, row_of. cbv zeta.
  remember (clean_message m) as m' eqn:Em.
  destruct (nonempty (Message m')); cbn [negb orb]; [|reflexivity].
  destruct (strptime "%d/%m/%y %I:%M:%S%p" (DateTimeStr m'));
    cbn [orb]; [|reflexivity].
  intros ->. reflexivity.
Qed.

Lemma loop_without_header (lines : list str) :
  no_header lines = true ->
  fold_left parse_chat_step lines ([], None) = ([], None).
Proof.
  induction lines as [|line lines IH]; simpl; intros H.
  - reflexivity.
  - apply andb_prop in H. destruct H as [H1 H2].
    unfold parse_chat_step at 2. unfold is_header in H1.
    destruct (classify line); [discriminate|]. simpl. apply IH, H2.
Qed.

(** C8. A text none of whose lines is a header goes through the whole
    pipeline to a frame without rows, and nothing is raised; so does a text all
    of whose candidate records are dropped, for an empty body, for a timestamp
    that does not parse, or as system notices. This holds for both copies of
    the processor: [sys] and [names] are their lists of notices and of
    returned columns. *)
Theorem parseTranscript_empty_not_error :
  forall (sys names : list string) (text : str),
    known_columns names = true ->
    no_header (splitlines text) = true
    \/ forallb (dropped sys) (parse_chat text) = true ->
    exists d,
      process_dataframe_with sys names (parse_chat text) = Ok d /\ rows d = [].
Proof.
  intros sys names text Hn H.
  destruct (@process_dataframe_total sys names (parse_chat text) Hn)
    as [d [Hd Hr]].
  exists d. split; [exact Hd|]. rewrite Hr.
  destruct H as [H|H].
  - unfold parse_chat. rewrite (loop_without_header _ H). reflexivity.
  - revert H. generalize (parse_chat text). intros l.
    induction l as [|m l IH]; cbn [forallb flat_map]; intros H.
    + reflexivity.
    + apply andb_prop in H. destruct H as [H1 H2].
      rewrite (row_of_dropped _ _ H1). apply IH, H2.
Qed.

Lemma parseTranscript_empty_not_error_witness :
  exists d, app.parseTranscript (u "Group chat export") = Ok d /\ rows d = [].
Proof.
  apply (@parseTranscript_empty_not_error app.system_messages
           app.returned_columns (u "Group chat export")).
  - vm_compute. reflexivity.
  - left. vm_compute. reflexivity.
Defined.

(** ** The fallback to the 24-hour clock *)

(** C1 at a failing input. The timestamp [01/01/23 10:00:00] has no meridiem
    and is a valid 24-hour timestamp: the format of the fallback parses it,
    the 12-hour format does not, and since the first conversion never raises,
    the fallback is not reached and the record is dropped, in both copies. *)
Theorem fallback_24h_never_taken :
  option_map DateTimeStr (hd_error (parse_chat scenario_24h))
  = Some (u "01/01/23 10:00:00")
  /\ strptime "%d/%m/%y %H:%M:%S" (u "01/01/23 10:00:00")
     = Some (to_epoch 2023 1 1 10 0 0)
  /\ strptime "%d/%m/%y %I:%M:%S%p" (u "01/01/23 10:00:00") = None
  /\ convert_column [u "01/01/23 10:00:00"] = Ok [None]
  /\ data_processor.parseTranscript scenario_24h
     = Ok {| columns := data_processor.returned_columns; rows := [] |}
  /\ app.parseTranscript scenario_24h
     = Ok {| columns := app.returned_columns; rows := [] |}.
Proof.
  repeat split; vm_compute; reflexivity.
Qed.

(** ** The two copies of the pipeline *)

(** C10 at failing inputs. On the scenario of the specification the copy of
    [app.py] yields the three tables of the timeline, while the frame of
    [data_processor.py], which does not return the column of weekdays, makes
    [get_timeline_data] of [analysis_engine.py] raise [KeyError]. And the
    two processors disagree on a body that holds one of the phrases only
    [app.py] lists. *)
Theorem standalone_pipeline_differs :
  timeline_of (app.parseTranscript scenario) (u "Overall")
  = Ok {| Hourly := [(1, 21%Z)];
          DayOfWeek := [ (0, "Monday"); (0, "Tuesday"); (0, "Wednesday");
                         (0, "Thursday"); (0, "Friday"); (0, "Saturday");
                         (1, "Sunday") ]%string;
          Monthly := [ (1, "January"); (0, "February"); (0, "March");
                       (0, "April"); (0, "May"); (0, "June"); (0, "July");
                       (0, "August"); (0, "September"); (0, "October");
                       (0, "November"); (0, "December") ]%string |}
  /\ timeline_of (data_processor.parseTranscript scenario) (u "Overall")
     = Raised (KeyError "day_of_week")
  /\ match app.parseTranscript scenario_left,
           data_processor.parseTranscript scenario_left with
     | Ok d, Ok d' => List.length (rows d) = 0 /\ List.length (rows d') = 1
     | _, _ => False
     end.
Proof.
  split; [vm_compute; reflexivity|].
  split; [vm_compute; reflexivity|].
  vm_compute. split; reflexivity.
Qed.

(** ** The timeline *)

Section SortFacts.
Variable A : Type.
Variable leb : A -> A -> bool.
Hypothesis leb_total : forall x y, leb x y = false -> leb y x = true.
Hypothesis leb_trans :
  forall x y z, leb x y = true -> leb y z = true -> leb x z = true.

Let le (x y : A) : Prop := leb x y = true.

Lemma insert_sorted_perm (x : A) (l : list A) :
  Permutation (insert_sorted leb x l) (x :: l).
Proof.
  induction l as [|y l IH]; simpl.
  - apply Permutation_refl.
  - destruct (leb x y).
    + apply Permutation_refl.
    + eapply Permutation_trans; [apply perm_skip, IH | apply perm_swap].
Qed.

Lemma sort_by_perm (l : list A) : Permutation (sort_by leb l) l.
Proof.
  induction l as [|x l IH]; simpl.
  - apply Permutation_refl.
  - eapply Permutation_trans; [apply insert_sorted_perm | apply perm_skip, IH].
Qed.

Lemma insert_sorted_sorted (x : A) (l : list A) :
  StronglySorted le l -> StronglySorted le (insert_sorted leb x l).
Proof.
  induction l as [|y l IH]; simpl; intros Hs.
  - constructor; constructor.
  - inversion Hs as [|y' l' Hl Hy]; subst.
    destruct (leb x y) eqn:E.
    + constructor; [exact Hs|]. constructor; [exact E|].
      eapply Forall_impl; [|exact Hy]. intros z Hz. exact (leb_trans E Hz).
    + constructor; [apply IH, Hl|].
      eapply Permutation_Forall.
      * apply Permutation_sym, insert_sorted_perm.
      * constructor; [apply leb_total, E | exact Hy].
Qed.

Lemma sort_by_sorted (l : list A) : StronglySorted le (sort_by leb l).
Proof.
  induction l as [|x l IH]; simpl.
  - constructor.
  - apply insert_sorted_sorted, IH.
Qed.

End SortFacts.

Lemma unique_from_spec (l : list Z) :
  forall seen,
    NoDup (unique_from seen l)
    /\ forall x, In x (unique_from seen l) <-> In x l /\ ~ In x seen.
Proof.
  induction l as [|y l IH]; intros seen; simpl.
  - split; [constructor|]. intros x. tauto.
  - destruct (existsb (Z.eqb y) seen) eqn:E.
    + destruct (IH seen) as [Hn Hi]. split; [exact Hn|].
      intros x. rewrite Hi. split; [tauto|].
      intros [[->|Hx] Hs]; [|tauto].
      exfalso. apply Hs. apply existsb_exists in E.
      destruct E as [z [Hz Ez]]. apply Z.eqb_eq in Ez. subst z. exact Hz.
    + destruct (IH (y :: seen)) as [Hn Hi]. split.
      * constructor; [|exact Hn]. rewrite Hi. simpl. tauto.
      * intros x. simpl. rewrite Hi. simpl.
        assert (Hy : ~ In y seen).
        { intros Hy. assert (existsb (Z.eqb y) seen = true); [|congruence].
          apply existsb_exists. exists y. split; [exact Hy|apply Z.eqb_refl]. }
        destruct (Z.eq_dec y x) as [->|Hne]; tauto.
Qed.

Lemma sorted_nodup_strict (l : list Z) :
  StronglySorted Z.le l -> NoDup l -> StronglySorted Z.lt l.
Proof.
  induction 1 as [|x l Hs IH Hx]; intros Hn.
  - constructor.
  - inversion Hn as [|x' l' Hnot Hn']; subst.
    constructor; [apply IH, Hn'|].
    rewrite Forall_forall in *. intros y Hy.
    specialize (Hx y Hy). assert (x <> y) by congruence. lia.
Qed.

Lemma sorted_map_fst (l : list (Z * nat)) :
  StronglySorted (fun a b => Z.leb (fst a) (fst b) = true) l ->
  StronglySorted Z.le (map fst l).
Proof.
  induction 1 as [|x l Hs IH Hx]; simpl.
  - constructor.
  - constructor; [exact IH|].
    rewrite Forall_forall in *. intros y Hy.
    apply in_map_iff in Hy. destruct Hy as [b [<- Hb]].
    apply Z.leb_le, Hx, Hb.
Qed.

(** The table of hours: the hours that occur, each once and in ascending
    order, each with the number of its occurrences. *)
Lemma hourly_table (hours : list Z) :
  let table := sort_index (value_counts hours) in
  StronglySorted Z.lt (map fst table)
  /\ (forall h, In h (map fst table) <-> In h hours)
  /\ (forall h n, In (h, n) table -> n = count_occ Z.eq_dec hours h).
Proof.
  intros table.
  set (tally := map (fun x => (x, count_occ Z.eq_dec hours x)) (unique_from [] hours)).
  assert (Hp : Permutation table tally).
  { unfold table, sort_index, value_counts.
    eapply Permutation_trans; apply sort_by_perm. }
  assert (Hk : Permutation (map fst table) (unique_from [] hours)).
  { eapply Permutation_trans; [apply Permutation_map, Hp|].
    unfold tally. rewrite map_map. simpl. rewrite map_id.
    apply Permutation_refl. }
  destruct (unique_from_spec hours []) as [Hn Hi].
  split; [|split].
  - apply sorted_nodup_strict.
    + apply sorted_map_fst. unfold table, sort_index. apply sort_by_sorted.
      * intros x y H. apply Z.leb_le. apply Z.leb_gt in H. lia.
      * intros x y z H1 H2. apply Z.leb_le. apply Z.leb_le in H1, H2. lia.
    + eapply Permutation_NoDup; [apply Permutation_sym, Hk | exact Hn].
  - intros h. split; intros H.
    + apply (Permutation_in _ Hk) in H. apply Hi in H. tauto.
    + apply (Permutation_in _ (Permutation_sym Hk)). apply Hi.
      split; [exact H | intros []].
  - intros h n H. apply (Permutation_in _ Hp) in H.
    unfold tally in H. apply in_map_iff in H. destruct H as [x [E _]].
    inversion E. reflexivity.
Qed.

(** C9, as stated, fails: on the scenario of the specification, whose one
    message is of 9 PM, the table of hours has the single bucket 21 and, for
    one, no bucket for hour 0. *)
Lemma hourly_24_buckets_refuted :
  match timeline_of (app.parseTranscript scenario) (u "Overall") with
  | Ok t => List.length (Hourly t) <> 24 /\ ~ In 0%Z (map snd (Hourly t))
  | Raised _ => False
  end.
Proof.
  vm_compute. split.
  - discriminate.
  - intros [H|[]]. discriminate H.
Qed.

(** C9, amended. Whatever the records and the scope, the table of hours of
    the timeline has one bucket for every hour in which a message of the scope
    occurs and no other, in ascending order of the hour, each with the number
    of these messages, which is at least one; an hour without message has no
    bucket. *)
Theorem hourly_buckets_are_the_hours_present :
  forall (a : WhatsAppAnalyzer) (t : Timeline),
    get_timeline_data a = Ok t ->
    let hours := map hour (rows (df a)) in
    StronglySorted Z.lt (map snd (Hourly t))
    /\ (forall h, In h (map snd (Hourly t)) <-> In h hours)
    /\ (forall n h, In (n, h) (Hourly t) ->
          n = count_occ Z.eq_dec hours h /\ 1 <= n).
Proof.
  intros a t H hours. unfold get_timeline_data, getcol in H.
  destruct (has_column "hour" (df a)); [|discriminate].
  destruct (has_column "day_of_week" (df a)); [|discriminate].
  destruct (has_column "month" (df a)); [|discriminate].
  simpl in H. injection H as <-. cbn [Hourly].
  destruct (hourly_table hours) as [Hs [Hi Hc]].
  assert (Hm : map snd (map (@swap Z nat) (sort_index (value_counts hours)))
               = map fst (sort_index (value_counts hours))).
  { rewrite map_map. reflexivity. }
  fold hours. rewrite Hm. split; [exact Hs|]. split; [exact Hi|].
  intros n h Hin. apply in_map_iff in Hin. destruct Hin as [[h' n'] [E Hin]].
  unfold swap in E. simpl in E. inversion E; subst.
  split; [apply Hc, Hin|].
  rewrite (Hc _ _ Hin).
  assert (In h hours).
  { apply Hi. apply in_map_iff. exists (h, n). split; [reflexivity|exact Hin]. }
  apply (count_occ_In Z.eq_dec) in H. lia.
Qed.

Lemma hourly_buckets_are_the_hours_present_witness :
  let hours := map hour (rows (df scenario_analyzer)) in
  StronglySorted Z.lt (map snd (Hourly scenario_timeline))
  /\ (forall h, In h (map snd (Hourly scenario_timeline)) <-> In h hours)
  /\ (forall n h, In (n, h) (Hourly scenario_timeline) ->
        n = count_occ Z.eq_dec hours h /\ 1 <= n).
Proof.
  apply (@hourly_buckets_are_the_hours_present scenario_analyzer scenario_timeline).
  vm_compute. reflexivity.
Defined.

(** ** The matcher: matches that come first *)

Lemma first_match_eps (rest : str) (c : caps) : first_match Eps [] rest c c.
Proof. intros A k a H. exact H. Qed.

Lemma first_match_chr (p : char -> bool) (x : char) (rest : str) (c : caps) :
  p x = true -> first_match (Chr p) [x] rest c c.
Proof. intros Hp A k a H. simpl. rewrite Hp. exact H. Qed.

Lemma first_match_cat (r1 r2 : regex) (m1 m2 rest : str) (c c1 c2 : caps) :
  first_match r1 m1 (m2 ++ rest) c c1 ->
  first_match r2 m2 rest c1 c2 ->
  first_match (Cat r1 r2) (m1 ++ m2) rest c c2.
Proof.
  intros H1 H2 A k a H. simpl. rewrite <- app_assoc.
  apply H1. apply H2. exact H.
Qed.

Lemma first_match_grp (n : nat) (r : regex) (m rest : str) (c c1 : caps) :
  first_match r m rest c c1 -> first_match (Grp n r) m rest c ((n, m) :: c1).
Proof. intros H1 A k a H. simpl. apply H1. exact H. Qed.

Lemma first_match_alt_l (r1 r2 : regex) (m rest : str) (c c' : caps) :
  first_match r1 m rest c c' -> first_match (Alt r1 r2) m rest c c'.
Proof. intros H1 A k a H. simpl. rewrite (H1 A k a H). reflexivity. Qed.

Lemma first_match_alt_r (r1 r2 : regex) (m rest : str) (c c' : caps) :
  (forall (A : Type) (k : cont A), exec r1 (m ++ rest) c k = None) ->
  first_match r2 m rest c c' -> first_match (Alt r1 r2) m rest c c'.
Proof. intros H1 H2 A k a H. simpl. rewrite H1. apply H2. exact H. Qed.

(** A match that comes first is the match [re_match] returns. *)
Lemma first_match_re_match (r : regex) (m rest : str) (c' : caps) :
  first_match r m rest [] c' -> re_match r (m ++ rest) = Some (c', rest).
Proof. intros H. unfold re_match. apply H. reflexivity. Qed.

(** ** The content filter *)

Lemma ieq_lower (p x : char) : ascii_lower x = ascii_lower p -> ieq p x = true.
Proof. intros H. unfold ieq. rewrite H, N.eqb_refl. reflexivity. Qed.

Lemma lower_full_stop (x : char) :
  ascii_lower x = ascii_lower (chr ".") -> dot x = true.
Proof.
  change (ascii_lower (chr ".")) with 46%N. unfold ascii_lower.
  destruct ((65 <=? x)%N && (x <=? 90)%N) eqn:E; intros H.
  - apply andb_prop in E. destruct E as [E1 E2]. apply N.leb_le in E1. lia.
  - subst x. reflexivity.
Qed.

Lemma phrase_chars_first (chars mid rest : str) (c : caps) :
  map ascii_lower mid = map ascii_lower chars ->
  first_match
    (seq (map (fun ch => if N.eqb ch (chr ".") then Chr dot else ilit ch) chars))
    mid rest c c.
Proof.
  revert mid. induction chars as [|ch chars IH]; intros mid H.
  - destruct mid; [|discriminate]. apply first_match_eps.
  - destruct mid as [|x mid]; [discriminate|]. simpl in H.
    injection H as Hx Hm. cbn [map seq fold_right].
    change (x :: mid) with ([x] ++ mid).
    apply first_match_cat with (c1 := c); [|apply IH, Hm].
    destruct (N.eqb ch (chr ".")) eqn:E.
    + apply N.eqb_eq in E. subst ch.
      apply first_match_chr, lower_full_stop, Hx.
    + apply first_match_chr, ieq_lower, Hx.
Qed.

Lemma exec_alt_some (A : Type) (rs : list regex) (r : regex) (s : str)
  (c : caps) (k : cont A) (a : A) :
  In r rs -> exec r s c k = Some a -> exists a', exec (alt rs) s c k = Some a'.
Proof.
  induction rs as [|r0 rs IH]; intros Hin H; [destruct Hin|].
  destruct rs as [|r1 rs].
  - destruct Hin as [->|[]]. exists a. exact H.
  - change (alt (r0 :: r1 :: rs)) with (Alt r0 (alt (r1 :: rs))). simpl exec.
    destruct (exec r0 s c k) as [a0|] eqn:E0.
    + exists a0. reflexivity.
    + destruct Hin as [->|Hin]; [congruence|]. apply IH; assumption.
Qed.

Lemma re_search_suffix (r : regex) (pre s : str) :
  re_match r s <> None -> re_search r (pre ++ s) = true.
Proof.
  intros H. induction pre as [|x pre IH]; simpl.
  - destruct s; simpl; destruct (re_match r _); congruence.
  - destruct (re_match r (x :: pre ++ s)); [reflexivity|exact IH].
Qed.

(** A body that holds a phrase of the list, in whatever case, is found by
    [str.contains]. *)
Lemma str_contains_phrase (phrases : list string) (phrase : string) (body : str) :
  In phrase phrases -> contains_ci phrase body ->
  str_contains phrases body = true.
Proof.
  intros Hin [pre [mid [post [-> Hm]]]]. unfold str_contains.
  apply re_search_suffix. unfold re_match.
  pose proof (@phrase_chars_first (u phrase) mid post [] Hm) as Hf.
  specialize (Hf _ (fun _ rest c => Some (c, rest)) ([], post) eq_refl).
  destruct (@exec_alt_some _ (map phrase_regex phrases) (phrase_regex phrase)
              (mid ++ post) [] (fun _ rest c => Some (c, rest)) ([], post))
    as [a' Ha'].
  - apply in_map, Hin.
  - exact Hf.
  - rewrite Ha'. discriminate.
Qed.

(** C3, as stated, fails: the keywords are matched as plain substrings, so
    the message of the scenario, which has [left] only inside [leftovers], is
    dropped by [app.py]. *)
Lemma whole_word_matching_refuted :
  app.parseTranscript scenario_left
  = Ok {| columns := app.returned_columns; rows := [] |}
  /\ option_map Message (hd_error (parse_chat scenario_left))
     = Some (u "I have leftovers for dinner")
  /\ str_contains app.system_messages (u "I have leftovers for dinner") = true
  /\ str_contains ["left"%string] (u "I have leftovers for dinner") = true.
Proof.
  repeat split; vm_compute; reflexivity.
Qed.

(** C3, amended. No record that [process_dataframe] of [app.py] lets through
    has a body that holds a phrase of its list of system notices, compared
    without regard to case and as a plain substring: the notices of a change
    of group name, icon or settings, [created this group] and the keywords
    [left], [added], [removed] and [joined] are among them, and a body that
    holds a keyword inside a longer word is dropped like any other. *)
Theorem content_filter_drops_substrings :
  forall (data : list RawMessage) (d : DataFrame) (r : Row) (phrase : string),
    app.process_dataframe data = Ok d ->
    In r (rows d) ->
    In phrase app.system_messages ->
    ~ contains_ci phrase (message r).
Proof.
  intros data d r phrase Hd Hr Hp Hc.
  destruct (@process_dataframe_total app.system_messages app.returned_columns
              data eq_refl) as [d' [Hd' Hrows]].
  unfold app.process_dataframe in Hd. rewrite Hd' in Hd. injection Hd as ->.
  rewrite Hrows in Hr. apply in_flat_map in Hr. destruct Hr as [m [_ Hr]].
  unfold row_of in Hr. cbv zeta in Hr.
  remember (clean_message m) as m' eqn:Em.
  destruct (nonempty (Message m')); [|destruct Hr].
  destruct (strptime "%d/%m/%y %I:%M:%S%p" (DateTimeStr m')) as [t|];
    [|destruct Hr].
  destruct (str_contains app.system_messages (Message m')) eqn:E;
    [destruct Hr|].
  destruct Hr as [<-|[]].
  change (message (features (m', t))) with (Message m') in Hc.
  rewrite (str_contains_phrase _ Hp Hc) in E. discriminate.
Qed.

Lemma content_filter_drops_substrings_witness :
  ~ contains_ci "left" (message scenario_row).
Proof.
  apply (@content_filter_drops_substrings (parse_chat scenario) scenario_frame
           scenario_row "left"%string).
  - vm_compute. reflexivity.
  - left. reflexivity.
  - vm_compute. tauto.
Defined.

(** ** The matcher: what a match implies *)

Lemma rep_sound (A : Type) (p : char -> bool) (s : str) :
  forall (lo : nat) (hi : option nat) (c : caps) (k : cont A) (a : A),
    rep p lo hi s c k = Some a ->
    exists m s',
      s = m ++ s' /\ matches (Rep p lo hi) m c c /\ k m s' c = Some a.
Proof.
  induction s as [|x s IH]; intros lo hi c k a H.
  - simpl in H. destruct lo; [|discriminate].
    exists [], []. repeat split; simpl; auto.
    destruct hi; [lia|exact I].
  - assert (Hstop : match lo with 0 => k [] (x :: s) c | S _ => None end = Some a ->
                    exists m s', x :: s = m ++ s'
                                 /\ matches (Rep p lo hi) m c c /\ k m s' c = Some a).
    { intros Hs. destruct lo; [|discriminate].
      exists [], (x :: s). repeat split; simpl; auto.
      destruct hi; [lia|exact I]. }
    simpl in H. destruct (p x && more hi) eqn:E; [|exact (Hstop H)].
    destruct (rep p (pred lo) (less hi) s c (fun m r c' => k (x :: m) r c'))
      as [a'|] eqn:Er; [|exact (Hstop H)].
    injection H as ->.
    apply IH in Er. destruct Er as [m [s' [-> [[[Hf [Hlo Hhi]] _] Hk]]]].
    apply andb_prop in E. destruct E as [Hp Hmore].
    exists (x :: m), s'. split; [reflexivity|]. split; [|exact Hk].
    split; [|reflexivity]. split; [constructor; assumption|].
    split; [simpl; lia|].
    destruct hi as [h|]; [|exact I].
    destruct h; [discriminate|]. simpl in Hhi |- *. lia.
Qed.

Lemma exec_sound (A : Type) (r : regex) :
  forall (s : str) (c : caps) (k : cont A) (a : A),
    exec r s c k = Some a ->
    exists m s' c', s = m ++ s' /\ matches r m c c' /\ k m s' c' = Some a.
Proof.
  induction r as [|p|p lo hi|r1 IH1 r2 IH2|r1 IH1 r2 IH2|n r IH];
    intros s c k a H; simpl in H.
  - exists [], s, c. repeat split; auto.
  - destruct s as [|x s]; [discriminate|].
    destruct (p x) eqn:E; [|discriminate].
    exists [x], s, c. repeat split; auto. exists x. auto.
  - apply rep_sound in H. destruct H as [m [s' [-> [Hm Hk]]]].
    exists m, s', c. auto.
  - apply IH1 in H. destruct H as [m1 [s1 [c1 [-> [H1 H]]]]].
    apply IH2 in H. destruct H as [m2 [s2 [c2 [-> [H2 H]]]]].
    exists (m1 ++ m2), s2, c2. rewrite app_assoc. repeat split; auto.
    simpl. exists m1, m2, c1. auto.
  - destruct (exec r1 s c k) as [a1|] eqn:E1.
    + injection H as ->. apply IH1 in E1.
      destruct E1 as [m [s' [c' [-> [Hm Hk]]]]].
      exists m, s', c'. simpl. auto.
    + apply IH2 in H. destruct H as [m [s' [c' [-> [Hm Hk]]]]].
      exists m, s', c'. simpl. auto.
  - apply IH in H. destruct H as [m [s' [c1 [-> [Hm Hk]]]]].
    exists m, s', ((n, m) :: c1). repeat split; auto.
    simpl. exists c1. auto.
Qed.

Lemma re_match_sound (r : regex) (s rest : str) (c : caps) :
  re_match r s = Some (c, rest) ->
  exists m, s = m ++ rest /\ matches r m [] c.
Proof.
  intros H. unfold re_match in H. apply exec_sound in H.
  destruct H as [m [s' [c' [-> [Hm Hk]]]]]. injection Hk as -> ->.
  exists m. auto.
Qed.

(** ** Characters *)

Lemma in_range_cases (a b : string) (x : char) :
  in_range a b x = true ->
  In x (map N.of_nat
          (List.seq (N.to_nat (chr a)) (S (N.to_nat (chr b)) - N.to_nat (chr a)))).
Proof.
  unfold in_range. intros H. apply andb_prop in H. destruct H as [H1 H2].
  apply N.leb_le in H1, H2. apply in_map_iff. exists (N.to_nat x).
  split; [apply N2Nat.id|]. apply in_seq. lia.
Qed.

Lemma isspace_cases (x : char) :
  isspace x = true ->
  In x [9; 10; 11; 12; 13; 28; 29; 30; 31; 32; 133; 160; 5760; 8192; 8193;
        8194; 8195; 8196; 8197; 8198; 8199; 8200; 8201; 8202; 8232; 8233;
        8239; 8287; 12288]%N.
Proof.
  unfold isspace. intros H.
  repeat rewrite ?orb_true_iff, ?andb_true_iff, ?N.leb_le, ?N.eqb_eq in H.
  simpl. lia.
Qed.

Lemma todecimal_isdecimal (x : char) (v : N) :
  todecimal x = Some v -> isdecimal x = true.
Proof. unfold isdecimal. intros ->. reflexivity. Qed.

Lemma todecimal_value (x : char) (v : N) :
  todecimal x = Some v -> (v < 10)%N /\ isspace x = false.
Proof.
  intros H. pose proof (todecimal_isdecimal x H) as Hd.
  unfold todecimal in H.
  destruct (find _ decimal_runs) as [r|] eqn:E; [|discriminate].
  injection H as <-. apply find_some in E. destruct E as [_ E].
  apply andb_prop in E. destruct E as [E1 E2].
  apply N.leb_le in E1. apply N.ltb_lt in E2. split; [lia|].
  destruct (isspace x) eqn:Es; [|reflexivity].
  apply isspace_cases in Es. exfalso. clear - Hd Es.
  simpl in Es.
  repeat (destruct Es as [<-|Es]; [vm_compute in Hd; discriminate Hd|]).
  destruct Es.
Qed.

Lemma ascii_digit (x : char) :
  (48 <= x <= 57)%N -> todecimal x = Some (x - 48)%N.
Proof.
  intros H.
  assert (E : In x [48; 49; 50; 51; 52; 53; 54; 55; 56; 57]%N) by (simpl; lia).
  simpl in E.
  repeat (destruct E as [<-|E]; [reflexivity|]). destruct E.
Qed.

Lemma in_range_digit (a b : string) (x : char) :
  in_range a b x = true -> (48 <= chr a)%N -> (chr b <= 57)%N ->
  todecimal x = Some (x - 48)%N /\ (chr a <= x <= chr b)%N.
Proof.
  unfold in_range. intros H Ha Hb. apply andb_prop in H. destruct H as [H1 H2].
  apply N.leb_le in H1, H2. split; [apply ascii_digit|]; lia.
Qed.

Lemma lit_char (c x : char) : N.eqb c x = true -> x = c.
Proof. intros H. apply N.eqb_eq in H. congruence. Qed.

Lemma isdecimal_value (x : char) :
  isdecimal x = true -> exists v, todecimal x = Some v.
Proof.
  unfold isdecimal. destruct (todecimal x) as [v|]; [|discriminate].
  intros _. exists v. reflexivity.
Qed.

(** ** [int] on the tokens of a timestamp *)

Lemma strip_one (x : char) : isspace x = false -> strip [x] = [x].
Proof. intros H. unfold strip, rstrip. simpl. rewrite H. simpl. rewrite H. reflexivity. Qed.

Lemma strip_two (x y : char) :
  isspace x = false -> isspace y = false -> strip [x; y] = [x; y].
Proof.
  intros Hx Hy. unfold strip, rstrip. simpl. rewrite Hx. simpl.
  rewrite Hy. reflexivity.
Qed.

Lemma py_int_one (x : char) (a : N) :
  todecimal x = Some a -> py_int [x] = Some (Z.of_N a).
Proof.
  intros Hx. destruct (todecimal_value x Hx) as [_ Hs].
  unfold py_int. rewrite (strip_one _ Hs). simpl. rewrite Hx. reflexivity.
Qed.

Lemma py_int_two (x y : char) (a b : N) :
  todecimal x = Some a -> todecimal y = Some b ->
  py_int [x; y] = Some (10 * Z.of_N a + Z.of_N b)%Z.
Proof.
  intros Hx Hy.
  destruct (todecimal_value x Hx) as [_ Hsx].
  destruct (todecimal_value y Hy) as [_ Hsy].
  unfold py_int. rewrite (strip_two _ _ Hsx Hsy). cbn [fold_left].
  rewrite Hx, Hy. reflexivity.
Qed.

(** ** The tokens of the 12-hour format *)

Lemma matches_plain (r : regex) :
  forall (m : str) (c c' : caps), plain r = true -> matches r m c c' -> c' = c.
Proof.
  induction r as [|p|p lo hi|r1 IH1 r2 IH2|r1 IH1 r2 IH2|n r IH];
    intros m c c' Hp H; simpl in *.
  - tauto.
  - tauto.
  - tauto.
  - apply andb_prop in Hp. destruct Hp as [Hp1 Hp2].
    destruct H as [m1 [m2 [c1 [_ [H1 H2]]]]].
    apply IH1 in H1; [|assumption]. apply IH2 in H2; [|assumption]. congruence.
  - apply andb_prop in Hp. destruct Hp as [Hp1 Hp2].
    destruct H as [H|H]; [eapply IH1|eapply IH2]; eassumption.
  - discriminate.
Qed.

Lemma matches_grp_plain (n : nat) (r : regex) (m : str) (c c' : caps) :
  plain r = true -> matches (Grp n r) m c c' ->
  c' = (n, m) :: c /\ matches r m c c.
Proof.
  intros Hp [c1 [H ->]]. pose proof (matches_plain _ _ _ _ Hp H) as ->.
  split; [reflexivity|exact H].
Qed.

Ltac break_match :=
  repeat match goal with
         | H : exists _, _ |- _ => destruct H
         | H : _ /\ _ |- _ => destruct H
         | H : _ \/ _ |- _ => destruct H
         | H : N.eqb _ _ = true |- _ => apply lit_char in H
         end; subst.

Lemma token_y (m : str) (c : caps) :
  matches (seq [Chr isdecimal; Chr isdecimal]) m c c ->
  exists v, py_int m = Some v /\ (0 <= v <= 99)%Z.
Proof.
  cbn [matches seq fold_right]. intros H. break_match.
  match goal with
  | H1 : isdecimal ?x = true, H2 : isdecimal ?y = true |- _ =>
      destruct (isdecimal_value _ H1) as [a Ha];
      destruct (isdecimal_value _ H2) as [b Hb];
      destruct (todecimal_value _ Ha) as [La _];
      destruct (todecimal_value _ Hb) as [Lb _]
  end.
  eexists. split; [apply (@py_int_two _ _ _ _ Ha Hb)|lia].
Qed.

Lemma token_M (m : str) (c : caps) :
  matches (alt [ seq [Chr (in_range "0" "5"); Chr isdecimal]; Chr isdecimal ])
    m c c ->
  exists v, py_int m = Some v /\ (0 <= v <= 59)%Z.
Proof.
  cbn [matches alt seq fold_right]. intros H. break_match.
  - match goal with
    | H1 : in_range _ _ ?x = true, H2 : isdecimal ?y = true |- _ =>
        destruct (in_range_digit _ _ _ H1) as [Ha Ra];
        [vm_compute; discriminate | vm_compute; discriminate |];
        destruct (isdecimal_value _ H2) as [b Hb];
        destruct (todecimal_value _ Hb) as [Lb _]
    end.
    eexists. split; [apply (@py_int_two _ _ _ _ Ha Hb)|].
    change (chr "0") with 48%N in Ra. change (chr "5") with 53%N in Ra. lia.
  - match goal with
    | H2 : isdecimal ?y = true |- _ =>
        destruct (isdecimal_value _ H2) as [b Hb];
        destruct (todecimal_value _ Hb) as [Lb _]
    end.
    eexists. split; [apply (@py_int_one _ _ Hb)|lia].
Qed.

Lemma token_I (m : str) (c : caps) :
  matches (alt [ seq [lit (chr "1"); Chr (in_range "0" "2")];
                 seq [lit (chr "0"); Chr (in_range "1" "9")];
                 Chr (in_range "1" "9") ]) m c c ->
  exists v, py_int m = Some v /\ (1 <= v <= 12)%Z.
Proof.
  unfold lit. cbn [matches alt seq fold_right]. intros H. break_match;
    match goal with
    | H1 : in_range ?a ?b ?x = true |- _ =>
        destruct (in_range_digit _ _ _ H1) as [Ha Ra];
        [vm_compute; discriminate | vm_compute; discriminate |];
        change (chr a) with (N_of_ascii (match a with String ch _ => ch | _ => zero end)) in Ra;
        change (chr b) with (N_of_ascii (match b with String ch _ => ch | _ => zero end)) in Ra;
        simpl in Ra
    end.
  - eexists. split; [apply (@py_int_two (chr "1") _ 1%N _ eq_refl Ha)|lia].
  - eexists. split; [apply (@py_int_two (chr "0") _ 0%N _ eq_refl Ha)|lia].
  - eexists. split; [apply (@py_int_one _ _ Ha)|lia].
Qed.

Lemma ieq_letter (p x : char) :
  (ascii_lower p =? 107)%N = false -> (ascii_lower p =? 105)%N = false ->
  (ascii_lower p =? 115)%N = false ->
  ieq p x = true -> ascii_lower x = ascii_lower p.
Proof.
  unfold ieq. intros -> -> ->. simpl. rewrite !orb_false_r.
  apply N.eqb_eq.
Qed.

Lemma token_p (m : str) (c : caps) :
  matches (alt [ istring "am"; istring "pm" ]) m c c ->
  map ascii_lower m = u "am" \/ map ascii_lower m = u "pm".
Proof.
  unfold istring, ilit. cbn [matches alt seq fold_right map u list_ascii_of_string].
  intros H. break_match;
    repeat match goal with
           | H : ieq _ _ = true |- _ =>
               apply ieq_letter in H; [|reflexivity..]
           end;
    [left|right]; cbn [map app];
    repeat match goal with
           | H : ascii_lower _ = _ |- _ => rewrite H; clear H
           end;
    reflexivity.
Qed.

Lemma token_S (m : str) (c : caps) :
  matches (alt [ seq [lit (chr "6"); Chr (in_range "0" "1")];
                 seq [Chr (in_range "0" "5"); Chr isdecimal];
                 Chr isdecimal ]) m c c ->
  exists v, py_int m = Some v /\ (0 <= v <= 61)%Z.
Proof.
  unfold lit. cbn [matches alt seq fold_right]. intros H. break_match.
  - match goal with
    | H1 : in_range _ _ ?x = true |- _ =>
        destruct (in_range_digit _ _ _ H1) as [Ha Ra];
        [vm_compute; discriminate | vm_compute; discriminate |]
    end.
    change (chr "0") with 48%N in Ra. change (chr "1") with 49%N in Ra.
    eexists. split; [apply (@py_int_two (chr "6") _ 6%N _ eq_refl Ha)|lia].
  - match goal with
    | H1 : in_range _ _ ?x = true, H2 : isdecimal ?y = true |- _ =>
        destruct (in_range_digit _ _ _ H1) as [Ha Ra];
        [vm_compute; discriminate | vm_compute; discriminate |];
        destruct (isdecimal_value _ H2) as [b Hb];
        destruct (todecimal_value _ Hb) as [Lb _]
    end.
    change (chr "0") with 48%N in Ra. change (chr "5") with 53%N in Ra.
    eexists. split; [apply (@py_int_two _ _ _ _ Ha Hb)|lia].
  - match goal with
    | H2 : isdecimal ?y = true |- _ =>
        destruct (isdecimal_value _ H2) as [b Hb];
        destruct (todecimal_value _ Hb) as [Lb _]
    end.
    eexists. split; [apply (@py_int_one _ _ Hb)|lia].
Qed.

Lemma format_12h_regex :
  format_regex false false (u "%d/%m/%y %I:%M:%S%p") = Some format_12h.
Proof. reflexivity. Qed.

Lemma directive_d :
  directive_of "d"
  = Grp (gname "d")
      (alt [ seq [lit (chr "3"); Chr (in_range "0" "1")];
             seq [Chr (in_range "1" "2"); Chr isdecimal];
             seq [lit (chr "0"); Chr (in_range "1" "9")];
             Chr (in_range "1" "9");
             seq [lit (chr " "); Chr (in_range "1" "9")] ]).
Proof. reflexivity. Qed.

Lemma directive_m :
  directive_of "m"
  = Grp (gname "m")
      (alt [ seq [lit (chr "1"); Chr (in_range "0" "2")];
             seq [lit (chr "0"); Chr (in_range "1" "9")];
             Chr (in_range "1" "9") ]).
Proof. reflexivity. Qed.

Lemma directive_y :
  directive_of "y" = Grp (gname "y") (seq [Chr isdecimal; Chr isdecimal]).
Proof. reflexivity. Qed.

Lemma directive_I :
  directive_of "I"
  = Grp (gname "I")
      (alt [ seq [lit (chr "1"); Chr (in_range "0" "2")];
             seq [lit (chr "0"); Chr (in_range "1" "9")];
             Chr (in_range "1" "9") ]).
Proof. reflexivity. Qed.

Lemma directive_M :
  directive_of "M"
  = Grp (gname "M")
      (alt [ seq [Chr (in_range "0" "5"); Chr isdecimal]; Chr isdecimal ]).
Proof. reflexivity. Qed.

Lemma directive_S :
  directive_of "S"
  = Grp (gname "S")
      (alt [ seq [lit (chr "6"); Chr (in_range "0" "1")];
             seq [Chr (in_range "0" "5"); Chr isdecimal];
             Chr isdecimal ]).
Proof. reflexivity. Qed.

Lemma directive_p :
  directive_of "p" = Grp (gname "p") (alt [ istring "am"; istring "pm" ]).
Proof. reflexivity. Qed.

(** The conversion of what the 12-hour format captures. *)
Lemma convert_12h (md mm my mI mM mS mp : str) :
  convert [ (gname "p", mp); (gname "S", mS); (gname "M", mM); (gname "I", mI);
            (gname "y", my); (gname "m", mm); (gname "d", md) ]
  = match py_int my, py_int mm, py_int md, py_int mI, py_int mM, py_int mS with
    | Some y, Some m, Some d, Some ii, Some mi, Some ss =>
        if valid_date (century y) m d
        then Some (to_epoch (century y) m d (hour_12 (map ascii_lower mp) ii) mi ss)
        else None
    | _, _, _, _, _, _ => None
    end.
Proof.
  unfold convert.
  set (c := [ (gname "p", mp); (gname "S", mS); (gname "M", mM);
              (gname "I", mI); (gname "y", my); (gname "m", mm);
              (gname "d", md) ]).
  change (field "y" (-1) c) with (py_int my).
  change (field "m" 1 c) with (py_int mm).
  change (field "d" 1 c) with (py_int md).
  change (field "H" 0 c) with (Some 0%Z).
  change (field "I" 0 c) with (py_int mI).
  change (field "M" 0 c) with (py_int mM).
  change (field "S" 0 c) with (py_int mS).
  change (has_group "y" c) with true.
  change (has_group "I" c) with true.
  change (group (gname "p") c) with mp.
  destruct (py_int my), (py_int mm), (py_int md), (py_int mI), (py_int mM),
    (py_int mS); reflexivity.
Qed.

(** ** The calendar *)

Lemma civil_roundtrip_checked :
  forallb
    (fun y =>
       forallb
         (fun m =>
            forallb
              (fun d =>
                 implb (valid_date y m d)
                   (let '(y', m', d') := civil_from_days (days_from_civil y m d) in
                    Z.eqb y' y && Z.eqb m' m && Z.eqb d' d))
              (map Z.of_nat (List.seq 1 31)))
         (map Z.of_nat (List.seq 1 12)))
    (map Z.of_nat (List.seq 1969 100))
  = true.
Proof. vm_compute. reflexivity. Qed.

Lemma in_zrange (a n : nat) (z : Z) :
  (Z.of_nat a <= z < Z.of_nat a + Z.of_nat n)%Z ->
  In z (map Z.of_nat (List.seq a n)).
Proof.
  intros H. apply in_map_iff. exists (Z.to_nat z). split; [lia|].
  apply in_seq. lia.
Qed.

Lemma days_in_month_bound (y m : Z) : (28 <= days_in_month y m <= 31)%Z.
Proof.
  unfold days_in_month.
  destruct (m =? 2)%Z; [destruct (is_leap y); lia|].
  destruct ((m =? 4) || (m =? 6) || (m =? 9) || (m =? 11))%Z; lia.
Qed.

Lemma civil_roundtrip (y m d : Z) :
  (1969 <= y <= 2068)%Z -> valid_date y m d = true ->
  civil_from_days (days_from_civil y m d) = (y, m, d).
Proof.
  intros Hy Hv. pose proof Hv as Hv'. unfold valid_date in Hv'.
  repeat rewrite andb_true_iff in Hv'. repeat rewrite Z.leb_le in Hv'.
  pose proof (days_in_month_bound y m) as Hb.
  pose proof civil_roundtrip_checked as C.
  rewrite forallb_forall in C.
  specialize (C y (@in_zrange 1969 100 y ltac:(lia))).
  rewrite forallb_forall in C.
  specialize (C m (@in_zrange 1 12 m ltac:(lia))).
  rewrite forallb_forall in C.
  specialize (C d (@in_zrange 1 31 d ltac:(lia))).
  rewrite Hv in C. cbn [implb] in C.
  destruct (civil_from_days (days_from_civil y m d)) as [[y' m'] d'].
  repeat rewrite andb_true_iff in C. repeat rewrite Z.eqb_eq in C.
  destruct C as [[-> ->] ->]. reflexivity.
Qed.

(** The date of a timestamp made of a valid date and a time of day. *)
Lemma dt_date_to_epoch (y m d hh mi ss : Z) :
  (1969 <= y <= 2068)%Z -> valid_date y m d = true ->
  (0 <= hh <= 23)%Z -> (0 <= mi <= 59)%Z -> (0 <= ss <= 59)%Z ->
  dt_date (to_epoch y m d hh mi ss) = (y, m, d).
Proof.
  intros Hy Hv Hh Hm Hs. unfold dt_date, to_epoch.
  replace ((days_from_civil y m d * 86400 + hh * 3600 + mi * 60 + ss) / 86400)%Z
    with (days_from_civil y m d).
  - apply civil_roundtrip; assumption.
  - apply Z.div_unique with (r := (hh * 3600 + mi * 60 + ss)%Z); lia.
Qed.

Lemma century_range (yy : Z) :
  (0 <= yy <= 99)%Z -> (1969 <= century yy <= 2068)%Z.
Proof. unfold century. intros H. destruct (yy <=? 68)%Z eqn:E; lia. Qed.

Lemma hour_12_range (ampm : str) (ii : Z) :
  ampm = u "am" \/ ampm = u "pm" -> (1 <= ii <= 12)%Z ->
  (0 <= hour_12 ampm ii <= 23)%Z.
Proof.
  intros [->| ->] H; unfold hour_12.
  - change (str_eqb (u "am") [] || str_eqb (u "am") (u "am")) with true.
    cbv iota. destruct (ii =? 12)%Z; lia.
  - change (str_eqb (u "pm") [] || str_eqb (u "pm") (u "am")) with false.
    change (str_eqb (u "pm") (u "pm")) with true.
    cbv iota. destruct (ii =? 12)%Z eqn:E; lia.
Qed.

(** ** The 12-hour format *)

(** What a match of the 12-hour format captures. *)
Lemma matches_format_12h (m : str) (c : caps) :
  matches format_12h m [] c ->
  exists md mm my mI mM mS mp pre,
    c = [ (gname "p", mp); (gname "S", mS); (gname "M", mM); (gname "I", mI);
          (gname "y", my); (gname "m", mm); (gname "d", md) ]
    /\ m = pre ++ mp
    /\ (exists yy, py_int my = Some yy /\ (0 <= yy <= 99)%Z)
    /\ (exists ii, py_int mI = Some ii /\ (1 <= ii <= 12)%Z)
    /\ (exists mi, py_int mM = Some mi /\ (0 <= mi <= 59)%Z)
    /\ (exists ss, py_int mS = Some ss /\ (0 <= ss <= 61)%Z)
    /\ (map ascii_lower mp = u "am" \/ map ascii_lower mp = u "pm").
Proof.
  unfold format_12h. cbn [seq fold_right matches]. intros H.
  destruct H as [md [r1 [c1 [-> [Hd H]]]]].
  destruct H as [s1 [r2 [c2 [-> [[_ ->] H]]]]].
  destruct H as [mm [r3 [c3 [-> [Hm H]]]]].
  destruct H as [s2 [r4 [c4 [-> [[_ ->] H]]]]].
  destruct H as [my [r5 [c5 [-> [Hy H]]]]].
  destruct H as [ws [r6 [c6 [-> [[_ ->] H]]]]].
  destruct H as [mI [r7 [c7 [-> [HI H]]]]].
  destruct H as [s3 [r8 [c8 [-> [[_ ->] H]]]]].
  destruct H as [mM [r9 [c9 [-> [HM H]]]]].
  destruct H as [s4 [r10 [c10 [-> [[_ ->] H]]]]].
  destruct H as [mS [r11 [c11 [-> [HS H]]]]].
  destruct H as [mp [r12 [c12 [-> [Hp [-> ->]]]]]].
  rewrite directive_d in Hd. apply matches_grp_plain in Hd; [|reflexivity].
  destruct Hd as [-> _].
  rewrite directive_m in Hm. apply matches_grp_plain in Hm; [|reflexivity].
  destruct Hm as [-> _].
  rewrite directive_y in Hy. apply matches_grp_plain in Hy; [|reflexivity].
  destruct Hy as [-> Hy]. apply token_y in Hy.
  rewrite directive_I in HI. apply matches_grp_plain in HI; [|reflexivity].
  destruct HI as [-> HI]. apply token_I in HI.
  rewrite directive_M in HM. apply matches_grp_plain in HM; [|reflexivity].
  destruct HM as [-> HM]. apply token_M in HM.
  rewrite directive_S in HS. apply matches_grp_plain in HS; [|reflexivity].
  destruct HS as [-> HS]. apply token_S in HS.
  rewrite directive_p in Hp. apply matches_grp_plain in Hp; [|reflexivity].
  destruct Hp as [-> Hp]. apply token_p in Hp.
  exists md, mm, my, mI, mM, mS, mp.
  exists (md ++ s1 ++ mm ++ s2 ++ my ++ ws ++ mI ++ s3 ++ mM ++ s4 ++ mS).
  split; [reflexivity|]. split.
  { rewrite app_nil_r. repeat rewrite <- app_assoc. reflexivity. }
  auto 10.
Qed.

(** A timestamp parses under the 12-hour format only if it ends with a
    meridiem. *)
Lemma strptime_12h_needs_meridiem (val : str) (t : Timestamp) :
  strptime "%d/%m/%y %I:%M:%S%p" val = Some t ->
  exists pre mp,
    val = pre ++ mp
    /\ (map ascii_lower mp = u "am" \/ map ascii_lower mp = u "pm").
Proof.
  unfold strptime. rewrite format_12h_regex.
  destruct (re_match format_12h val) as [[c rest]|] eqn:E; [|discriminate].
  destruct rest; [|discriminate]. intros _.
  apply re_match_sound in E. destruct E as [m [-> Hm]].
  apply matches_format_12h in Hm.
  destruct Hm as [md [mm [my [mI [mM [mS [mp [pre [_ [-> [_ [_ [_ [_ Hp]]]]]]]]]]]]]].
  exists pre, mp. rewrite app_nil_r. auto.
Qed.

(** C6, as stated, fails: the two-digit year 99 is the year 1999, not
    2099. *)
Lemma year_2000_plus_token_refuted :
  option_map DateTimeStr (hd_error (parse_chat scenario_1999))
  = Some (u "01/01/99 9:05:00PM")
  /\ match app.parseTranscript scenario_1999 with
     | Ok d => map year (rows d) = [1999%Z]
     | Raised _ => False
     end
  /\ (1999 <> 2000 + 99)%Z.
Proof.
  split; [vm_compute; reflexivity|]. split; [vm_compute; reflexivity|lia].
Qed.

(** C6, amended. For every timestamp that parses, the year derived is the
    two-digit year token plus 2000 when the token is at most 68 and plus 1900
    when it is 69 or more; the token is what the format captures for [%y], the
    timestamp being one whose seconds are at most 59 (a second of 60 or 61
    carries into the next minute, and so possibly into the next year). *)
Theorem year_follows_century_pivot :
  forall (val : str) (t : Timestamp),
    strptime "%d/%m/%y %I:%M:%S%p" val = Some t ->
    exists (c : caps) (yy ss : Z),
      re_match format_12h val = Some (c, [])
      /\ py_int (group (gname "y") c) = Some yy
      /\ py_int (group (gname "S") c) = Some ss
      /\ (0 <= yy <= 99)%Z
      /\ ((ss <= 59)%Z ->
          dt_year t = if (yy <=? 68)%Z then (yy + 2000)%Z else (yy + 1900)%Z).
Proof.
  intros val t H. unfold strptime in H. rewrite format_12h_regex in H.
  destruct (re_match format_12h val) as [[c rest]|] eqn:E; [|discriminate].
  destruct rest; [|discriminate].
  pose proof E as E'. apply re_match_sound in E'. destruct E' as [m [_ Hm]].
  apply matches_format_12h in Hm.
  destruct Hm as [md [mm [my [mI [mM [mS [mp [pre [-> [_ H']]]]]]]]]].
  destruct H' as [[yy [Hy Ry]] [[ii [HI RI]] [[mi [HM RM]] [[ss [HS RS]] Hp]]]].
  rewrite convert_12h in H. rewrite Hy, HI, HM, HS in H.
  destruct (py_int mm) as [mo|]; [|discriminate].
  destruct (py_int md) as [dd|]; [|discriminate].
  destruct (valid_date (century yy) mo dd) eqn:Hv; [|discriminate].
  injection H as <-.
  exists [ (gname "p", mp); (gname "S", mS); (gname "M", mM); (gname "I", mI);
           (gname "y", my); (gname "m", mm); (gname "d", md) ], yy, ss.
  split; [reflexivity|]. split; [exact Hy|]. split; [exact HS|].
  split; [exact Ry|]. intros Hs.
  unfold dt_year.
  rewrite dt_date_to_epoch.
  - reflexivity.
  - apply century_range, Ry.
  - exact Hv.
  - apply hour_12_range; assumption.
  - exact RM.
  - lia.
Qed.

Lemma year_follows_century_pivot_witness :
  exists (c : caps) (yy ss : Z),
    re_match format_12h (u "01/01/99 9:05:00PM") = Some (c, [])
    /\ py_int (group (gname "y") c) = Some yy
    /\ py_int (group (gname "S") c) = Some ss
    /\ (0 <= yy <= 99)%Z
    /\ ((ss <= 59)%Z ->
        dt_year (to_epoch 1999 1 1 21 5 0)
        = if (yy <=? 68)%Z then (yy + 2000)%Z else (yy + 1900)%Z).
Proof.
  apply (@year_follows_century_pivot (u "01/01/99 9:05:00PM")
           (to_epoch 1999 1 1 21 5 0)).
  vm_compute. reflexivity.
Defined.

(** Every two-digit token from 00 to 99 occurs: on the first of January of
    each, at 9:05 PM, the year derived is the one the pivot gives. *)
Lemma year_of_every_token :
  forallb
    (fun n =>
       match strptime "%d/%m/%y %I:%M:%S%p"
               (u "01/01/" ++ two n ++ u " 9:05:00PM") with
       | Some t => Z.eqb (dt_year t) (century (Z.of_nat n))
       | None => false
       end)
    (List.seq 0 100)
  = true.
Proof. vm_compute. reflexivity. Qed.

(** ** The header pattern *)

Lemma take_drop_while (p : char -> bool) (s : str) :
  s = take_while p s ++ drop_while p s.
Proof.
  induction s as [|x s IH]; simpl; [reflexivity|].
  destruct (p x); simpl; [f_equal; exact IH|reflexivity].
Qed.

Lemma take_while_all (p : char -> bool) (s : str) :
  Forall (fun x => p x = true) (take_while p s).
Proof.
  induction s as [|x s IH]; simpl; [constructor|].
  destruct (p x) eqn:E; constructor; assumption.
Qed.

Lemma drop_while_head (p : char -> bool) (s : str) (x : char) (r : str) :
  drop_while p s = x :: r -> p x = false.
Proof.
  induction s as [|y s IH]; simpl; [discriminate|].
  destruct (p y) eqn:E; [exact IH|]. intros H. injection H as <- _. exact E.
Qed.

Lemma drop_while_isspace (s : str) : drop_while isspace s = lstrip s.
Proof.
  induction s as [|x s IH]; simpl; [reflexivity|].
  destruct (isspace x); [exact IH|reflexivity].
Qed.

(** A greedy repetition takes, first of all, every character it can. *)
Lemma first_match_rep (p : char -> bool) (w rest : str) (c : caps) :
  forall (lo : nat) (hi : option nat),
    Forall (fun x => p x = true) w ->
    lo <= List.length w ->
    match hi with Some h => List.length w <= h | None => True end ->
    hi = Some (List.length w) \/ rest = []
    \/ (exists x r, rest = x :: r /\ p x = false) ->
    first_match (Rep p lo hi) w rest c c.
Proof.
  induction w as [|y w IH]; intros lo hi Hw Hlo Hhi Hstop A k a Hk.
  - simpl in Hlo. assert (lo = 0) by lia. subst lo.
    destruct rest as [|x r]; cbn [app exec rep]; [exact Hk|].
    destruct (p x && more hi) eqn:E; [|exact Hk].
    apply andb_prop in E. destruct E as [Ep Em]. exfalso.
    destruct Hstop as [->|[Hr|[x' [r' [Hr Hx]]]]].
    + discriminate Em.
    + discriminate.
    + injection Hr as <- <-. congruence.
  - inversion Hw as [|y' w' Hy Hw']; subst.
    assert (Hmore : more hi = true).
    { destruct hi as [[|h]|]; simpl in *; [lia|reflexivity|reflexivity]. }
    cbn [app exec rep]. rewrite Hy, Hmore. cbn [andb].
    assert (E : exec (Rep p (pred lo) (less hi)) (w ++ rest) c
                  (fun m r c' => k (y :: m) r c') = Some a).
    { apply (IH (pred lo) (less hi) Hw').
      - simpl in Hlo. lia.
      - destruct hi as [h|]; simpl in *; [lia|exact I].
      - destruct Hstop as [->|Hstop]; [left; reflexivity|right; exact Hstop].
      - exact Hk. }
    cbn [exec] in E. rewrite E. reflexivity.
Qed.

Lemma drop_while_stop (p : char -> bool) (s : str) :
  drop_while p s = [] \/ exists x r, drop_while p s = x :: r /\ p x = false.
Proof.
  destruct (drop_while p s) as [|x r] eqn:E; [left; reflexivity|].
  right. exists x, r. split; [reflexivity|]. exact (drop_while_head p s E).
Qed.

Lemma drop_while_all (P : char -> Prop) (p : char -> bool) (s : str) :
  Forall P s -> Forall P (drop_while p s).
Proof.
  induction 1 as [|x s Hx Hs IH]; simpl; [constructor|].
  destruct (p x); [exact IH|constructor; assumption].
Qed.

Lemma lstrip_lstrip (s : str) : lstrip (lstrip s) = lstrip s.
Proof.
  induction s as [|x s IH]; simpl; [reflexivity|].
  destruct (isspace x) eqn:E; [exact IH|]. simpl. rewrite E. reflexivity.
Qed.

Lemma strip_lstrip (s : str) : strip (lstrip s) = strip s.
Proof. unfold strip. rewrite lstrip_lstrip. reflexivity. Qed.

Lemma lstrip_spaces (s : str) : spaces s -> lstrip s = [].
Proof.
  induction 1 as [|x s Hx Hs IH]; simpl; [reflexivity|].
  rewrite Hx. exact IH.
Qed.

Lemma strip_spaces (s : str) : spaces s -> strip s = [].
Proof. intros H. unfold strip. rewrite (lstrip_spaces H). reflexivity. Qed.

Lemma lstrip_nil_spaces (s : str) : lstrip s = [] -> spaces s.
Proof.
  induction s as [|x s IH]; simpl; intros H; [constructor|].
  destruct (isspace x) eqn:E; [|discriminate].
  constructor; [exact E|exact (IH H)].
Qed.

(** A greedy repetition gives back its last character when what follows
    cannot match otherwise. *)
Lemma rep_gives_back_one (A : Type) (p : char -> bool) (z : char) (rest : str)
  (c : caps) (a : A) :
  forall (w : str) (k : cont A),
    Forall (fun x => p x = true) (w ++ [z]) ->
    rest = [] \/ (exists x r, rest = x :: r /\ p x = false) ->
    k (w ++ [z]) rest c = None ->
    k w (z :: rest) c = Some a ->
    rep p 0 None (w ++ z :: rest) c k = Some a.
Proof.
  induction w as [|y w IH]; intros k Hw Hstop Hnone Hk.
  - inversion Hw as [|z' l Hz _]; subst. cbn [app rep]. rewrite Hz.
    cbn [andb more pred less option_map].
    assert (E : rep p 0 None rest c (fun m r c' => k (z :: m) r c') = None).
    { destruct Hstop as [->|[x [r [-> Hx]]]]; cbn [rep].
      - exact Hnone.
      - rewrite Hx. exact Hnone. }
    rewrite E. exact Hk.
  - inversion Hw as [|y' l Hy Hw']; subst. cbn [app rep]. rewrite Hy.
    cbn [andb more pred less option_map].
    rewrite (IH (fun m r c' => k (y :: m) r c') Hw' Hstop Hnone Hk).
    reflexivity.
Qed.

Lemma body_first_match (body : str) (c : caps) :
  first_match (seq [ lit (chr ":"); star isspace; Grp 6 (star dot) ])
    (u ":" ++ take_while isspace body ++ first_line body ++ [])
    (drop_while dot (lstrip body)) c ((6, first_line body) :: c).
Proof.
  unfold seq, fold_right, first_line.
  apply first_match_cat with (c1 := c).
  { apply first_match_chr. reflexivity. }
  apply first_match_cat with (c1 := c).
  { apply first_match_rep.
    - apply take_while_all.
    - lia.
    - exact I.
    - right. rewrite app_nil_r.
      replace (take_while dot (lstrip body) ++ drop_while dot (lstrip body))
        with (drop_while isspace body)
        by (rewrite drop_while_isspace; apply take_drop_while).
      apply drop_while_stop. }
  apply first_match_cat with (c1 := (6, take_while dot (lstrip body)) :: c).
  { apply first_match_grp, first_match_rep.
    - apply take_while_all.
    - lia.
    - exact I.
    - right. apply drop_while_stop. }
  apply first_match_eps.
Qed.

Lemma sender_first_match (field body : str) (c : caps) :
  field <> [] -> no_colon field ->
  exists g5,
    strip g5 = strip field
    /\ first_match sender_and_body
         (field ++ u ":" ++ take_while isspace body ++ first_line body ++ [])
         (drop_while dot (lstrip body)) c
         ((6, first_line body) :: (5, g5) :: c).
Proof.
  intros Hne Hnc.
  pose (M2 := u ":" ++ take_while isspace body ++ first_line body ++ []).
  pose (rest := drop_while dot (lstrip body)).
  assert (Hcolon : forall l, exists x r,
             M2 ++ l = x :: r /\ not_char (chr ":") x = false).
  { intros l. eexists. eexists. split; reflexivity. }
  assert (Hgrp : forall f c0, f <> [] -> no_colon f ->
             first_match
               (Cat (Grp 5 (plus (not_char (chr ":"))))
                  (seq [ lit (chr ":"); star isspace; Grp 6 (star dot) ]))
               (f ++ M2) rest c0 ((6, first_line body) :: (5, f) :: c0)).
  { intros f c0 Hf Hfc. apply first_match_cat with (c1 := (5, f) :: c0).
    - apply first_match_grp, first_match_rep.
      + exact Hfc.
      + destruct f; [congruence|simpl; lia].
      + exact I.
      + right. right. apply Hcolon.
    - apply body_first_match. }
  destruct (lstrip field) as [|x f'] eqn:El.
  - (* nothing but white space before the colon *)
    destruct (exists_last Hne) as [w [z Ef]].
    pose proof (lstrip_nil_spaces field El) as Hsp.
    exists [z]. split.
    { rewrite (strip_spaces Hsp). apply strip_spaces.
      rewrite Ef in Hsp. apply Forall_app in Hsp. tauto. }
    intros A k a Hk. unfold sender_and_body.
    change (seq [ star isspace; Grp 5 (plus (not_char (chr ":")));
                  lit (chr ":"); star isspace; Grp 6 (star dot) ])
      with (Cat (star isspace)
              (Cat (Grp 5 (plus (not_char (chr ":"))))
                 (seq [ lit (chr ":"); star isspace; Grp 6 (star dot) ]))).
    cbn [exec star]. fold M2 rest in Hk |- *.
    rewrite Ef in Hk |- *. rewrite <- !app_assoc. cbn [app].
    apply rep_gives_back_one.
    + rewrite <- Ef. exact Hsp.
    + right. destruct (Hcolon rest) as [x [r [E Hx]]].
      exists x, r. split; [exact E|].
      injection E as <- _. reflexivity.
    + reflexivity.
    + change (z :: M2 ++ rest) with (([z] ++ M2) ++ rest).
      apply (Hgrp [z] c); [discriminate| |].
      * rewrite Ef in Hnc. apply Forall_app in Hnc. tauto.
      * rewrite <- app_assoc in Hk. exact Hk.
  - (* a sender after the white space, if any *)
    exists (lstrip field). split; [apply strip_lstrip|].
    rewrite <- (drop_while_isspace field) in El |- *.
    fold M2 rest.
    replace (field ++ M2)
      with (take_while isspace field ++ drop_while isspace field ++ M2)
      by (rewrite app_assoc, <- take_drop_while; reflexivity).
    unfold sender_and_body.
    change (seq [ star isspace; Grp 5 (plus (not_char (chr ":")));
                  lit (chr ":"); star isspace; Grp 6 (star dot) ])
      with (Cat (star isspace)
              (Cat (Grp 5 (plus (not_char (chr ":"))))
                 (seq [ lit (chr ":"); star isspace; Grp 6 (star dot) ]))).
    apply first_match_cat with (c1 := c).
    + apply first_match_rep.
      * apply take_while_all.
      * lia.
      * exact I.
      * right. right. rewrite El. exists x, (f' ++ M2 ++ rest).
        split; [rewrite <- app_assoc; reflexivity|].
        apply (drop_while_head isspace field El).
    + apply Hgrp.
      * rewrite El. discriminate.
      * apply drop_while_all. exact Hnc.
Qed.

Lemma decimal_not_space (x : char) : isdecimal x = true -> isspace x = false.
Proof.
  intros H. destruct (isdecimal_value x H) as [v Hv].
  exact (proj2 (todecimal_value x Hv)).
Qed.

Lemma two_decimals_first (x y : char) (rest : str) (c : caps) :
  isdecimal x = true -> isdecimal y = true ->
  first_match (times isdecimal 2 2) [x; y] rest c c.
Proof.
  intros Hx Hy. apply first_match_rep.
  - repeat constructor; assumption.
  - simpl. lia.
  - simpl. lia.
  - left. reflexivity.
Qed.

Lemma date_first_match (a b c d e f : char) (rest : str) (cs : caps) :
  decimals [a; b; c; d; e; f] ->
  first_match
    (Grp 1 (seq [ times isdecimal 2 2; lit (chr "/"); times isdecimal 2 2;
                  lit (chr "/"); times isdecimal 2 2 ]))
    (date_token a b c d e f) rest cs ((1, date_token a b c d e f) :: cs).
Proof.
  intros H.
  inversion H as [|? ? Ha H1]; subst. inversion H1 as [|? ? Hb H2]; subst.
  inversion H2 as [|? ? Hc H3]; subst. inversion H3 as [|? ? Hd H4]; subst.
  inversion H4 as [|? ? He H5]; subst. inversion H5 as [|? ? Hf _]; subst.
  apply first_match_grp.
  change (date_token a b c d e f)
    with ([a; b] ++ [chr "/"] ++ [c; d] ++ [chr "/"] ++ [e; f] ++ []).
  unfold seq, fold_right.
  apply first_match_cat with (c1 := cs); [apply two_decimals_first; assumption|].
  apply first_match_cat with (c1 := cs); [apply first_match_chr; reflexivity|].
  apply first_match_cat with (c1 := cs); [apply two_decimals_first; assumption|].
  apply first_match_cat with (c1 := cs); [apply first_match_chr; reflexivity|].
  apply first_match_cat with (c1 := cs); [apply two_decimals_first; assumption|].
  apply first_match_eps.
Qed.

Lemma time_first_match (hh : str) (m1 m2 s1 s2 : char) (rest : str) (cs : caps) :
  decimals hh -> List.length hh = 1 \/ List.length hh = 2 ->
  decimals [m1; m2; s1; s2] ->
  first_match
    (Grp 2 (seq [ times isdecimal 1 2; lit (chr ":"); times isdecimal 2 2;
                  lit (chr ":"); times isdecimal 2 2 ]))
    (time_token hh m1 m2 s1 s2) rest cs ((2, time_token hh m1 m2 s1 s2) :: cs).
Proof.
  intros Hh Hl H.
  inversion H as [|? ? Hm1 H1]; subst. inversion H1 as [|? ? Hm2 H2]; subst.
  inversion H2 as [|? ? Hs1 H3]; subst. inversion H3 as [|? ? Hs2 _]; subst.
  apply first_match_grp.
  change (time_token hh m1 m2 s1 s2)
    with (hh ++ [chr ":"] ++ [m1; m2] ++ [chr ":"] ++ [s1; s2] ++ []).
  unfold seq, fold_right.
  apply first_match_cat with (c1 := cs).
  { apply first_match_rep.
    - exact Hh.
    - lia.
    - lia.
    - right. right. eexists. eexists. split; reflexivity. }
  apply first_match_cat with (c1 := cs); [apply first_match_chr; reflexivity|].
  apply first_match_cat with (c1 := cs); [apply two_decimals_first; assumption|].
  apply first_match_cat with (c1 := cs); [apply first_match_chr; reflexivity|].
  apply first_match_cat with (c1 := cs); [apply two_decimals_first; assumption|].
  apply first_match_eps.
Qed.

Lemma group3_first_match (x : char) (r : str) (cs : caps) :
  N.eqb NNBSP x = false ->
  first_match (Grp 3 (alt [ lit NNBSP; Eps ])) [] (x :: r) cs ((3, []) :: cs).
Proof.
  intros H A k a Hk. cbn [alt lit exec app]. rewrite H. exact Hk.
Qed.

Lemma group4_first_match (mer rest : str) (cs : caps) :
  In mer meridiems \/ (mer = [] /\ exists r, rest = chr "]" :: r) ->
  first_match
    (Grp 4 (alt [ istring "AM"; istring "PM"; istring "am"; istring "pm"; Eps ]))
    mer rest cs ((4, mer) :: cs).
Proof.
  intros [H|[-> [r ->]]].
  - unfold meridiems in H. simpl in H.
    repeat (destruct H as [<-|H];
            [intros A k a Hk; cbn;
             match goal with
             | |- match ?X with _ => _ end = _ =>
                 replace X with (Some a) by (symmetry; exact Hk)
             end; reflexivity|]).
    destruct H.
  - intros A k a Hk. cbn. exact Hk.
Qed.

(** What follows the white space after the time: a meridiem, or the closing
    bracket at once. *)
Lemma after_time_head (mer w3 tail : str) :
  In mer meridiems \/ (mer = [] /\ w3 = []) ->
  exists x r,
    mer ++ w3 ++ chr "]" :: tail = x :: r
    /\ isspace x = false /\ N.eqb NNBSP x = false.
Proof.
  intros [H|[-> ->]].
  - unfold meridiems in H. simpl in H.
    repeat (destruct H as [<-|H];
            [eexists; eexists; split; [reflexivity|split; reflexivity]|]).
    destruct H.
  - eexists. eexists. split; [reflexivity|split; reflexivity].
Qed.

Lemma pattern_in_two :
  WA_MESSAGE_START_PATTERN = fold_right Cat sender_and_body stamp_items.
Proof. reflexivity. Qed.

(** The pattern up to the closing bracket, in front of whatever [R] the
    rest of the pattern is. *)
Lemma stamp_first_match (R : regex) (a b c d e f : char) (w1 hh : str)
  (m1 m2 s1 s2 : char) (w2 mer w3 tail rest : str) (cs : caps) :
  decimals [a; b; c; d; e; f] ->
  decimals hh -> List.length hh = 1 \/ List.length hh = 2 ->
  decimals [m1; m2; s1; s2] ->
  spaces w1 -> spaces w2 -> spaces w3 ->
  In mer meridiems \/ (mer = [] /\ w3 = []) ->
  let date := date_token a b c d e f in
  let time := time_token hh m1 m2 s1 s2 in
  first_match R tail rest [ (4, mer); (3, []); (2, time); (1, date) ] cs ->
  first_match (fold_right Cat R stamp_items)
    (u "[" ++ date ++ u "," ++ w1 ++ time ++ w2 ++ [] ++ mer ++ w3 ++ u "]"
     ++ tail)
    rest [] cs.
Proof.
  intros Hd Hh Hl Ht H1 H2 H3 Hm date time HR.
  unfold stamp_items, fold_right.
  apply first_match_cat with (c1 := []); [apply first_match_chr; reflexivity|].
  apply first_match_cat with (c1 := [(1, date)]);
    [apply date_first_match; exact Hd|].
  apply first_match_cat with (c1 := [(1, date)]);
    [apply first_match_chr; reflexivity|].
  assert (Hh1 : exists h r, hh = h :: r /\ isspace h = false).
  { destruct hh as [|h r]; [simpl in Hl; lia|]. exists h, r.
    split; [reflexivity|]. inversion Hh; subst. apply decimal_not_space.
    assumption. }
  apply first_match_cat with (c1 := [(1, date)]).
  { apply first_match_rep; [exact H1|lia|exact I|].
    right. right. destruct Hh1 as [h [r [-> Hs]]].
    eexists. eexists. split; [reflexivity|exact Hs]. }
  apply first_match_cat with (c1 := [(2, time); (1, date)]);
    [apply time_first_match; assumption|].
  destruct (@after_time_head mer w3 (tail ++ rest) Hm) as [x [r [Ex [Hx Hn]]]].
  assert (Eafter : (mer ++ w3 ++ u "]" ++ tail) ++ rest = x :: r).
  { rewrite <- Ex, <- !app_assoc. reflexivity. }
  apply first_match_cat with (c1 := [(2, time); (1, date)]).
  { apply first_match_rep; [exact H2|lia|exact I|].
    right. right. exists x, r. split; [|exact Hx].
    cbn [app]. exact Eafter. }
  apply first_match_cat with (c1 := [(3, []); (2, time); (1, date)]).
  { rewrite Eafter. apply group3_first_match. exact Hn. }
  apply first_match_cat with (c1 := [(4, mer); (3, []); (2, time); (1, date)]).
  { apply group4_first_match. destruct Hm as [Hm|[-> ->]]; [left; exact Hm|].
    right. split; [reflexivity|]. eexists. reflexivity. }
  apply first_match_cat with (c1 := [(4, mer); (3, []); (2, time); (1, date)]).
  { apply first_match_rep; [exact H3|lia|exact I|].
    right. right. eexists. eexists. split; reflexivity. }
  apply first_match_cat with (c1 := [(4, mer); (3, []); (2, time); (1, date)]);
    [apply first_match_chr; reflexivity|].
  exact HR.
Qed.

Lemma strip_meridiem (mer : str) :
  In mer meridiems -> nonempty mer = true /\ strip mer = mer.
Proof.
  unfold meridiems. simpl. intros H.
  repeat (destruct H as [<-|H]; [split; reflexivity|]). destruct H.
Qed.

(** A line of the shape of a header is a header, and these are its
    fields. *)
Lemma classify_header_line (a b c d e f : char) (w1 hh : str)
  (m1 m2 s1 s2 : char) (w2 mer w3 field body : str) :
  decimals [a; b; c; d; e; f] ->
  decimals hh -> List.length hh = 1 \/ List.length hh = 2 ->
  decimals [m1; m2; s1; s2] ->
  spaces w1 -> spaces w2 -> spaces w3 ->
  In mer meridiems \/ (mer = [] /\ w3 = []) ->
  field <> [] -> no_colon field ->
  let date := date_token a b c d e f in
  let time := time_token hh m1 m2 s1 s2 in
  classify (header_line date w1 time w2 mer w3 field body)
  = Some {| DateTimeStr := date ++ u " " ++ time ++ mer;
            Sender := strip field;
            Message := strip (first_line body) |}.
Proof.
  intros Hd Hh Hl Ht H1 H2 H3 Hm Hf Hc date time.
  destruct (@sender_first_match field body
              [ (4, mer); (3, []); (2, time); (1, date) ] Hf Hc)
    as [g5 [Hg5 Htail]].
  pose proof (@stamp_first_match sender_and_body a b c d e f w1 hh m1 m2 s1 s2
                w2 mer w3 _ _ _ Hd Hh Hl Ht H1 H2 H3 Hm Htail) as Hall.
  rewrite <- pattern_in_two in Hall.
  apply first_match_re_match in Hall.
  unfold classify.
  replace (header_line date w1 time w2 mer w3 field body)
    with ((u "[" ++ date_token a b c d e f ++ u "," ++ w1
           ++ time_token hh m1 m2 s1 s2 ++ w2 ++ [] ++ mer ++ w3 ++ u "]"
           ++ field ++ u ":" ++ take_while isspace body ++ first_line body ++ [])
          ++ drop_while dot (lstrip body)).
  - rewrite Hall. unfold new_message. cbn [group Nat.eqb fst snd].
    f_equal. rewrite Hg5. f_equal.
    destruct Hm as [Hm|[-> _]].
    + destruct (@strip_meridiem mer Hm) as [-> ->]. reflexivity.
    + cbn [nonempty]. reflexivity.
  - unfold header_line, date, time. rewrite <- !app_assoc. cbn [app].
    do 11 f_equal. unfold first_line.
    rewrite <- take_drop_while, <- drop_while_isspace.
    symmetry. apply take_drop_while.
Qed.

Lemma two_of_rep (p : char -> bool) (m : str) (c c' : caps) :
  matches (times p 2 2) m c c' ->
  exists x y, m = [x; y] /\ p x = true /\ p y = true /\ c' = c.
Proof.
  cbn [times matches]. intros [[H [H1 H2]] ->].
  destruct m as [|x [|y [|z m]]]; simpl in H1, H2; try lia.
  inversion H as [|? ? Hx H']; subst. inversion H' as [|? ? Hy _]; subst.
  exists x, y. auto.
Qed.

Lemma char_of_lit (ch : char) (m : str) (c c' : caps) :
  matches (lit ch) m c c' -> m = [ch] /\ c' = c.
Proof.
  cbn [lit matches]. intros [[x [-> H]] ->]. apply N.eqb_eq in H.
  subst x. auto.
Qed.

Lemma matches_date (m : str) (cs cs' : caps) :
  matches (seq [ times isdecimal 2 2; lit (chr "/"); times isdecimal 2 2;
                 lit (chr "/"); times isdecimal 2 2 ]) m cs cs' ->
  exists a b c d e f,
    m = date_token a b c d e f /\ decimals [a; b; c; d; e; f] /\ cs' = cs.
Proof.
  unfold seq, fold_right. intros H.
  destruct H as [p1 [r1 [c1 [-> [H1 H]]]]].
  destruct H as [p2 [r2 [c2 [-> [H2 H]]]]].
  destruct H as [p3 [r3 [c3 [-> [H3 H]]]]].
  destruct H as [p4 [r4 [c4 [-> [H4 H]]]]].
  destruct H as [p5 [r5 [c5 [-> [H5 [-> ->]]]]]].
  apply two_of_rep in H1. destruct H1 as [a [b [-> [Ha [Hb ->]]]]].
  apply char_of_lit in H2. destruct H2 as [-> ->].
  apply two_of_rep in H3. destruct H3 as [c [d [-> [Hc [Hd ->]]]]].
  apply char_of_lit in H4. destruct H4 as [-> ->].
  apply two_of_rep in H5. destruct H5 as [e [f [-> [He [Hf ->]]]]].
  exists a, b, c, d, e, f. split; [reflexivity|]. split; [|reflexivity].
  repeat constructor; assumption.
Qed.

Lemma matches_time (m : str) (cs cs' : caps) :
  matches (seq [ times isdecimal 1 2; lit (chr ":"); times isdecimal 2 2;
                 lit (chr ":"); times isdecimal 2 2 ]) m cs cs' ->
  exists hh m1 m2 s1 s2,
    m = time_token hh m1 m2 s1 s2 /\ decimals hh
    /\ (List.length hh = 1 \/ List.length hh = 2)
    /\ decimals [m1; m2; s1; s2] /\ cs' = cs.
Proof.
  unfold seq, fold_right. intros H.
  destruct H as [p1 [r1 [c1 [-> [H1 H]]]]].
  destruct H as [p2 [r2 [c2 [-> [H2 H]]]]].
  destruct H as [p3 [r3 [c3 [-> [H3 H]]]]].
  destruct H as [p4 [r4 [c4 [-> [H4 H]]]]].
  destruct H as [p5 [r5 [c5 [-> [H5 [-> ->]]]]]].
  cbn [times matches] in H1. destruct H1 as [[Hh [L1 L2]] ->].
  apply char_of_lit in H2. destruct H2 as [-> ->].
  apply two_of_rep in H3. destruct H3 as [m1 [m2 [-> [Hm1 [Hm2 ->]]]]].
  apply char_of_lit in H4. destruct H4 as [-> ->].
  apply two_of_rep in H5. destruct H5 as [s1 [s2 [-> [Hs1 [Hs2 ->]]]]].
  exists p1, m1, m2, s1, s2. split; [reflexivity|]. split; [exact Hh|].
  split; [lia|]. split; [|reflexivity]. repeat constructor; assumption.
Qed.

Lemma ieq_cases (p x : char) :
  (ascii_lower p =? 107)%N = false -> (ascii_lower p =? 105)%N = false ->
  (ascii_lower p =? 115)%N = false ->
  (97 <= ascii_lower p <= 122)%N ->
  ieq p x = true -> x = ascii_lower p \/ x = (ascii_lower p - 32)%N.
Proof.
  intros H1 H2 H3 Hr H. apply ieq_letter in H; try assumption.
  unfold ascii_lower in H at 1.
  destruct ((65 <=? x)%N && (x <=? 90)%N) eqn:E.
  - right. lia.
  - left. exact H.
Qed.

Lemma matches_meridiem (m : str) (cs cs' : caps) :
  matches (alt [ istring "AM"; istring "PM"; istring "am"; istring "pm"; Eps ])
    m cs cs' ->
  (In m meridiems \/ m = []) /\ cs' = cs.
Proof.
  unfold istring, ilit.
  cbn [matches alt seq fold_right map u list_ascii_of_string].
  intros H. break_match; split; try reflexivity; try (right; reflexivity);
    left;
    repeat match goal with
           | H : ieq _ _ = true |- _ =>
               apply ieq_cases in H;
               [destruct H as [H|H]; vm_compute in H; subst
               |reflexivity|reflexivity|reflexivity|vm_compute; split; discriminate]
           end;
    vm_compute; tauto.
Qed.
Lemma spaces_no_colon (w : str) : spaces w -> no_colon w.
Proof.
  unfold spaces, no_colon. intros H. eapply Forall_impl; [|exact H].
  intros x Hx. unfold not_char.
  destruct (N.eqb (chr ":") x) eqn:E; [|reflexivity].
  apply N.eqb_eq in E. subst x. discriminate Hx.
Qed.

(** Every header has the shape of a header line, and its fields are those of
    the shape. *)
Lemma classify_shape (line : str) (msg : RawMessage) :
  classify line = Some msg ->
  exists a b c d e f w1 hh m1 m2 s1 s2 w2 mer w3 field body,
    decimals [a; b; c; d; e; f]
    /\ decimals hh /\ (List.length hh = 1 \/ List.length hh = 2)
    /\ decimals [m1; m2; s1; s2]
    /\ spaces w1 /\ spaces w2 /\ spaces w3
    /\ (In mer meridiems \/ (mer = [] /\ w3 = []))
    /\ field <> [] /\ no_colon field
    /\ line = header_line (date_token a b c d e f) w1
                (time_token hh m1 m2 s1 s2) w2 mer w3 field body
    /\ msg = {| DateTimeStr := date_token a b c d e f ++ u " "
                               ++ time_token hh m1 m2 s1 s2 ++ mer;
                Sender := strip field;
                Message := strip (first_line body) |}.
Proof.
  intros Hc. pose proof Hc as Hc'. unfold classify in Hc'.
  destruct (re_match WA_MESSAGE_START_PATTERN line) as [[cs rest]|] eqn:E;
    [|discriminate].
  clear Hc'. apply re_match_sound in E. destruct E as [m [Hline Hm]].
  rewrite pattern_in_two in Hm. unfold stamp_items, sender_and_body in Hm.
  unfold seq at 3 in Hm. cbn [fold_right] in Hm.
  destruct Hm as [p1 [r1 [c1 [-> [H1 H]]]]].
  destruct H as [p2 [r2 [c2 [-> [H2 H]]]]].
  destruct H as [p3 [r3 [c3 [-> [H3 H]]]]].
  destruct H as [p4 [r4 [c4 [-> [H4 H]]]]].
  destruct H as [p5 [r5 [c5 [-> [H5 H]]]]].
  destruct H as [p6 [r6 [c6 [-> [H6 H]]]]].
  destruct H as [p7 [r7 [c7 [-> [H7 H]]]]].
  destruct H as [p8 [r8 [c8 [-> [H8 H]]]]].
  destruct H as [p9 [r9 [c9 [-> [H9 H]]]]].
  destruct H as [p10 [r10 [c10 [-> [H10 H]]]]].
  destruct H as [p11 [r11 [c11 [-> [H11 H]]]]].
  destruct H as [p12 [r12 [c12 [-> [H12 H]]]]].
  destruct H as [p13 [r13 [c13 [-> [H13 H]]]]].
  destruct H as [p14 [r14 [c14 [-> [H14 H]]]]].
  destruct H as [p15 [r15 [c15 [-> [H15 [-> _]]]]]].
  apply char_of_lit in H1. destruct H1 as [-> _].
  destruct H2 as [c1' [H2 _]]. apply matches_date in H2.
  destruct H2 as [a [b [c [d [e [f [-> [Hd _]]]]]]]].
  apply char_of_lit in H3. destruct H3 as [-> _].
  cbn [star matches] in H4. destruct H4 as [[Hw1 _] _].
  destruct H5 as [c5' [H5 _]]. apply matches_time in H5.
  destruct H5 as [hh [m1 [m2 [s1 [s2 [-> [Hh [Hl [Ht _]]]]]]]]].
  cbn [star matches] in H6. destruct H6 as [[Hw2 _] _].
  destruct H7 as [c7' [H7 _]]. cbn [alt matches] in H7.
  assert (Hg3 : spaces p7).
  { destruct H7 as [H7|[-> _]]; [|constructor].
    apply char_of_lit in H7. destruct H7 as [-> _].
    repeat constructor. }
  destruct H8 as [c8' [H8 _]]. apply matches_meridiem in H8.
  destruct H8 as [Hmer _].
  cbn [star matches] in H9. destruct H9 as [[Hw3 _] _].
  apply char_of_lit in H10. destruct H10 as [-> _].
  cbn [star matches] in H11. destruct H11 as [[Hw4 _] _].
  destruct H12 as [c12' [H12 _]]. cbn [plus matches] in H12.
  destruct H12 as [[Hg5 [Lg5 _]] _].
  apply char_of_lit in H13. destruct H13 as [-> _].
  set (date := date_token a b c d e f) in *.
  set (time := time_token hh m1 m2 s1 s2) in *.
  set (field := p11 ++ p12).
  set (body := p14 ++ p15 ++ rest).
  assert (Hf : field <> []).
  { unfold field. destruct p12; [simpl in Lg5; lia|].
    intros Hx. apply app_eq_nil in Hx. destruct Hx. discriminate. }
  assert (Hnc : no_colon field).
  { unfold field. apply Forall_app. split; [apply spaces_no_colon, Hw4|exact Hg5]. }
  destruct Hmer as [Hmer| ->].
  - (* with a meridiem *)
    assert (Hs : spaces (p6 ++ p7)) by (apply Forall_app; split; assumption).
    assert (El : line = header_line date p4 time (p6 ++ p7) p8 p9 field body).
    { rewrite Hline. unfold header_line, field, body.
      rewrite <- !app_assoc. reflexivity. }
    exists a, b, c, d, e, f, p4, hh, m1, m2, s1, s2, (p6 ++ p7), p8, p9, field, body.
    repeat (split; [assumption|]). split; [left; exact Hmer|].
    repeat (split; [assumption|]).
    pose proof (@classify_header_line a b c d e f p4 hh m1 m2 s1 s2 (p6 ++ p7)
                  p8 p9 field body Hd Hh Hl Ht Hw1 Hs Hw3 (or_introl Hmer) Hf Hnc)
      as Hk.
    cbv zeta in Hk.
    assert (E2 : Some msg = Some _) by (rewrite <- Hc, El; exact Hk).
    injection E2 as ->. reflexivity.
  - (* without *)
    assert (Hs : spaces (p6 ++ p7 ++ p9)).
    { apply Forall_app; split; [assumption|].
      apply Forall_app; split; assumption. }
    assert (El : line = header_line date p4 time (p6 ++ p7 ++ p9) [] [] field body).
    { rewrite Hline. unfold header_line, field, body.
      rewrite <- !app_assoc. reflexivity. }
    exists a, b, c, d, e, f, p4, hh, m1, m2, s1, s2, (p6 ++ p7 ++ p9), [], [],
      field, body.
    repeat (split; [assumption|]). split; [constructor|].
    split; [right; split; reflexivity|].
    repeat (split; [assumption|]).
    pose proof (@classify_header_line a b c d e f p4 hh m1 m2 s1 s2
                  (p6 ++ p7 ++ p9) [] [] field body Hd Hh Hl Ht Hw1 Hs
                  (Forall_nil _) (or_intror (conj eq_refl eq_refl)) Hf Hnc)
      as Hk.
    cbv zeta in Hk.
    assert (E2 : Some msg = Some _) by (rewrite <- Hc, El; exact Hk).
    injection E2 as ->. reflexivity.
Qed.
(** ** More on the line classifier and the assembler *)

(** X1. A line made of an opening bracket, a date of three pairs of digits,
    a comma, a time of one or two digits and two pairs, then a meridiem in
    any case or none, a closing bracket, a text without colon that is not
    empty, a colon and a body, with white space where the pattern allows it,
    is a header: its timestamp string is the date, one space, the time and the
    meridiem right after it, its sender the text before the colon stripped,
    its message the first line of the body stripped. *)
Theorem header_line_is_a_header :
  forall (a b c d e f : char) (w1 hh : str) (m1 m2 s1 s2 : char)
         (w2 mer w3 field body : str),
    decimals [a; b; c; d; e; f] ->
    decimals hh -> List.length hh = 1 \/ List.length hh = 2 ->
    decimals [m1; m2; s1; s2] ->
    spaces w1 -> spaces w2 -> spaces w3 ->
    In mer meridiems \/ (mer = [] /\ w3 = []) ->
    field <> [] -> no_colon field ->
    classify (header_line (date_token a b c d e f) w1
                (time_token hh m1 m2 s1 s2) w2 mer w3 field body)
    = Some {| DateTimeStr := date_token a b c d e f ++ u " "
                             ++ time_token hh m1 m2 s1 s2 ++ mer;
              Sender := strip field;
              Message := strip (first_line body) |}.
Proof.
  intros a b c d e f w1 hh m1 m2 s1 s2 w2 mer w3 field body
    Hd Hh Hl Ht H1 H2 H3 Hm Hf Hc.
  exact (@classify_header_line a b c d e f w1 hh m1 m2 s1 s2 w2 mer w3 field
           body Hd Hh Hl Ht H1 H2 H3 Hm Hf Hc).
Qed.

Lemma header_line_is_a_header_witness :
  classify (u "[01/01/23, 11:32:05" ++ [NNBSP] ++ u "PM]   : Hello there")
  = Some {| DateTimeStr := u "01/01/23 11:32:05PM";
            Sender := [];
            Message := u "Hello there" |}.
Proof.
  apply (@header_line_is_a_header
           (chr "0") (chr "1") (chr "0") (chr "1") (chr "2") (chr "3")
           (u " ") (u "11") (chr "3") (chr "2") (chr "0") (chr "5")
           [NNBSP] (u "PM") [] (u "   ") (u " Hello there")).
  - repeat constructor.
  - repeat constructor.
  - right. reflexivity.
  - repeat constructor.
  - repeat constructor.
  - repeat constructor.
  - constructor.
  - left. vm_compute. tauto.
  - discriminate.
  - repeat constructor.
Defined.
(** X2. Conversely, every line the classifier takes for a header has that
    shape, and the fields of the header are those of the shape: the pattern
    accepts no other line, and the order in which it tries its alternatives
    never changes what the groups hold. *)
Theorem header_is_a_header_line :
  forall (line : str) (msg : RawMessage),
    classify line = Some msg ->
    exists a b c d e f w1 hh m1 m2 s1 s2 w2 mer w3 field body,
      decimals [a; b; c; d; e; f]
      /\ decimals hh /\ (List.length hh = 1 \/ List.length hh = 2)
      /\ decimals [m1; m2; s1; s2]
      /\ spaces w1 /\ spaces w2 /\ spaces w3
      /\ (In mer meridiems \/ (mer = [] /\ w3 = []))
      /\ field <> [] /\ no_colon field
      /\ line = header_line (date_token a b c d e f) w1
                  (time_token hh m1 m2 s1 s2) w2 mer w3 field body
      /\ msg = {| DateTimeStr := date_token a b c d e f ++ u " "
                                 ++ time_token hh m1 m2 s1 s2 ++ mer;
                  Sender := strip field;
                  Message := strip (first_line body) |}.
Proof.
  intros line msg H. exact (@classify_shape line msg H).
Qed.

Lemma header_is_a_header_line_witness :
  exists a b c d e f w1 hh m1 m2 s1 s2 w2 mer w3 field body,
    decimals [a; b; c; d; e; f]
    /\ decimals hh /\ (List.length hh = 1 \/ List.length hh = 2)
    /\ decimals [m1; m2; s1; s2]
    /\ spaces w1 /\ spaces w2 /\ spaces w3
    /\ (In mer meridiems \/ (mer = [] /\ w3 = []))
    /\ field <> [] /\ no_colon field
    /\ scenario_nnbsp
       = header_line (date_token a b c d e f) w1
           (time_token hh m1 m2 s1 s2) w2 mer w3 field body
    /\ mkRaw (u "01/01/23 11:32:05PM") (u "Alice") (u "Hello there")
       = {| DateTimeStr := date_token a b c d e f ++ u " "
                           ++ time_token hh m1 m2 s1 s2 ++ mer;
            Sender := strip field;
            Message := strip (first_line body) |}.
Proof.
  apply (@header_is_a_header_line scenario_nnbsp
           (mkRaw (u "01/01/23 11:32:05PM") (u "Alice") (u "Hello there"))).
  vm_compute. reflexivity.
Defined.

Lemma lstrip_snoc (l : str) (c : char) :
  isspace c = false -> lstrip (l ++ [c]) = lstrip l ++ [c].
Proof.
  intros H. induction l as [|x l IH]; simpl.
  - rewrite H. reflexivity.
  - destruct (isspace x); [exact IH|reflexivity].
Qed.

Lemma rstrip_cons (c : char) (t : str) :
  isspace c = false -> rstrip (c :: t) = c :: rstrip t.
Proof.
  intros H. unfold rstrip. simpl. rewrite (lstrip_snoc _ _ H).
  rewrite rev_app_distr. reflexivity.
Qed.

Lemma lstrip_head (s : str) :
  lstrip s = [] \/ exists c t, lstrip s = c :: t /\ isspace c = false.
Proof.
  induction s as [|x s IH]; simpl; [left; reflexivity|].
  destruct (isspace x) eqn:E; [exact IH|].
  right. exists x, s. auto.
Qed.

Lemma strip_head (s : str) :
  strip s = [] \/ exists c t, strip s = c :: t /\ isspace c = false.
Proof.
  unfold strip. destruct (lstrip_head s) as [->|[c [t [-> H]]]].
  - left. reflexivity.
  - right. exists c, (rstrip t). split; [apply rstrip_cons, H|exact H].
Qed.

Lemma rstrip_rstrip (s : str) : rstrip (rstrip s) = rstrip s.
Proof.
  unfold rstrip. rewrite rev_involutive, lstrip_lstrip. reflexivity.
Qed.

(** Stripping twice is stripping once. *)
Lemma strip_strip (s : str) : strip (strip s) = strip s.
Proof.
  destruct (strip_head s) as [E|[c [t [E H]]]].
  - rewrite E. reflexivity.
  - unfold strip at 1. rewrite E. simpl. rewrite H.
    rewrite <- E. unfold strip. apply rstrip_rstrip.
Qed.

Lemma lstrip_all (P : char -> Prop) (s : str) : Forall P s -> Forall P (lstrip s).
Proof. rewrite <- drop_while_isspace. apply drop_while_all. Qed.

Lemma strip_all (P : char -> Prop) (s : str) : Forall P s -> Forall P (strip s).
Proof.
  intros H. unfold strip, rstrip. apply Forall_rev, lstrip_all, Forall_rev.
  apply lstrip_all, H.
Qed.

Lemma decimals_not_space (s : str) :
  decimals s -> Forall (fun x => isspace x = false) s.
Proof.
  intros H. eapply Forall_impl; [|exact H]. intros x. apply decimal_not_space.
Qed.

Lemma meridiem_not_space (mer : str) :
  In mer meridiems \/ mer = [] -> Forall (fun x => isspace x = false) mer.
Proof.
  intros [H| ->]; [|constructor].
  unfold meridiems in H. simpl in H.
  repeat (destruct H as [<-|H]; [repeat constructor|]). destruct H.
Qed.
Lemma step_opened_by (L : list str) (st : parse_state) (line : str) :
  In line L ->
  (forall m, In m (flush st) -> opened_by L m) ->
  forall m, In m (flush (parse_chat_step st line)) -> opened_by L m.
Proof.
  intros Hl Hst m Hm. unfold parse_chat_step in Hm.
  destruct (classify line) as [h|] eqn:E.
  - unfold flush in Hm at 1. cbn [fst snd] in Hm.
    apply in_app_or in Hm. destruct Hm as [Hm|[<-|[]]]; [exact (Hst m Hm)|].
    exists line, h, []. rewrite app_nil_r. destruct h. auto.
  - destruct st as [data [cur|]]; unfold flush in Hm, Hst; cbn [fst snd] in *.
    + apply in_app_or in Hm. destruct Hm as [Hm|[<-|[]]].
      * apply Hst, in_or_app. left. exact Hm.
      * destruct (Hst cur) as [l0 [h [more [H1 [H2 H3]]]]].
        { apply in_or_app. right. left. reflexivity. }
        exists l0, h, (more ++ LF ++ strip line).
        split; [exact H1|]. split; [exact H2|].
        subst cur. unfold append_line. cbn [DateTimeStr Sender Message].
        rewrite <- app_assoc. reflexivity.
    + exact (Hst m Hm).
Qed.

Lemma loop_opened_by (L : list str) (lines : list str) :
  forall st,
    incl lines L ->
    (forall m, In m (flush st) -> opened_by L m) ->
    forall m, In m (flush (fold_left parse_chat_step lines st)) -> opened_by L m.
Proof.
  induction lines as [|line lines IH]; intros st Hi Hst; [exact Hst|].
  cbn [fold_left]. apply IH.
  - intros x Hx. apply Hi. right. exact Hx.
  - apply step_opened_by; [apply Hi; left; reflexivity|exact Hst].
Qed.

Lemma parse_chat_opened_by (text : str) (m : RawMessage) :
  In m (parse_chat text) -> opened_by (splitlines text) m.
Proof.
  unfold parse_chat. apply loop_opened_by.
  - apply incl_refl.
  - intros x [].
Qed.

(** X3. Every message that [parse_chat] emits was opened by a header line of
    the text: it has the timestamp string and the sender of that header, and
    its body starts with the message of the header; no message comes from
    anything else, and continuation lines change the body only. *)
Theorem parse_chat_messages_come_from_headers :
  forall (text : str) (m : RawMessage),
    In m (parse_chat text) ->
    exists line h more,
      In line (splitlines text) /\ classify line = Some h
      /\ m = {| DateTimeStr := DateTimeStr h;
                Sender := Sender h;
                Message := Message h ++ more |}.
Proof.
  intros text m H. exact (parse_chat_opened_by text m H).
Qed.

Lemma parse_chat_messages_come_from_headers_witness :
  exists line h more,
    In line (splitlines scenario) /\ classify line = Some h
    /\ mkRaw (u "01/01/23 9:05:00PM") (u "Alice")
         (u "Hello there" ++ LF ++ u "How are you?")
       = {| DateTimeStr := DateTimeStr h;
            Sender := Sender h;
            Message := Message h ++ more |}.
Proof.
  apply (@parse_chat_messages_come_from_headers scenario
           (mkRaw (u "01/01/23 9:05:00PM") (u "Alice")
              (u "Hello there" ++ LF ++ u "How are you?"))).
  vm_compute. left. reflexivity.
Defined.

Lemma header_fields_well_formed (line : str) (h : RawMessage) :
  classify line = Some h ->
  no_colon (Sender h) /\ strip (Sender h) = Sender h
  /\ strip (Message h) = Message h
  /\ exists date clock,
       DateTimeStr h = date ++ u " " ++ clock
       /\ List.length date = 8 /\ nonspace date /\ nonspace clock.
Proof.
  intros H. apply classify_shape in H.
  destruct H as [a [b [c [d [e [f [w1 [hh [m1 [m2 [s1 [s2 [w2 [mer [w3
    [field [body H]]]]]]]]]]]]]]]]].
  destruct H as [Hd [Hh [Hl [Ht [_ [_ [_ [Hm [_ [Hc [_ ->]]]]]]]]]]].
  cbn [Sender Message DateTimeStr].
  split; [apply strip_all, Hc|]. split; [apply strip_strip|].
  split; [apply strip_strip|].
  exists (date_token a b c d e f), (time_token hh m1 m2 s1 s2 ++ mer).
  split; [reflexivity|]. split; [reflexivity|].
  inversion Hd as [|? ? Ha D1]; subst. inversion D1 as [|? ? Hb D2]; subst.
  inversion D2 as [|? ? Hc' D3]; subst. inversion D3 as [|? ? Hd' D4]; subst.
  inversion D4 as [|? ? He D5]; subst. inversion D5 as [|? ? Hf _]; subst.
  inversion Ht as [|? ? Hm1 T1]; subst. inversion T1 as [|? ? Hm2 T2]; subst.
  inversion T2 as [|? ? Hs1 T3]; subst. inversion T3 as [|? ? Hs2 _]; subst.
  split.
  - unfold nonspace, date_token.
    repeat constructor; try (apply decimal_not_space; assumption).
  - unfold nonspace, time_token. apply Forall_app. split.
    + apply Forall_app. split; [apply decimals_not_space, Hh|].
      repeat constructor; try (apply decimal_not_space; assumption).
    + apply meridiem_not_space. tauto.
Qed.

(** X4. In every message that [parse_chat] emits, the sender has no colon
    and no white space around it, and the timestamp string is eight
    characters of date, one space, and a clock part, with no white space
    inside the date or the clock part: whatever white space the line had
    around the time and before the meridiem, the narrow no-break space
    included, is not in it. *)
Theorem parse_chat_fields_well_formed :
  forall (text : str) (m : RawMessage),
    In m (parse_chat text) ->
    no_colon (Sender m) /\ strip (Sender m) = Sender m
    /\ exists date clock,
         DateTimeStr m = date ++ u " " ++ clock
         /\ List.length date = 8 /\ nonspace date /\ nonspace clock.
Proof.
  intros text m H. apply parse_chat_opened_by in H.
  destruct H as [line [h [more [_ [Hh ->]]]]].
  cbn [Sender DateTimeStr].
  destruct (header_fields_well_formed line Hh) as [H1 [H2 [_ H3]]].
  auto.
Qed.

Lemma parse_chat_fields_well_formed_witness :
  no_colon (u "Alice") /\ strip (u "Alice") = u "Alice"
  /\ exists date clock,
       u "01/01/23 11:32:05PM" = date ++ u " " ++ clock
       /\ List.length date = 8 /\ nonspace date /\ nonspace clock.
Proof.
  apply (@parse_chat_fields_well_formed scenario_nnbsp
           (mkRaw (u "01/01/23 11:32:05PM") (u "Alice") (u "Hello there"))).
  vm_compute. left. reflexivity.
Defined.
(** ** Lines *)

Lemma splitlines_from_spec (n : nat) :
  forall (s cur : str),
    List.length s <= n ->
    Forall (fun c => is_linebreak c = false) cur ->
    Forall (Forall (fun c => is_linebreak c = false)) (splitlines_from cur s)
    /\ List.concat (splitlines_from cur s)
       = rev cur ++ filter (fun c => negb (is_linebreak c)) s.
Proof.
  induction n as [|n IH]; intros s cur Hn Hcur.
  - destruct s; [|simpl in Hn; lia].
    destruct cur as [|c cur]; cbn [splitlines_from List.concat filter].
    + split; [constructor|reflexivity].
    + split; [constructor; [apply Forall_rev, Hcur|constructor]|reflexivity].
  - destruct s as [|c s].
    + destruct cur as [|c cur]; cbn [splitlines_from List.concat filter].
      * split; [constructor|reflexivity].
      * split; [constructor; [apply Forall_rev, Hcur|constructor]|reflexivity].
    + simpl in Hn. cbn [splitlines_from filter].
      destruct (is_linebreak c) eqn:Ec; cbn [negb].
      * assert (Hrest : forall t, List.length t <= n ->
                  Forall (Forall (fun c => is_linebreak c = false))
                    (rev cur :: splitlines_from [] t)
                  /\ List.concat (rev cur :: splitlines_from [] t)
                     = rev cur ++ filter (fun c => negb (is_linebreak c)) t).
        { intros t Ht. destruct (IH t [] Ht (Forall_nil _)) as [F C].
          split; [constructor; [apply Forall_rev, Hcur|exact F]|].
          cbn [List.concat]. rewrite C. reflexivity. }
        destruct (N.eqb c 13); [|apply Hrest; lia].
        destruct s as [|d s']; [apply Hrest; simpl; lia|].
        destruct (N.eqb d 10) eqn:Ed; [|apply Hrest; lia].
        apply N.eqb_eq in Ed. subst d. cbn [filter].
        change (negb (is_linebreak 10%N)) with false. cbv iota.
        apply Hrest. simpl in Hn. lia.
      * destruct (IH s (c :: cur)) as [F C].
        { lia. }
        { constructor; assumption. }
        split; [exact F|]. rewrite C. cbn [rev]. rewrite <- app_assoc.
        reflexivity.
Qed.

(** The lines of a text hold no line boundary, and together they are the
    text without its boundaries. *)
Lemma splitlines_spec (text : str) :
  Forall (Forall (fun c => is_linebreak c = false)) (splitlines text)
  /\ List.concat (splitlines text) = filter (fun c => negb (is_linebreak c)) text.
Proof.
  unfold splitlines.
  exact (@splitlines_from_spec (List.length text) text [] (le_n _) (Forall_nil _)).
Qed.

Lemma take_while_whole (p : char -> bool) (s : str) :
  Forall (fun x => p x = true) s -> take_while p s = s.
Proof.
  induction 1 as [|x s Hx Hs IH]; simpl; [reflexivity|].
  rewrite Hx, IH. reflexivity.
Qed.

Lemma no_boundary_dot (s : str) :
  Forall (fun c => is_linebreak c = false) s -> Forall (fun x => dot x = true) s.
Proof.
  intros H. eapply Forall_impl; [|exact H]. intros x Hx. unfold dot, not_char.
  destruct (N.eqb 10 x) eqn:E; [|reflexivity].
  apply N.eqb_eq in E. subst x. discriminate Hx.
Qed.

(** X5. On a line of the text, the message of a header is the whole of what
    follows the colon after the sender, stripped: [splitlines] leaves no line
    feed in a line, so the last group of the pattern reaches the end of the
    line and nothing of the line is lost. *)
Theorem header_message_is_rest_of_line :
  forall (text : str) (a b c d e f : char) (w1 hh : str) (m1 m2 s1 s2 : char)
         (w2 mer w3 field body : str),
    decimals [a; b; c; d; e; f] ->
    decimals hh -> List.length hh = 1 \/ List.length hh = 2 ->
    decimals [m1; m2; s1; s2] ->
    spaces w1 -> spaces w2 -> spaces w3 ->
    In mer meridiems \/ (mer = [] /\ w3 = []) ->
    field <> [] -> no_colon field ->
    In (header_line (date_token a b c d e f) w1 (time_token hh m1 m2 s1 s2)
          w2 mer w3 field body) (splitlines text) ->
    classify (header_line (date_token a b c d e f) w1
                (time_token hh m1 m2 s1 s2) w2 mer w3 field body)
    = Some {| DateTimeStr := date_token a b c d e f ++ u " "
                             ++ time_token hh m1 m2 s1 s2 ++ mer;
              Sender := strip field;
              Message := strip body |}.
Proof.
  intros text a b c d e f w1 hh m1 m2 s1 s2 w2 mer w3 field body
    Hd Hh Hl Ht H1 H2 H3 Hm Hf Hc Hin.
  rewrite (@classify_header_line a b c d e f w1 hh m1 m2 s1 s2 w2 mer w3 field
             body Hd Hh Hl Ht H1 H2 H3 Hm Hf Hc).
  do 2 f_equal.
  destruct (splitlines_spec text) as [F _].
  rewrite Forall_forall in F. specialize (F _ Hin).
  unfold header_line in F.
  repeat (apply Forall_app in F; destruct F as [_ F]).
  unfold first_line.
  rewrite take_while_whole by (apply no_boundary_dot, lstrip_all, F).
  apply strip_lstrip.
Qed.

Lemma header_message_is_rest_of_line_witness :
  classify (u "[01/01/23, 9:05:00 PM] Alice: Hello there")
  = Some {| DateTimeStr := u "01/01/23 9:05:00PM";
            Sender := u "Alice";
            Message := u "Hello there" |}.
Proof.
  apply (@header_message_is_rest_of_line scenario
           (chr "0") (chr "1") (chr "0") (chr "1") (chr "2") (chr "3")
           (u " ") (u "9") (chr "0") (chr "5") (chr "0") (chr "0")
           (u " ") (u "PM") [] (u " Alice") (u " Hello there")).
  - repeat constructor.
  - repeat constructor.
  - left. reflexivity.
  - repeat constructor.
  - repeat constructor.
  - repeat constructor.
  - constructor.
  - left. vm_compute. tauto.
  - discriminate.
  - repeat constructor.
  - vm_compute. left. reflexivity.
Defined.

(** X6. The lines of a text hold no line boundary, and put end to end they
    are the text without its boundaries: [parse_chat] sees every other
    character of the file exactly once, in order. *)
Theorem lines_are_the_text_without_boundaries :
  forall text : str,
    Forall (Forall (fun c => is_linebreak c = false)) (splitlines text)
    /\ List.concat (splitlines text)
       = filter (fun c => negb (is_linebreak c)) text.
Proof. intros text. exact (splitlines_spec text). Qed.
Lemma flush_prefix (d0 d : list RawMessage) (cur : option RawMessage) :
  flush (d0 ++ d, cur) = d0 ++ flush (d, cur).
Proof.
  unfold flush. cbn [fst snd]. destruct cur; [symmetry; apply app_assoc|reflexivity].
Qed.

Lemma step_prefix (d0 d : list RawMessage) (cur : option RawMessage) (line : str) :
  parse_chat_step (d0 ++ d, cur) line
  = (d0 ++ fst (parse_chat_step (d, cur) line),
     snd (parse_chat_step (d, cur) line)).
Proof.
  unfold parse_chat_step. destruct (classify line); cbn [fst snd].
  - rewrite flush_prefix. reflexivity.
  - reflexivity.
Qed.

Lemma loop_prefix (d0 : list RawMessage) (lines : list str) :
  forall (d : list RawMessage) (cur : option RawMessage),
    fold_left parse_chat_step lines (d0 ++ d, cur)
    = (d0 ++ fst (fold_left parse_chat_step lines (d, cur)),
       snd (fold_left parse_chat_step lines (d, cur))).
Proof.
  induction lines as [|line lines IH]; intros d cur; cbn [fold_left].
  - reflexivity.
  - rewrite step_prefix.
    destruct (parse_chat_step (d, cur) line) as [d' cur'] eqn:E.
    cbn [fst snd]. apply IH.
Qed.

(** X7. A header line cuts the work of the assembler in two: the messages of
    the lines before it and the messages of the lines from it on are
    assembled independently of each other, and the output is the one list
    after the other. What comes before a header never changes a message that
    starts at it or after it. *)
Theorem assemble_splits_at_a_header :
  forall (before after : list str) (h : str),
    is_header h = true ->
    assemble (before ++ h :: after) = assemble before ++ assemble (h :: after).
Proof.
  intros before after h Hh. unfold assemble.
  rewrite fold_left_app. cbn [fold_left].
  unfold is_header in Hh.
  set (st := fold_left parse_chat_step before ([], None)).
  unfold parse_chat_step at 2 4.
  destruct (classify h) as [m|]; [|discriminate].
  change (flush ([], None)) with (@nil RawMessage).
  rewrite <- (app_nil_r (flush st)) at 1.
  rewrite loop_prefix.
  destruct (fold_left parse_chat_step after ([], Some m)) as [d cur].
  cbn [fst snd]. apply flush_prefix.
Qed.

Lemma assemble_splits_at_a_header_witness :
  assemble ([u "x"; u "[01/01/23, 9:05:00 PM] Alice: Hello there"; u "more"]
            ++ u "[01/01/23, 10:00:00 PM] Bob: Hi" :: [u "again"])
  = assemble [u "x"; u "[01/01/23, 9:05:00 PM] Alice: Hello there"; u "more"]
    ++ assemble (u "[01/01/23, 10:00:00 PM] Bob: Hi" :: [u "again"]).
Proof.
  apply (@assemble_splits_at_a_header
           [u "x"; u "[01/01/23, 9:05:00 PM] Alice: Hello there"; u "more"]
           [u "again"] (u "[01/01/23, 10:00:00 PM] Bob: Hi")).
  vm_compute. reflexivity.
Defined.
(** ** The records of [process_dataframe] *)

Lemma select_rows (names : list string) (d d' : DataFrame) :
  select names d = Ok d' -> rows d' = rows d /\ columns d' = names.
Proof.
  unfold select. destruct (find _ names); [discriminate|].
  intros H. injection H as <-. split; reflexivity.
Qed.

Lemma pipeline_rows (sys : list string) (data : list RawMessage) :
  let df1 := filter (fun m => nonempty (Message m)) (map clean_message data) in
  filter (fun r => negb (str_contains sys (message r)))
    (map features
       (dropna (combine df1
                  (map (strptime "%d/%m/%y %I:%M:%S%p") (map DateTimeStr df1)))))
  = flat_map (row_of sys) data.
Proof.
  cbv zeta. rewrite map_map.
  rewrite (dropna_combine unit
             (fun m => strptime "%d/%m/%y %I:%M:%S%p" (DateTimeStr m))).
  induction data as [|m data IH]; [reflexivity|].
  cbn [map flat_map]. unfold row_of at 1.
  remember (clean_message m) as m' eqn:Em. cbn [filter].
  destruct (nonempty (Message m')); [|exact IH].
  cbn [flat_map].
  destruct (strptime "%d/%m/%y %I:%M:%S%p" (DateTimeStr m')) as [t|];
    [|exact IH].
  cbn [app map filter].
  replace (message (features (m', t))) with (Message m') by reflexivity.
  destruct (str_contains sys (Message m')); cbn [negb app];
    rewrite IH; reflexivity.
Qed.

(** Whatever the lists of notices and of columns, the rows of a frame that
    [process_dataframe] returns are those of [row_of], candidate by
    candidate. *)
Lemma process_dataframe_ok_rows (sys names : list string)
  (data : list RawMessage) (d : DataFrame) :
  process_dataframe_with sys names data = Ok d ->
  rows d = flat_map (row_of sys) data.
Proof.
  unfold process_dataframe_with. destruct data as [|m0 data0].
  - intros H. injection H as <-. reflexivity.
  - set (data := m0 :: data0). rewrite convert_column_is_first_attempt.
    unfold bind. intros H. apply select_rows in H. destruct H as [-> _].
    cbn [rows]. apply pipeline_rows.
Qed.

Lemma row_of_inv (sys : list string) (m : RawMessage) (r : Row) :
  In r (row_of sys m) ->
  exists t,
    strptime "%d/%m/%y %I:%M:%S%p" (DateTimeStr m) = Some t
    /\ r = features (clean_message m, t)
    /\ Message (clean_message m) <> []
    /\ str_contains sys (Message (clean_message m)) = false.
Proof.
  unfold row_of. cbv zeta.
  change (DateTimeStr (clean_message m)) with (DateTimeStr m).
  destruct (nonempty (Message (clean_message m))) eqn:En; [|intros []].
  destruct (strptime "%d/%m/%y %I:%M:%S%p" (DateTimeStr m)) as [t|];
    [|intros []].
  destruct (str_contains sys (Message (clean_message m))) eqn:Ec; [intros []|].
  intros [<-|[]]. exists t. repeat split; try reflexivity.
  destruct (Message (clean_message m)); [discriminate|discriminate].
Qed.

(** X8. Every record that [process_dataframe] returns comes from one of the
    candidates it was given: it has the sender of the candidate, its message
    with the marks removed and stripped, which is not empty, and the
    timestamp the 12-hour format reads in the timestamp string of the
    candidate, which therefore ends with a meridiem. A candidate stamped on
    the 24-hour clock, without meridiem, is never among the records. *)
Theorem clean_records_come_from_candidates :
  forall (sys names : list string) (data : list RawMessage) (d : DataFrame)
         (r : Row),
    process_dataframe_with sys names data = Ok d ->
    In r (rows d) ->
    exists m,
      In m data
      /\ sender r = Sender m
      /\ message r = strip (remove_marks (Message m))
      /\ message r <> []
      /\ str_contains sys (message r) = false
      /\ strptime "%d/%m/%y %I:%M:%S%p" (DateTimeStr m) = Some (DateTime r)
      /\ exists pre mer,
           DateTimeStr m = pre ++ mer
           /\ (map ascii_lower mer = u "am" \/ map ascii_lower mer = u "pm").
Proof.
  intros sys names data d r Hd Hr.
  rewrite (process_dataframe_ok_rows _ _ _ Hd) in Hr.
  apply in_flat_map in Hr. destruct Hr as [m [Hm Hr]].
  apply row_of_inv in Hr. destruct Hr as [t [Ht [-> [Hne Hc]]]].
  exists m. cbn [features sender message DateTime].
  split; [exact Hm|]. split; [reflexivity|]. split; [reflexivity|].
  split; [exact Hne|]. split; [exact Hc|]. split; [exact Ht|].
  exact (strptime_12h_needs_meridiem _ Ht).
Qed.

Lemma clean_records_come_from_candidates_witness :
  exists m,
    In m (parse_chat scenario)
    /\ sender scenario_row = Sender m
    /\ message scenario_row = strip (remove_marks (Message m))
    /\ message scenario_row <> []
    /\ str_contains app.system_messages (message scenario_row) = false
    /\ strptime "%d/%m/%y %I:%M:%S%p" (DateTimeStr m)
       = Some (DateTime scenario_row)
    /\ exists pre mer,
         DateTimeStr m = pre ++ mer
         /\ (map ascii_lower mer = u "am" \/ map ascii_lower mer = u "pm").
Proof.
  apply (@clean_records_come_from_candidates app.system_messages
           app.returned_columns (parse_chat scenario) scenario_frame
           scenario_row).
  - vm_compute. reflexivity.
  - left. reflexivity.
Defined.

Lemma row_of_at_most_one (sys : list string) (m : RawMessage) :
  List.length (row_of sys m) <= 1.
Proof.
  unfold row_of. cbv zeta.
  destruct (nonempty _); [|simpl; lia].
  destruct (strptime _ _); [|simpl; lia].
  destruct (str_contains _ _); simpl; lia.
Qed.

(** X9. Whatever the text, the whole pipeline, in either copy, returns at
    most as many records as the text has header lines: filtering and
    conversion only drop candidates, they never add or split one. *)
Theorem no_more_records_than_headers :
  forall (sys names : list string) (text : str) (d : DataFrame),
    process_dataframe_with sys names (parse_chat text) = Ok d ->
    List.length (rows d) <= List.length (filter is_header (splitlines text)).
Proof.
  intros sys names text d Hd.
  rewrite (process_dataframe_ok_rows _ _ _ Hd).
  pose proof (loop_length (splitlines text) ([], None)) as L.
  change (List.length (flush ([], None))) with 0 in L. cbn [Nat.add] in L.
  rewrite <- L. unfold parse_chat.
  generalize (flush (fold_left parse_chat_step (splitlines text) ([], None))).
  intros l. induction l as [|m l IH]; cbn [flat_map]; [simpl; lia|].
  rewrite length_app. pose proof (row_of_at_most_one sys m). simpl. lia.
Qed.

Lemma no_more_records_than_headers_witness :
  List.length (rows scenario_frame)
  <= List.length (filter is_header (splitlines scenario)).
Proof.
  apply (@no_more_records_than_headers app.system_messages
           app.returned_columns scenario scenario_frame).
  vm_compute. reflexivity.
Defined.
(** What the 12-hour format makes of a value it accepts. *)
Lemma strptime_12h_fields (val : str) (t : Timestamp) :
  strptime "%d/%m/%y %I:%M:%S%p" val = Some t ->
  exists yy mo dd hr mi ss,
    t = to_epoch (century yy) mo dd hr mi ss
    /\ (0 <= yy <= 99)%Z /\ valid_date (century yy) mo dd = true
    /\ (0 <= hr <= 23)%Z /\ (0 <= mi <= 59)%Z /\ (0 <= ss <= 61)%Z.
Proof.
  intros H. unfold strptime in H. rewrite format_12h_regex in H.
  destruct (re_match format_12h val) as [[c rest]|] eqn:E; [|discriminate].
  destruct rest; [|discriminate].
  apply re_match_sound in E. destruct E as [m [_ Hm]].
  apply matches_format_12h in Hm.
  destruct Hm as [md [mm [my [mI [mM [mS [mp [pre [-> [_ H']]]]]]]]]].
  destruct H' as [[yy [Hy Ry]] [[ii [HI RI]] [[mi [HM RM]] [[ss [HS RS]] Hp]]]].
  rewrite convert_12h in H. rewrite Hy, HI, HM, HS in H.
  destruct (py_int mm) as [mo|]; [|discriminate].
  destruct (py_int md) as [dd|]; [|discriminate].
  destruct (valid_date (century yy) mo dd) eqn:Hv; [|discriminate].
  injection H as <-.
  exists yy, mo, dd, (hour_12 (map ascii_lower mp) ii), mi, ss.
  split; [reflexivity|]. split; [exact Ry|]. split; [exact Hv|].
  split; [apply hour_12_range; assumption|]. split; assumption.
Qed.

Lemma civil_next_day_checked :
  forallb
    (fun y =>
       forallb
         (fun m =>
            forallb
              (fun d =>
                 implb (valid_date y m d)
                   (let '(y', m', d') :=
                      civil_from_days (days_from_civil y m d + 1) in
                    (1969 <=? y')%Z && (y' <=? 2069)%Z && (1 <=? m')%Z
                    && (m' <=? 12)%Z && (1 <=? d')%Z && (d' <=? 31)%Z))
              (map Z.of_nat (List.seq 1 31)))
         (map Z.of_nat (List.seq 1 12)))
    (map Z.of_nat (List.seq 1969 100))
  = true.
Proof. vm_compute. reflexivity. Qed.

(** The day after a valid date. *)
Lemma civil_next_day (y m d : Z) :
  (1969 <= y <= 2068)%Z -> valid_date y m d = true ->
  let '(y', m', d') := civil_from_days (days_from_civil y m d + 1) in
  (1969 <= y' <= 2069)%Z /\ (1 <= m' <= 12)%Z /\ (1 <= d' <= 31)%Z.
Proof.
  intros Hy Hv. pose proof Hv as Hv'. unfold valid_date in Hv'.
  repeat rewrite andb_true_iff in Hv'. repeat rewrite Z.leb_le in Hv'.
  pose proof (days_in_month_bound y m) as Hb.
  pose proof civil_next_day_checked as C.
  rewrite forallb_forall in C.
  specialize (C y (@in_zrange 1969 100 y ltac:(lia))).
  rewrite forallb_forall in C.
  specialize (C m (@in_zrange 1 12 m ltac:(lia))).
  rewrite forallb_forall in C.
  specialize (C d (@in_zrange 1 31 d ltac:(lia))).
  rewrite Hv in C. cbn [implb] in C.
  destruct (civil_from_days (days_from_civil y m d + 1)) as [[y' m'] d'].
  repeat rewrite andb_true_iff in C. repeat rewrite Z.leb_le in C. lia.
Qed.

Lemma nth_name_in (names : list string) (i : Z) :
  (0 <= i < Z.of_nat (List.length names))%Z ->
  In (nth (Z.to_nat i) names EmptyString) names.
Proof. intros H. apply nth_In. lia. Qed.

(** The calendar fields of a timestamp the 12-hour format has read. *)
Lemma timestamp_fields (val : str) (t : Timestamp) :
  strptime "%d/%m/%y %I:%M:%S%p" val = Some t ->
  (1969 <= dt_year t <= 2069)%Z /\ (1 <= dt_month t <= 12)%Z
  /\ (1 <= dt_day t <= 31)%Z /\ (0 <= dt_hour t <= 23)%Z
  /\ (0 <= dt_minute t <= 59)%Z /\ (0 <= dt_weekday t <= 6)%Z.
Proof.
  intros H. apply strptime_12h_fields in H.
  destruct H as [yy [mo [dd [hr [mi [ss [-> [Ry [Hv [Rh [Rm Rs]]]]]]]]]]].
  pose proof (@century_range yy Ry) as Rc.
  pose proof (@civil_roundtrip _ _ _ Rc Hv) as R0.
  pose proof (@civil_next_day _ _ _ Rc Hv) as R1.
  pose proof Hv as Hv'. unfold valid_date in Hv'.
  repeat rewrite andb_true_iff in Hv'. repeat rewrite Z.leb_le in Hv'.
  pose proof (days_in_month_bound (century yy) mo) as Hb.
  set (D := days_from_civil (century yy) mo dd) in *.
  set (t := to_epoch (century yy) mo dd hr mi ss).
  assert (Et : t = (D * 86400 + (hr * 3600 + mi * 60 + ss))%Z)
    by (unfold t, to_epoch; fold D; lia).
  assert (RT : (t / 86400 = D \/ t / 86400 = D + 1)%Z).
  { assert (D <= t / 86400 <= D + 1)%Z; [|lia].
    rewrite Et. split.
    - apply Z.div_le_lower_bound; lia.
    - apply Z.lt_succ_r, Z.div_lt_upper_bound; lia. }
  assert (RC : let '(y, m, d) := civil_from_days (t / 86400) in
               (1969 <= y <= 2069)%Z /\ (1 <= m <= 12)%Z /\ (1 <= d <= 31)%Z).
  { destruct RT as [->| ->]; [rewrite R0; lia|exact R1]. }
  unfold dt_year, dt_month, dt_day, dt_date, dt_hour, dt_minute, dt_weekday.
  destruct (civil_from_days (t / 86400)) as [[y m] d]. cbn [fst snd].
  pose proof (Z.mod_pos_bound t 86400%Z ltac:(lia)).
  pose proof (Z.mod_pos_bound t 3600%Z ltac:(lia)).
  pose proof (Z.mod_pos_bound (t / 86400 + 3)%Z 7%Z ltac:(lia)).
  repeat split; try lia.
  - apply Z.div_pos; lia.
  - apply Z.lt_succ_r, Z.div_lt_upper_bound; lia.
  - apply Z.div_pos; lia.
  - apply Z.lt_succ_r, Z.div_lt_upper_bound; lia.
Qed.

(** X10. Every record that [process_dataframe] returns, in either copy, has
    its calendar fields in range: the hour from 0 to 23, the minute from 0 to
    59, the day from 1 to 31, the year from 1969 to 2069, the month one of the
    twelve English month names and the weekday one of the seven English day
    names. *)
Theorem clean_records_have_calendar_fields :
  forall (sys names : list string) (data : list RawMessage) (d : DataFrame)
         (r : Row),
    process_dataframe_with sys names data = Ok d ->
    In r (rows d) ->
    (0 <= hour r <= 23)%Z /\ (0 <= minute r <= 59)%Z /\ (1 <= day r <= 31)%Z
    /\ (1969 <= year r <= 2069)%Z
    /\ In (month r) month_order /\ In (day_of_week r) day_order.
Proof.
  intros sys names data d r Hd Hr.
  rewrite (process_dataframe_ok_rows _ _ _ Hd) in Hr.
  apply in_flat_map in Hr. destruct Hr as [m [_ Hr]].
  apply row_of_inv in Hr. destruct Hr as [t [Ht [-> _]]].
  apply timestamp_fields in Ht.
  destruct Ht as [Hy [Hm [Hdy [Hh [Hmi Hw]]]]].
  cbn [features hour minute day year month day_of_week].
  repeat (split; [assumption|]). split.
  - unfold month_name. apply nth_name_in. simpl. lia.
  - unfold day_name. apply nth_name_in. simpl. lia.
Qed.

Lemma clean_records_have_calendar_fields_witness :
  (0 <= hour scenario_row <= 23)%Z /\ (0 <= minute scenario_row <= 59)%Z
  /\ (1 <= day scenario_row <= 31)%Z /\ (1969 <= year scenario_row <= 2069)%Z
  /\ In (month scenario_row) month_order
  /\ In (day_of_week scenario_row) day_order.
Proof.
  apply (@clean_records_have_calendar_fields app.system_messages
           app.returned_columns (parse_chat scenario) scenario_frame
           scenario_row).
  - vm_compute. reflexivity.
  - left. reflexivity.
Defined.
(** ** The loaded frame and its timeline *)

Lemma list_sum_perm (l l' : list nat) :
  Permutation l l' -> list_sum l = list_sum l'.
Proof. induction 1; simpl; lia. Qed.

Lemma list_sum_cons (a : nat) (l : list nat) :
  list_sum (a :: l) = a + list_sum l.
Proof. reflexivity. Qed.

Section CountFacts.
Variable K : Type.
Variable dec : forall x y : K, {x = y} + {x <> y}.

Lemma sum_indicator (x : K) (keys : list K) :
  NoDup keys -> In x keys ->
  list_sum (map (fun y => if dec x y then 1 else 0) keys) = 1.
Proof.
  induction 1 as [|k keys Hk Hn IH]; simpl; [intros []|].
  intros [->|Hx].
  - destruct (dec x x) as [_|E]; [|congruence].
    assert (Z0 : list_sum (map (fun y => if dec x y then 1 else 0) keys) = 0).
    { clear IH Hn. induction keys as [|y keys IH]; simpl; [reflexivity|].
      destruct (dec x y) as [->|_]; [exfalso; apply Hk; left; reflexivity|].
      apply IH. intros H. apply Hk. right. exact H. }
    lia.
  - destruct (dec x k) as [->|_]; [contradiction|]. simpl. apply IH, Hx.
Qed.

(** Counting the occurrences of every key of a list without repetition
    counts every element that is among the keys once. *)
Lemma sum_count_occ (keys l : list K) :
  NoDup keys -> incl l keys ->
  list_sum (map (count_occ dec l) keys) = List.length l.
Proof.
  intros Hn. induction l as [|x l IH]; intros Hi.
  - clear. induction keys as [|k keys IHk]; simpl; [reflexivity|exact IHk].
  - assert (E : list_sum (map (count_occ dec (x :: l)) keys)
                = list_sum (map (fun y => if dec x y then 1 else 0) keys)
                  + list_sum (map (count_occ dec l) keys)).
    { clear. induction keys as [|k keys IHk]; [reflexivity|].
      cbn [map]. rewrite !list_sum_cons, IHk. cbn [count_occ].
      destruct (dec x k); lia. }
    rewrite E, IH, sum_indicator; [reflexivity|exact Hn| |].
    + apply Hi. left. reflexivity.
    + intros y Hy. apply Hi. right. exact Hy.
Qed.

End CountFacts.

Lemma hourly_counts_sum (hours : list Z) :
  list_sum (map snd (sort_index (value_counts hours))) = List.length hours.
Proof.
  set (tally := map (fun x => (x, count_occ Z.eq_dec hours x))
                  (unique_from [] hours)).
  assert (Hp : Permutation (sort_index (value_counts hours)) tally).
  { unfold sort_index, value_counts.
    eapply Permutation_trans; apply sort_by_perm. }
  rewrite (list_sum_perm (Permutation_map snd Hp)).
  unfold tally. rewrite map_map. cbn [snd].
  destruct (unique_from_spec hours []) as [Hn Hi].
  apply sum_count_occ; [exact Hn|].
  intros x Hx. apply Hi. split; [exact Hx|intros []].
Qed.

Lemma category_counts_sum (order l : list string) :
  NoDup order -> incl l order ->
  list_sum (map snd (category_counts order l)) = List.length l.
Proof.
  intros Hn Hi. unfold category_counts. rewrite map_map. cbn [snd].
  apply sum_count_occ; assumption.
Qed.

Lemma category_counts_labels (order l : list string) :
  map fst (category_counts order l) = order.
Proof. unfold category_counts. rewrite map_map. apply map_id. Qed.

Lemma map_fst_swap (X Y : Type) (l : list (X * Y)) :
  map fst (map (@swap X Y) l) = map snd l.
Proof. rewrite map_map. reflexivity. Qed.

Lemma map_snd_swap (X Y : Type) (l : list (X * Y)) :
  map snd (map (@swap X Y) l) = map fst l.
Proof. rewrite map_map. reflexivity. Qed.

Lemma day_order_nodup : NoDup day_order.
Proof.
  repeat (constructor; [simpl; intuition discriminate|]). constructor.
Qed.

Lemma month_order_nodup : NoDup month_order.
Proof.
  repeat (constructor; [simpl; intuition discriminate|]). constructor.
Qed.

(** The names of the month and of the weekday of a record that
    [process_dataframe] lets through. *)
Lemma row_of_names (sys : list string) (m : RawMessage) (r : Row) :
  In r (row_of sys m) ->
  In (month r) month_order /\ In (day_of_week r) day_order.
Proof.
  intros Hr. apply row_of_inv in Hr. destruct Hr as [t [Ht [-> _]]].
  apply timestamp_fields in Ht.
  destruct Ht as [Hy [Hm [Hdy [Hh [Hmi Hw]]]]].
  cbn [features month day_of_week]. split.
  - unfold month_name. apply nth_name_in. simpl. lia.
  - unfold day_name. apply nth_name_in. simpl. lia.
Qed.

Lemma app_columns_known : known_columns app.returned_columns = true.
Proof. vm_compute. reflexivity. Qed.

(** What [load_and_process_data] returns for a text. *)
Lemma load_and_process_data_value (text : str) :
  load_and_process_data (Some text)
  = Ok match flat_map (row_of app.system_messages) (parse_chat text) with
       | [] => None
       | r :: l => Some {| columns := app.returned_columns; rows := r :: l |}
       end.
Proof.
  unfold load_and_process_data, app.process_dataframe.
  destruct (parse_chat text) as [|m data] eqn:E; [reflexivity|].
  rewrite (@process_dataframe_rows app.system_messages app.returned_columns
             (m :: data) app_columns_known ltac:(discriminate)).
  unfold bind, empty. cbn [rows columns].
  destruct (flat_map (row_of app.system_messages) (m :: data)); reflexivity.
Qed.



Lemma analyzer_init_rows (d : DataFrame) (who : str) :
  has_column "sender" d = true -> has_column "message" d = true ->
  exists a,
    analyzer_init d who = Ok a
    /\ columns (df a) = columns d
    /\ rows (df a)
       = if str_eqb who (u "Overall") then rows d
         else filter (fun r => str_eqb (sender r) who) (rows d).
Proof.
  intros Hs Hm. unfold analyzer_init, getcol.
  destruct (str_eqb who (u "Overall")).
  - cbn [bind]. rewrite Hm. cbn [bind]. eexists. split; [reflexivity|].
    split; reflexivity.
  - rewrite Hs. cbn [bind]. unfold has_column in Hm |- *. cbn [columns].
    rewrite Hm. cbn [bind]. eexists. split; [reflexivity|].
    split; reflexivity.
Qed.

Lemma incl_filter (X : Type) (f : X -> bool) (l : list X) : incl (filter f l) l.
Proof. intros x H. apply filter_In in H. tauto. Qed.

(** X12. On the frame that [load_and_process_data] returns, the analyzer of
    every scope, a sender or [Overall], has a timeline and nothing is raised;
    its table of weekdays has the seven days from Monday to Sunday and its
    table of months the twelve months from January to December, whatever the
    records; and in each of its three tables the counts add up to the number
    of records of the scope. *)
Theorem timeline_accounts_for_every_record :
  forall (text : str) (d : DataFrame) (who : str),
    load_and_process_data (Some text) = Ok (Some d) ->
    exists a t,
      analyzer_init d who = Ok a
      /\ get_timeline_data a = Ok t
      /\ map snd (DayOfWeek t) = day_order
      /\ map snd (Monthly t) = month_order
      /\ list_sum (map fst (Hourly t)) = List.length (rows (df a))
      /\ list_sum (map fst (DayOfWeek t)) = List.length (rows (df a))
      /\ list_sum (map fst (Monthly t)) = List.length (rows (df a)).
Proof.
  intros text d who H. rewrite load_and_process_data_value in H.
  set (records := flat_map (row_of app.system_messages) (parse_chat text)) in *.
  assert (Hd : d = {| columns := app.returned_columns; rows := records |}).
  { destruct records; [discriminate|]. injection H as <-. reflexivity. }
  clear H.
  destruct (@analyzer_init_rows d who) as [a [Ha [Hc Hr]]];
    [rewrite Hd; reflexivity | rewrite Hd; reflexivity |].
  assert (Hi : incl (rows (df a)) records).
  { rewrite Hr, Hd. cbn [rows].
    destruct (str_eqb who (u "Overall"));
      [apply incl_refl | apply incl_filter]. }
  assert (Hn : forall r, In r (rows (df a)) ->
                 In (month r) month_order /\ In (day_of_week r) day_order).
  { intros r Hin. apply Hi in Hin. unfold records in Hin.
    apply in_flat_map in Hin. destruct Hin as [m [_ Hin]].
    exact (row_of_names _ _ _ Hin). }
  exists a. eexists. split; [exact Ha|]. split.
  - unfold get_timeline_data, getcol, has_column. rewrite Hc, Hd.
    cbn [columns app.returned_columns existsb String.eqb Ascii.eqb Bool.eqb
         orb bind]. reflexivity.
  - cbn [Hourly DayOfWeek Monthly].
    rewrite !map_snd_swap, !map_fst_swap, !category_counts_labels.
    split; [reflexivity|]. split; [reflexivity|].
    rewrite hourly_counts_sum, !length_map.
    split; [reflexivity|]. split.
    + rewrite category_counts_sum; [apply length_map|apply day_order_nodup|].
      intros x Hx. apply in_map_iff in Hx. destruct Hx as [r [<- Hin]].
      apply Hn, Hin.
    + rewrite category_counts_sum; [apply length_map|apply month_order_nodup|].
      intros x Hx. apply in_map_iff in Hx. destruct Hx as [r [<- Hin]].
      apply Hn, Hin.
Qed.

Lemma timeline_accounts_for_every_record_witness :
  exists a t,
    analyzer_init frame_two_senders (u "Bob") = Ok a
    /\ get_timeline_data a = Ok t
    /\ map snd (DayOfWeek t) = day_order
    /\ map snd (Monthly t) = month_order
    /\ list_sum (map fst (Hourly t)) = List.length (rows (df a))
    /\ list_sum (map fst (DayOfWeek t)) = List.length (rows (df a))
    /\ list_sum (map fst (Monthly t)) = List.length (rows (df a)).
Proof.
  apply (@timeline_accounts_for_every_record scenario_two_senders
           frame_two_senders (u "Bob")).
  vm_compute. reflexivity.
Defined.

(** ** The metrics *)

Lemma rep_zero_total (A : Type) (p : char -> bool) (s : str) :
  forall (c : caps) (k : cont A),
    (forall m r c', k m r c' <> None) -> rep p 0 None s c k <> None.
Proof.
  induction s as [|x s IH]; intros c k Hk; cbn [rep]; [apply Hk|].
  destruct (p x && more None); [|apply Hk].
  cbn [pred less option_map].
  destruct (rep p 0 None s c (fun m r c' => k (x :: m) r c')) eqn:E;
    [discriminate|].
  exfalso. revert E. apply IH. intros m r c'. apply Hk.
Qed.

(** Before a continuation that accepts whatever it is given, a greedy
    repetition takes every character it can. *)
Lemma rep_total_greedy (A : Type) (p : char -> bool) (s : str) :
  forall (lo : nat) (c : caps) (k : cont A) (a : A),
    (forall m r c', k m r c' <> None) ->
    rep p lo None s c k = Some a ->
    lo <= List.length (take_while p s)
    /\ k (take_while p s) (drop_while p s) c = Some a.
Proof.
  induction s as [|x s IH]; intros lo c k a Hk H; cbn [rep] in H.
  - destruct lo; [|discriminate]. simpl. split; [lia|exact H].
  - cbn [take_while drop_while]. destruct (p x) eqn:Ex.
    + cbn [andb more less option_map] in H.
      destruct (rep p (pred lo) None s c (fun m r c' => k (x :: m) r c'))
        as [a'|] eqn:E.
      * injection H as ->.
        apply IH in E; [|intros m r c'; apply Hk].
        destruct E as [Hl E]. split; [simpl; lia|exact E].
      * exfalso. destruct lo; [|discriminate].
        revert E. cbn [pred]. apply rep_zero_total.
        intros m r c'. apply Hk.
    + cbn [andb] in H. destruct lo; [|discriminate].
      simpl. split; [lia|exact H].
Qed.

Lemma drop_while_idem (p : char -> bool) (s : str) :
  drop_while p (drop_while p s) = drop_while p s.
Proof.
  induction s as [|x s IH]; [reflexivity|]. cbn [drop_while].
  destruct (p x) eqn:E; [exact IH|]. cbn [drop_while]. rewrite E. reflexivity.
Qed.

(** A sequence that ends with a greedy [p+], before a continuation that
    accepts whatever it is given: the match is not empty and stops where no
    character of [p] follows. *)
Lemma seq_ends_greedy (A : Type) (p : char -> bool) (l : list regex) :
  forall (s : str) (c : caps) (k : cont A) (a : A),
    (forall m r c', k m r c' <> None) ->
    exec (seq (l ++ [plus p])) s c k = Some a ->
    exists m rest c',
      s = m ++ rest /\ m <> [] /\ drop_while p rest = rest
      /\ k m rest c' = Some a.
Proof.
  induction l as [|x l IH]; intros s c k a Hk H.
  - cbn [app seq fold_right exec] in H. unfold plus in H. cbn [exec] in H.
    apply rep_total_greedy in H; [|intros m r c'; apply Hk].
    destruct H as [Hl H]. rewrite app_nil_r in H.
    exists (take_while p s), (drop_while p s), c.
    split; [apply take_drop_while|]. split.
    + intros E. rewrite E in Hl. simpl in Hl. lia.
    + split; [apply drop_while_idem|exact H].
  - change (seq ((x :: l) ++ [plus p]))
      with (Cat x (seq (l ++ [plus p]))) in H.
    cbn [exec] in H. apply exec_sound in H.
    destruct H as [m1 [s1 [c1 [-> [_ H]]]]].
    apply IH in H; [|intros m r c'; apply Hk].
    destruct H as [m [rest [c' [-> [Hm [Hd H]]]]]].
    exists (m1 ++ m), rest, c'. split; [apply app_assoc|].
    split; [|split; assumption].
    intros E. apply app_eq_nil in E. tauto.
Qed.

(** The classes of the characters a pattern can match. *)
Fixpoint classes (P : (char -> bool) -> Prop) (r : regex) : Prop :=
  match r with
  | Eps => True
  | Chr p | Rep p _ _ => P p
  | Cat r1 r2 | Alt r1 r2 => classes P r1 /\ classes P r2
  | Grp _ r1 => classes P r1
  end.

Lemma matches_classes (q : char -> bool) (r : regex) :
  classes (fun p => forall x, p x = true -> q x = true) r ->
  forall (m : str) (c c' : caps),
    matches r m c c' -> Forall (fun x => q x = true) m.
Proof.
  induction r as [|p|p lo hi|r1 IH1 r2 IH2|r1 IH1 r2 IH2|n r IH];
    cbn [classes matches]; intros Hc m c c' H.
  - destruct H as [-> _]. constructor.
  - destruct H as [[x [-> Hx]] _]. constructor; [apply Hc, Hx|constructor].
  - destruct H as [[Hf _] _]. eapply Forall_impl; [|exact Hf].
    intros x Hx. apply Hc, Hx.
  - destruct H as [m1 [m2 [c1 [-> [H1 H2]]]]]. destruct Hc as [Hc1 Hc2].
    apply Forall_app. split; [eapply IH1|eapply IH2]; eassumption.
  - destruct Hc as [Hc1 Hc2].
    destruct H as [H|H]; [eapply IH1|eapply IH2]; eassumption.
  - destruct H as [c1 [H _]]. eapply IH; eassumption.
Qed.

Lemma lit_not_space (c x : char) :
  isspace c = false -> N.eqb c x = true -> not_space x = true.
Proof.
  intros Hc E. apply N.eqb_eq in E. subst x. unfold not_space.
  rewrite Hc. reflexivity.
Qed.

Lemma URL_PATTERN_classes :
  classes (fun p => forall x, p x = true -> not_space x = true) URL_PATTERN.
Proof.
  unfold URL_PATTERN, seq, lit, times, plus. cbn [fold_right classes].
  repeat split; intros x Hx; try exact Hx;
    (eapply lit_not_space; [|exact Hx]); vm_compute; reflexivity.
Qed.

(** A link is a run of characters that are not white space, not empty, and
    it ends where the white space begins, or the text ends. *)
Lemma URL_PATTERN_match (s rest : str) (c : caps) :
  re_match URL_PATTERN s = Some (c, rest) ->
  exists m,
    s = m ++ rest /\ m <> []
    /\ Forall (fun x => not_space x = true) m
    /\ drop_while not_space rest = rest.
Proof.
  intros H. pose proof (@re_match_sound _ _ _ _ H) as [m [Hs Hm]].
  apply (@matches_classes _ _ URL_PATTERN_classes) in Hm.
  exists m. split; [exact Hs|].
  assert (G : exists m' rest' c',
                s = m' ++ rest' /\ m' <> [] /\ drop_while not_space rest' = rest'
                /\ Some (c', rest') = Some (c, rest)).
  { unfold re_match, URL_PATTERN in H. cbn [exec] in H.
    match type of H with
    | match ?X with _ => _ end = _ => destruct X as [a|] eqn:E
    end.
    - injection H as ->.
      apply (@seq_ends_greedy _ not_space
               [ lit (chr "h"); lit (chr "t"); lit (chr "t"); lit (chr "p");
                 times (N.eqb (chr "s")) 0 1; lit (chr ":"); lit (chr "/");
                 lit (chr "/") ]) in E; [exact E|discriminate].
    - apply (@seq_ends_greedy _ not_space
               [ lit (chr "w"); lit (chr "w"); lit (chr "w"); lit (chr ".") ])
        in H; [exact H|discriminate]. }
  destruct G as [m' [rest' [c' [Hs' [Hne [Hd E]]]]]].
  injection E as -> ->.
  assert (m' = m).
  { rewrite Hs in Hs'. symmetry. exact (app_inv_tail _ _ _ Hs'). }
  subst m'. repeat split; assumption.
Qed.

(** The number of words of a text. *)
Lemma not_space_false (x : char) : isspace x = true -> not_space x = false.
Proof. intros E. unfold not_space. rewrite E. reflexivity. Qed.

Lemma not_space_true (x : char) : isspace x = false -> not_space x = true.
Proof. intros E. unfold not_space. rewrite E. reflexivity. Qed.

Lemma split_from_open (s : str) :
  forall (x : char) (cur : str),
    List.length (split_from (x :: cur) s)
    = S (List.length (str_split (drop_while not_space s))).
Proof.
  induction s as [|y s IH]; intros x cur; [reflexivity|].
  cbn [split_from drop_while]. destruct (isspace y) eqn:E.
  - rewrite (@not_space_false y E). unfold str_split.
    cbn [split_from List.length]. rewrite E. reflexivity.
  - rewrite (@not_space_true y E). apply IH.
Qed.

Lemma words_cons_space (x : char) (s : str) :
  isspace x = true ->
  List.length (str_split (x :: s)) = List.length (str_split s).
Proof. intros E. unfold str_split. cbn [split_from]. rewrite E. reflexivity. Qed.

Lemma words_cons_other (x : char) (s : str) :
  isspace x = false ->
  List.length (str_split (x :: s))
  = S (List.length (str_split (drop_while not_space s))).
Proof.
  intros E. unfold str_split at 1. cbn [split_from]. rewrite E.
  apply split_from_open.
Qed.

Lemma words_open (s : str) :
  List.length (str_split s)
  <= S (List.length (str_split (drop_while not_space s))).
Proof.
  destruct s as [|y s]; [simpl; lia|]. cbn [drop_while].
  destruct (isspace y) eqn:E.
  - rewrite (@not_space_false y E). lia.
  - rewrite (@not_space_true y E), (@words_cons_other _ _ E). lia.
Qed.

Lemma words_cons (x : char) (s : str) :
  List.length (str_split s) <= List.length (str_split (x :: s)).
Proof.
  destruct (isspace x) eqn:E.
  - rewrite (@words_cons_space _ _ E). lia.
  - rewrite (@words_cons_other _ _ E). apply words_open.
Qed.

Lemma drop_while_app (p : char -> bool) (m rest : str) :
  Forall (fun x => p x = true) m ->
  drop_while p (m ++ rest) = drop_while p rest.
Proof.
  induction 1 as [|x m Hx Hm IH]; [reflexivity|].
  cbn [app drop_while]. rewrite Hx. exact IH.
Qed.

Lemma words_run (m rest : str) :
  m <> [] -> Forall (fun x => not_space x = true) m ->
  drop_while not_space rest = rest ->
  List.length (str_split (m ++ rest)) = S (List.length (str_split rest)).
Proof.
  intros Hne Hm Hr. destruct m as [|x m]; [congruence|].
  inversion Hm as [|x' m' Hx Hm']; subst.
  cbn [app]. rewrite words_cons_other.
  - rewrite (@drop_while_app _ _ _ Hm'), Hr. reflexivity.
  - unfold not_space in Hx. destruct (isspace x); [discriminate|reflexivity].
Qed.

Lemma skipn_app_length (X : Type) (m rest : list X) :
  skipn (List.length m) (m ++ rest) = rest.
Proof. induction m as [|x m IH]; [reflexivity|exact IH]. Qed.

(** Every link lies in a word of its own. *)
Lemma links_in_words (s : str) :
  forall skip,
    count_findall URL_PATTERN skip s <= List.length (str_split (skipn skip s)).
Proof.
  induction s as [|x s IH]; intros skip.
  - destruct skip; simpl; lia.
  - cbn [count_findall]. destruct skip as [|n]; [|exact (IH n)].
    cbn [skipn].
    destruct (re_match URL_PATTERN (x :: s)) as [[c rest]|] eqn:E.
    + apply URL_PATTERN_match in E.
      destruct E as [m [Hs [Hne [Hm Hr]]]].
      destruct m as [|y m]; [congruence|].
      cbn [app] in Hs. injection Hs as <- ->.
      rewrite length_app.
      replace (List.length m + List.length rest - List.length rest)
        with (List.length m) by lia.
      specialize (IH (List.length m)). rewrite skipn_app_length in IH.
      change (x :: m ++ rest) with ((x :: m) ++ rest).
      rewrite (@words_run (x :: m) rest Hne Hm Hr). lia.
    + specialize (IH 0). cbn [skipn] in IH.
      pose proof (words_cons x s). lia.
Qed.

Lemma list_sum_le (X : Type) (f g : X -> nat) (l : list X) :
  (forall x, f x <= g x) -> list_sum (map f l) <= list_sum (map g l).
Proof.
  intros H. induction l as [|x l IH]; [simpl; lia|].
  cbn [map]. rewrite !list_sum_cons. specialize (H x). lia.
Qed.

(** X13. The metrics never count more links than words: a link is found
    inside one word, between white space, and no word holds two. The number
    of messages is the number of records of the scope. *)
Theorem links_never_exceed_words :
  forall (a : WhatsAppAnalyzer) (m : Metrics),
    get_base_metrics a = Ok m ->
    Links_Shared m <= Total_Words m
    /\ Total_Messages m = List.length (rows (df a)).
Proof.
  intros a m H. unfold get_base_metrics, getcol in H.
  destruct (has_column "message" (df a)); [|discriminate].
  cbn [bind] in H. injection H as <-.
  cbn [Links_Shared Total_Words Total_Messages]. split; [|reflexivity].
  apply list_sum_le. intros x. exact (links_in_words x 0).
Qed.

Lemma links_never_exceed_words_witness :
  Links_Shared (mkMetrics 3 6 2) <= Total_Words (mkMetrics 3 6 2)
  /\ Total_Messages (mkMetrics 3 6 2)
     = List.length (rows (df analyzer_two_senders)).
Proof.
  apply (@links_never_exceed_words analyzer_two_senders (mkMetrics 3 6 2)).
  vm_compute. reflexivity.
Defined.

(** ** The scopes *)

Lemma str_leb_total (a : str) :
  forall b, str_leb a b = false -> str_leb b a = true.
Proof.
  induction a as [|x a IH]; intros [|y b]; cbn [str_leb];
    try discriminate; try reflexivity.
  destruct (N.ltb_spec x y); [discriminate|].
  destruct (N.eqb_spec x y) as [->|Hne].
  - rewrite N.ltb_irrefl, N.eqb_refl. apply IH.
  - intros _. destruct (N.ltb_spec y x); [reflexivity|lia].
Qed.

Lemma str_leb_trans (a : str) :
  forall b c, str_leb a b = true -> str_leb b c = true -> str_leb a c = true.
Proof.
  induction a as [|x a IH]; intros [|y b] [|z c]; cbn [str_leb];
    try discriminate; try reflexivity.
  destruct (N.ltb_spec x y) as [Hxy|Hxy].
  - intros _. destruct (N.ltb_spec y z) as [Hyz|Hyz].
    + intros _. destruct (N.ltb_spec x z); [reflexivity|lia].
    + destruct (N.eqb_spec y z) as [->|_]; [|discriminate].
      intros _. destruct (N.ltb_spec x z); [reflexivity|lia].
  - destruct (N.eqb_spec x y) as [->|_]; [|discriminate].
    intros Hab. destruct (N.ltb_spec y z); [reflexivity|].
    destruct (N.eqb_spec y z) as [->|_]; [|discriminate].
    apply IH, Hab.
Qed.

Section UniqueFacts.
Variable K : Type.
Variable eqb : K -> K -> bool.
Hypothesis eqb_eq : forall x y, eqb x y = true <-> x = y.

Lemma unique_by_spec (l : list K) :
  forall seen,
    NoDup (unique_by eqb seen l)
    /\ forall x, In x (unique_by eqb seen l) <-> In x l /\ ~ In x seen.
Proof.
  induction l as [|y l IH]; intros seen; cbn [unique_by].
  - split; [constructor|]. intros x. simpl. tauto.
  - assert (Hs : existsb (eqb y) seen = true <-> In y seen).
    { rewrite existsb_exists. split.
      - intros [z [Hz E]]. apply eqb_eq in E. subst z. exact Hz.
      - intros Hy. exists y. split; [exact Hy|]. apply eqb_eq. reflexivity. }
    destruct (existsb (eqb y) seen) eqn:E.
    + destruct (IH seen) as [Hn Hi]. split; [exact Hn|].
      intros x. rewrite Hi. simpl. split; [tauto|].
      intros [[->|Hx] Hx']; [|tauto]. exfalso. apply Hx', Hs. reflexivity.
    + destruct (IH (y :: seen)) as [Hn Hi]. split.
      * constructor; [|exact Hn]. rewrite Hi. simpl. tauto.
      * intros x. simpl. rewrite Hi. simpl.
        assert (Hy : ~ In y seen) by (intros Hy; apply Hs in Hy; discriminate).
        split.
        -- intros [->|[Hx Hx']]; [tauto|tauto].
        -- intros [[->|Hx] Hx']; [tauto|].
           destruct (eqb y x) eqn:Exy; [left; apply eqb_eq, Exy|].
           right. split; [exact Hx|]. intros [->|H]; [|tauto].
           assert (eqb x x = true) by (apply eqb_eq; reflexivity).
           congruence.
Qed.

End UniqueFacts.

Lemma str_eqb_eq (a b : str) : str_eqb a b = true <-> a = b.
Proof.
  unfold str_eqb. destruct (list_eq_dec N.eq_dec a b); split; congruence.
Qed.

(** The senders of a frame, each once, in ascending order. *)
Lemma sorted_senders (senders : list str) :
  let l := sort_by str_leb (unique_by str_eqb [] senders) in
  StronglySorted (fun a b => str_leb a b = true) l
  /\ NoDup l
  /\ forall s, In s l <-> In s senders.
Proof.
  intros l.
  destruct (@unique_by_spec _ str_eqb str_eqb_eq senders []) as [Hn Hi].
  assert (Hp : Permutation l (unique_by str_eqb [] senders))
    by apply sort_by_perm.
  split; [|split].
  - apply sort_by_sorted; [apply str_leb_total|apply str_leb_trans].
  - eapply Permutation_NoDup; [apply Permutation_sym, Hp|exact Hn].
  - intros s. split; intros H.
    + apply (Permutation_in _ Hp) in H. apply Hi in H. tauto.
    + apply (Permutation_in _ (Permutation_sym Hp)). apply Hi.
      split; [exact H|intros []].
Qed.

(** X14. The list of scopes that [main] offers starts with [Overall]; after
    it come the senders of the records, each sender once and no one else, in
    ascending order of their names compared code point by code point. *)
Theorem sender_list_lists_every_sender_once :
  forall (d : DataFrame) (l : list str),
    sender_list d = Ok l ->
    exists senders,
      l = u "Overall" :: senders
      /\ StronglySorted (fun a b => str_leb a b = true) senders
      /\ NoDup senders
      /\ forall s, In s senders <-> exists r, In r (rows d) /\ sender r = s.
Proof.
  intros d l H. unfold sender_list, getcol in H.
  destruct (has_column "sender" d); [|discriminate].
  cbn [bind] in H. injection H as <-.
  destruct (sorted_senders (map sender (rows d))) as [Hs [Hn Hi]].
  eexists. split; [reflexivity|]. split; [exact Hs|]. split; [exact Hn|].
  intros s. rewrite Hi, in_map_iff. split; intros [r Hr]; exists r; tauto.
Qed.

Lemma sender_list_lists_every_sender_once_witness :
  exists senders,
    [u "Overall"; u "Alice"; u "Bob"] = u "Overall" :: senders
    /\ StronglySorted (fun a b => str_leb a b = true) senders
    /\ NoDup senders
    /\ forall s,
         In s senders
         <-> exists r, In r (rows frame_two_senders) /\ sender r = s.
Proof.
  apply (@sender_list_lists_every_sender_once frame_two_senders
           [u "Overall"; u "Alice"; u "Bob"]).
  vm_compute. reflexivity.
Defined.

(** What the metrics of a scope are. *)
Lemma scope_metrics_value (d : DataFrame) (who : str) :
  has_column "sender" d = true -> has_column "message" d = true ->
  scope_metrics d who
  = Ok (metrics_of (if str_eqb who (u "Overall") then rows d
                    else records_of who (rows d))).
Proof.
  intros Hs Hm. unfold scope_metrics.
  destruct (@analyzer_init_rows d who Hs Hm) as [a [-> [Hc Hr]]].
  cbn [bind]. unfold get_base_metrics, getcol, has_column. rewrite Hc.
  unfold has_column in Hm. rewrite Hm. cbn [bind]. rewrite Hr.
  unfold metrics_of, records_of. rewrite !map_map. reflexivity.
Qed.

Lemma sum_weight (keys : list str) (x : str) (w : nat) :
  NoDup keys -> In x keys ->
  list_sum (map (fun s => if str_eqb x s then w else 0) keys) = w.
Proof.
  induction 1 as [|k keys Hk Hn IH]; [intros []|].
  cbn [map]. rewrite list_sum_cons. intros [->|Hx].
  - replace (str_eqb x x) with true by (symmetry; apply str_eqb_eq; reflexivity).
    assert (Z0 : list_sum (map (fun s => if str_eqb x s then w else 0) keys) = 0).
    { clear IH Hn. induction keys as [|y keys IH]; [reflexivity|].
      cbn [map]. rewrite list_sum_cons.
      destruct (str_eqb x y) eqn:E.
      - apply str_eqb_eq in E. subst y. exfalso. apply Hk. left. reflexivity.
      - apply IH. intros H. apply Hk. right. exact H. }
    lia.
  - destruct (str_eqb x k) eqn:E.
    + apply str_eqb_eq in E. subst k. contradiction.
    + rewrite (IH Hx). reflexivity.
Qed.

(** A sum over the records is the sum, over the senders, of the sums over the
    records of each. *)
Lemma sum_by_sender (f : Row -> nat) (keys : list str) (rs : list Row) :
  NoDup keys -> (forall r, In r rs -> In (sender r) keys) ->
  list_sum (map (fun s => list_sum (map f (records_of s rs))) keys)
  = list_sum (map f rs).
Proof.
  intros Hn. induction rs as [|r rs IH]; intros Hi.
  - cbn [records_of filter map list_sum fold_right].
    clear. induction keys as [|k keys IHk]; [reflexivity|exact IHk].
  - assert (E : list_sum (map (fun s => list_sum (map f (records_of s (r :: rs)))) keys)
                = list_sum (map (fun s => if str_eqb (sender r) s then f r else 0) keys)
                  + list_sum (map (fun s => list_sum (map f (records_of s rs))) keys)).
    { clear. induction keys as [|k keys IHk]; [reflexivity|].
      cbn [map]. rewrite !list_sum_cons, IHk.
      unfold records_of at 1. cbn [filter].
      destruct (str_eqb (sender r) k); cbn [map];
        [rewrite list_sum_cons|]; unfold records_of; lia. }
    rewrite E, IH, sum_weight.
    + cbn [map]. rewrite list_sum_cons. reflexivity.
    + exact Hn.
    + apply Hi. left. reflexivity.
    + intros r' Hr'. apply Hi. right. exact Hr'.
Qed.

Lemma length_as_sum (X : Type) (l : list X) :
  List.length l = list_sum (map (fun _ => 1) l).
Proof.
  induction l as [|x l IH]; [reflexivity|].
  cbn [map List.length]. rewrite list_sum_cons, <- IH. reflexivity.
Qed.

(** X15. When no sender is called [Overall], the metrics of the scope
    [Overall] are the sums of the metrics of the scopes of the senders that
    [main] lists: every message, every word and every link is counted for
    exactly one sender; and no scope raises. *)
Theorem overall_metrics_are_the_sum_of_the_senders :
  forall (d : DataFrame) (l : list str),
    sender_list d = Ok l ->
    has_column "message" d = true ->
    ~ In (u "Overall") (map sender (rows d)) ->
    exists total per,
      scope_metrics d (u "Overall") = Ok total
      /\ map (scope_metrics d) (tl l) = map Ok per
      /\ Total_Messages total = list_sum (map Total_Messages per)
      /\ Total_Words total = list_sum (map Total_Words per)
      /\ Links_Shared total = list_sum (map Links_Shared per).
Proof.
  intros d l H Hm Hno. unfold sender_list, getcol in H.
  destruct (has_column "sender" d) eqn:Hs; [|discriminate].
  cbn [bind] in H. injection H as <-. cbn [tl].
  destruct (sorted_senders (map sender (rows d))) as [_ [Hn Hi]].
  set (senders := sort_by str_leb (unique_by str_eqb [] (map sender (rows d)))) in *.
  exists (metrics_of (rows d)),
         (map (fun s => metrics_of (records_of s (rows d))) senders).
  assert (Hk : forall r, In r (rows d) -> In (sender r) senders).
  { intros r Hr. apply Hi, in_map, Hr. }
  split; [|split; [|split; [|split]]].
  - rewrite (@scope_metrics_value d (u "Overall") Hs Hm). reflexivity.
  - rewrite map_map. apply map_ext_in. intros s Hin.
    rewrite (@scope_metrics_value d s Hs Hm).
    destruct (str_eqb s (u "Overall")) eqn:E; [|reflexivity].
    apply str_eqb_eq in E. subst s. exfalso. apply Hno, Hi, Hin.
  - rewrite map_map. cbn [metrics_of Total_Messages].
    rewrite length_as_sum.
    rewrite <- (@sum_by_sender (fun _ => 1) senders (rows d) Hn Hk).
    apply f_equal, map_ext. intros s. symmetry. apply length_as_sum.
  - rewrite map_map. cbn [metrics_of Total_Words].
    symmetry. exact (@sum_by_sender _ senders (rows d) Hn Hk).
  - rewrite map_map. cbn [metrics_of Links_Shared].
    symmetry. exact (@sum_by_sender _ senders (rows d) Hn Hk).
Qed.

Lemma overall_metrics_are_the_sum_of_the_senders_witness :
  exists total per,
    scope_metrics frame_two_senders (u "Overall") = Ok total
    /\ map (scope_metrics frame_two_senders) [u "Alice"; u "Bob"] = map Ok per
    /\ Total_Messages total = list_sum (map Total_Messages per)
    /\ Total_Words total = list_sum (map Total_Words per)
    /\ Links_Shared total = list_sum (map Links_Shared per).
Proof.
  apply (@overall_metrics_are_the_sum_of_the_senders frame_two_senders
           [u "Overall"; u "Alice"; u "Bob"]).
  - vm_compute. reflexivity.
  - vm_compute. reflexivity.
  - vm_compute. intros [H|[H|[H|[]]]]; discriminate H.
Defined.

(** ** The emojis *)

Lemma in_firstn (X : Type) (n : nat) (l : list X) (x : X) :
  In x (firstn n l) -> In x l.
Proof.
  intros H. rewrite <- (firstn_skipn n l). apply in_or_app. left. exact H.
Qed.

Lemma sorted_app (X : Type) (R : X -> X -> Prop) (l1 l2 : list X) :
  StronglySorted R (l1 ++ l2) ->
  StronglySorted R l1 /\ forall x y, In x l1 -> In y l2 -> R x y.
Proof.
  induction l1 as [|a l1 IH]; cbn [app]; intros H.
  - split; [constructor|]. intros x y [].
  - inversion H as [|a' l' Hs Ha]; subst. destruct (IH Hs) as [H1 H2].
    rewrite Forall_forall in Ha. split.
    + constructor; [exact H1|]. rewrite Forall_forall. intros y Hy.
      apply Ha, in_or_app. left. exact Hy.
    + intros x y [<-|Hx] Hy; [|exact (H2 x y Hx Hy)].
      apply Ha, in_or_app. right. exact Hy.
Qed.

Lemma count_occ_filter (p : char -> bool) (l : list char) (e : char) :
  p e = true ->
  count_occ N.eq_dec (filter p l) e = count_occ N.eq_dec l e.
Proof.
  intros He. induction l as [|x l IH]; [reflexivity|]. cbn [filter].
  destruct (p x) eqn:Ex; cbn [count_occ].
  - destruct (N.eq_dec x e); [f_equal|]; exact IH.
  - destruct (N.eq_dec x e) as [->|_]; [congruence|exact IH].
Qed.

(** The table of [most_common]: at most [n] rows, no value twice, every row
    a value that occurs with the number of its occurrences, the counts in
    descending order, and no value left out that occurs more often than one
    that is in. *)
Lemma most_common_spec (n : nat) (l : list char) :
  let table := most_common n l in
  List.length table <= n
  /\ NoDup (map fst table)
  /\ (forall e k, In (e, k) table -> In e l /\ k = count_occ N.eq_dec l e)
  /\ StronglySorted (fun x y => snd y <= snd x) table
  /\ (forall e, In e l -> ~ In e (map fst table) ->
        List.length table = n
        /\ forall e' k', In (e', k') table -> count_occ N.eq_dec l e <= k').
Proof.
  intros table.
  set (tally := map (fun x => (x, count_occ N.eq_dec l x)) (unique_by N.eqb [] l)).
  set (full := sort_by (fun a b => Nat.leb (snd b) (snd a)) tally).
  assert (Ht : table = firstn n full) by reflexivity.
  destruct (@unique_by_spec _ N.eqb N.eqb_eq l []) as [Hn Hi].
  assert (Hp : Permutation full tally) by apply sort_by_perm.
  assert (Hs : StronglySorted (fun a b => Nat.leb (snd b) (snd a) = true) full).
  { apply sort_by_sorted.
    - intros x y H. apply Nat.leb_le. apply Nat.leb_gt in H. lia.
    - intros x y z H1 H2. apply Nat.leb_le. apply Nat.leb_le in H1, H2. lia. }
  assert (Hk : map fst tally = unique_by N.eqb [] l).
  { unfold tally. rewrite map_map. apply map_id. }
  assert (Hin : forall e k, In (e, k) full ->
                  In e l /\ k = count_occ N.eq_dec l e).
  { intros e k H. apply (Permutation_in _ Hp) in H.
    unfold tally in H. apply in_map_iff in H. destruct H as [x [E Hx]].
    injection E as -> <-. split; [|reflexivity]. apply Hi in Hx. tauto. }
  assert (Hf : full = table ++ skipn n full)
    by (rewrite Ht; symmetry; apply firstn_skipn).
  rewrite Hf in Hs. apply sorted_app in Hs. destruct Hs as [Hs1 Hs2].
  assert (Hnd : NoDup (map fst table ++ map fst (skipn n full))).
  { assert (Hnd0 : NoDup (map fst full)).
    { eapply Permutation_NoDup;
        [apply Permutation_sym, Permutation_map, Hp|].
      rewrite Hk. exact Hn. }
    rewrite <- map_app.
    exact (eq_ind _ (fun z => NoDup (map fst z)) Hnd0 _ Hf). }
  split; [rewrite Ht; apply firstn_le_length|].
  split; [exact (NoDup_app_remove_r _ _ Hnd)|].
  split; [intros e k H; apply Hin; rewrite Hf; apply in_or_app; left; exact H|].
  split.
  { clear - Hs1. induction Hs1 as [|x t Hs IH Hx]; constructor; [exact IH|].
    eapply Forall_impl; [|exact Hx]. intros y Hy. apply Nat.leb_le, Hy. }
  intros e He Hout.
  assert (Hfull : In e (map fst full)).
  { apply (Permutation_in _ (Permutation_sym (Permutation_map fst Hp))).
    rewrite Hk. apply Hi. split; [exact He|intros []]. }
  rewrite Hf, map_app in Hfull. apply in_app_or in Hfull.
  destruct Hfull as [Hfull|Hfull]; [contradiction|].
  apply in_map_iff in Hfull. destruct Hfull as [[e0 k0] [E Hrest]].
  cbn [fst] in E. subst e0.
  split.
  - rewrite Ht, length_firstn. apply Nat.min_l.
    destruct (Nat.le_gt_cases n (List.length full)) as [Hle|Hgt]; [exact Hle|].
    rewrite skipn_all2 in Hrest by lia. destruct Hrest.
  - intros e' k' H'. specialize (Hs2 _ _ H' Hrest). cbn [snd] in Hs2.
    apply Nat.leb_le in Hs2.
    assert (Hk0 : k0 = count_occ N.eq_dec l e).
    { apply (Hin e k0). rewrite Hf. apply in_or_app. right. exact Hrest. }
    lia.
Qed.

(** X16. Whatever the table of emojis, the table of the top emojis has at
    most [top_n] rows and no emoji twice; every row is an emoji of the text
    of the scope with the number of its occurrences there, which is at least
    one; the counts never increase down the table; and an emoji of the text
    that is left out does not occur more often than any that is in, and is
    only left out of a full table. *)
Theorem top_emojis_are_the_most_frequent :
  forall (EMOJI_DATA : char -> bool) (a : WhatsAppAnalyzer) (top_n : nat),
    let table := get_top_emojis EMOJI_DATA a top_n in
    List.length table <= top_n
    /\ NoDup (map fst table)
    /\ (forall e k, In (e, k) table ->
          EMOJI_DATA e = true /\ k = count_occ N.eq_dec (text a) e /\ 1 <= k)
    /\ StronglySorted (fun x y => snd y <= snd x) table
    /\ (forall e, EMOJI_DATA e = true -> In e (text a) ->
          ~ In e (map fst table) ->
          List.length table = top_n
          /\ forall e' k', In (e', k') table ->
               count_occ N.eq_dec (text a) e <= k').
Proof.
  intros EMOJI_DATA a top_n table.
  destruct (most_common_spec top_n (filter EMOJI_DATA (text a)))
    as [H1 [H2 [H3 [H4 H5]]]].
  fold (get_top_emojis EMOJI_DATA a top_n) in H1, H2, H3, H4, H5.
  fold table in H1, H2, H3, H4, H5.
  split; [exact H1|]. split; [exact H2|]. split; [|split; [exact H4|]].
  - intros e k H. apply H3 in H. destruct H as [He ->].
    apply filter_In in He. destruct He as [Hin He].
    rewrite (@count_occ_filter _ _ _ He).
    split; [exact He|]. split; [reflexivity|].
    apply (count_occ_In N.eq_dec) in Hin. lia.
  - intros e He Hin Hout.
    destruct (H5 e) as [Hl Hle];
      [apply filter_In; split; assumption|exact Hout|].
    split; [exact Hl|]. intros e' k' H'.
    specialize (Hle e' k' H').
    rewrite (@count_occ_filter _ _ _ He) in Hle. exact Hle.
Qed.

(** ** The months on display *)

Lemma filter_map_comm (X Y : Type) (f : Y -> bool) (g : X -> Y) (l : list X) :
  filter f (map g l) = map g (filter (fun x => f (g x)) l).
Proof.
  induction l as [|x l IH]; [reflexivity|]. cbn [map filter].
  destruct (f (g x)); cbn [map]; rewrite IH; reflexivity.
Qed.

(** The categories with a positive count. *)
Lemma positive_category_counts (order l : list string) :
  filter (fun p => Nat.ltb 0 (fst p))
    (map (@swap _ _) (category_counts order l))
  = map (fun m => (count_occ string_dec l m, m))
      (filter (fun m => if in_dec string_dec m l then true else false) order).
Proof.
  unfold category_counts. rewrite map_map, filter_map_comm.
  unfold swap. cbn [fst snd]. f_equal. apply filter_ext. intros m.
  destruct (in_dec string_dec m l) as [Hin|Hout].
  - apply Nat.ltb_lt. apply (count_occ_In string_dec) in Hin. lia.
  - apply Nat.ltb_ge.
    apply (count_occ_not_In string_dec) in Hout. lia.
Qed.


(** X17. The chart of months shows the months in which a record of the scope
    falls and no other, in the order of the calendar, each with the number of
    these records. *)
Theorem displayed_months_are_the_months_present :
  forall (a : WhatsAppAnalyzer) (t : Timeline),
    get_timeline_data a = Ok t ->
    let months := map month (rows (df a)) in
    displayed_months t
    = map (fun m => (count_occ string_dec months m, m))
        (filter (fun m => if in_dec string_dec m months then true else false)
           month_order).
Proof.
  intros a t H months. unfold get_timeline_data, getcol in H.
  destruct (has_column "hour" (df a)); [|discriminate].
  destruct (has_column "day_of_week" (df a)); [|discriminate].
  destruct (has_column "month" (df a)); [|discriminate].
  cbn [bind] in H. injection H as <-.
  exact (@positive_category_counts month_order months).
Qed.

Lemma displayed_months_are_the_months_present_witness :
  displayed_months timeline_two_senders
  = map (fun m =>
           (count_occ string_dec
              (map month (rows (df analyzer_two_senders))) m, m))
      (filter
         (fun m =>
            if in_dec string_dec m (map month (rows (df analyzer_two_senders)))
            then true else false)
         month_order).
Proof.
  apply (@displayed_months_are_the_months_present analyzer_two_senders
           timeline_two_senders).
  vm_compute. reflexivity.
Defined.
(** ** The bodies of the records *)

Lemma strip_last (s : str) :
  strip s = [] \/ exists t c, strip s = t ++ [c] /\ isspace c = false.
Proof.
  unfold strip, rstrip.
  destruct (lstrip_head (rev (lstrip s))) as [->|[c [t [-> H]]]].
  - left. reflexivity.
  - right. exists (rev t), c. split; [reflexivity|exact H].
Qed.

Lemma remove_marks_all (s : str) :
  Forall (fun c => c <> RLM) (remove_marks s).
Proof.
  unfold remove_marks. apply Forall_forall. intros c Hc.
  apply filter_In in Hc. destruct Hc as [_ Hc].
  intros ->. rewrite N.eqb_refl in Hc. discriminate Hc.
Qed.

(** X18. The message of every record that [process_dataframe] returns, in
    either copy, begins and ends with a character that is not white space,
    and holds no right-to-left mark. *)
Theorem record_bodies_are_clean :
  forall (sys names : list string) (data : list RawMessage) (d : DataFrame)
         (r : Row),
    process_dataframe_with sys names data = Ok d ->
    In r (rows d) ->
    (exists c t, message r = c :: t /\ isspace c = false)
    /\ (exists t c, message r = t ++ [c] /\ isspace c = false)
    /\ ~ In RLM (message r).
Proof.
  intros sys names data d r Hd Hr.
  rewrite (process_dataframe_ok_rows _ _ _ Hd) in Hr.
  apply in_flat_map in Hr. destruct Hr as [m [_ Hr]].
  apply row_of_inv in Hr. destruct Hr as [t [_ [-> [Hne _]]]].
  cbn [features message]. cbn [clean_message Message] in Hne |- *.
  split; [|split].
  - destruct (strip_head (remove_marks (Message m))) as [E|H]; [|exact H].
    contradiction.
  - destruct (strip_last (remove_marks (Message m))) as [E|H]; [|exact H].
    contradiction.
  - intros H.
    pose proof (@strip_all _ _ (remove_marks_all (Message m))) as F.
    rewrite Forall_forall in F. exact (F _ H eq_refl).
Qed.

Lemma record_bodies_are_clean_witness :
  (exists c t, message scenario_row = c :: t /\ isspace c = false)
  /\ (exists t c, message scenario_row = t ++ [c] /\ isspace c = false)
  /\ ~ In RLM (message scenario_row).
Proof.
  apply (@record_bodies_are_clean app.system_messages app.returned_columns
           (parse_chat scenario) scenario_frame scenario_row).
  - vm_compute. reflexivity.
  - left. reflexivity.
Defined.
